(** * kadi: commanded states and maneuver events

    A shallow embedding of [kadi/cmds/states.py] (the commanded-state
    interpreter) and of the telemetry events of [events/models.py] (the SIM
    detector, the event states, the MSID changes, dwell detection, maneuver
    attributes and maneuver events), with the properties of the
    specification, and further properties of the code, stated over it.

    Conventions of the embedding:
    - a Python [str] is a [string]; [<] on dates is the lexicographic
      order of [String.ltb], as Python compares the date strings;
    - a Python [float] is idealised as a rational [Q];
    - a raised exception is the [Raise] case of [result];
    - a [dict] whose iteration order is observed (a transition) is an
      association list in insertion order; the live state, a [dict] used as
      a map, is a [gmap]; a dwell, a [dict] over five fixed keys, is a
      record of optional fields;
    - a Python [set] is iterated in an order that the code does not fix: the
      order is a field of [Externals], constrained by [set_iter_spec];
    - the loop of [get_states_for_cmds] runs over a list that grows while it
      runs, so it takes fuel; [interp_loop_terminates] shows that some fuel
      is always enough;
    - the libraries outside the repository ([Chandra.Time], [Quaternion],
      [Chandra.Maneuver], [Ska.Sun], [Chandra.cmd_states]) are the fields
      of the record [Externals]; for the telemetry events, fetched MSIDs are
      inputs, and [DateTime], [np.searchsorted] and the maneuver templates
      are variables of a section. *)

From Stdlib Require Import String Ascii ZArith QArith Qround Lia Lqa Sorted.
From stdpp Require Import base list gmap strings pretty.

Local Open Scope string_scope.
Local Open Scope list_scope.

(** ** Python values, exceptions and containers *)

Inductive value : Type :=
  | VNone
  | VStr (s : string)
  | VInt (n : Z)
  | VFloat (x : Q).

#[global] Instance Q_eq_dec : EqDecision Q.
Proof. solve_decision. Defined.
#[global] Instance value_eq_dec : EqDecision value.
Proof. solve_decision. Defined.

Inductive exn : Type :=
  | ValueError (msg : string)
  | KeyError (key : string)
  | IndexError
  | ExternalError (origin : string).

Inductive result (A : Type) : Type :=
  | Ok (a : A)
  | Raise (e : exn).
Arguments Ok {A} a.
Arguments Raise {A} e.

#[global] Instance result_ret : MRet result := fun A a => Ok a.
#[global] Instance result_bind : MBind result := fun A B f m =>
  match m with
  | Ok a => f a
  | Raise e => Raise e
  end.

Definition is_Raise {A} (r : result A) : Prop := exists e, r = Raise e.

(** [==] of Python on the scalars that occur as state values. *)
Definition py_eqb (a b : value) : bool :=
  match a, b with
  | VNone, VNone => true
  | VStr s, VStr s' => String.eqb s s'
  | VInt n, VInt n' => Z.eqb n n'
  | VFloat x, VFloat x' => Qeq_bool x x'
  | VInt n, VFloat x | VFloat x, VInt n => Qeq_bool (inject_Z n) x
  | _, _ => false
  end.

Definition is_None (v : value) : bool :=
  match v with VNone => true | _ => false end.

(** [l[i]] for [0 <= i]. *)
Definition list_get {A} (l : list A) (i : nat) : result A :=
  match l !! i with
  | Some x => Ok x
  | None => Raise IndexError
  end.

(** [l[-1]] *)
Definition list_last {A} (l : list A) : result A :=
  match last l with
  | Some x => Ok x
  | None => Raise IndexError
  end.

(** [d[k]] on a [dict] used as a map. *)
Definition dict_get (d : gmap string value) (k : string) : result value :=
  match d !! k with
  | Some v => Ok v
  | None => Raise (KeyError k)
  end.

(** [d[k] = v] on a [dict] whose order is observed: an existing key keeps its
    place, a new key goes last. *)
Fixpoint assoc_set {V} (k : string) (v : V) (d : list (string * V)) : list (string * V) :=
  match d with
  | [] => [(k, v)]
  | (k', v') :: d' =>
      if String.eqb k k' then (k, v) :: d' else (k', v') :: assoc_set k v d'
  end.

Fixpoint assoc_get {V} (k : string) (d : list (string * V)) : option V :=
  match d with
  | [] => None
  | (k', v') :: d' => if String.eqb k k' then Some v' else assoc_get k d'
  end.

(** A [for] loop whose body may raise. *)
Fixpoint fold_result {A B} (body : B -> A -> result B) (l : list A) (acc : B) : result B :=
  match l with
  | [] => Ok acc
  | x :: l' => acc' ← body acc x; fold_result body l' acc'
  end.

(** A list comprehension whose element expression may raise. *)
Fixpoint map_result {A B} (f : A -> result B) (l : list A) : result (list B) :=
  match l with
  | [] => Ok []
  | x :: l' => y ← f x; ys ← map_result f l'; Ok (y :: ys)
  end.

(** [sorted(l, key=key)] and [l.sort(key=key)] on string keys: a stable sort. *)
Fixpoint insert_sorted {A} (key : A -> string) (x : A) (l : list A) : list A :=
  match l with
  | [] => [x]
  | y :: l' =>
      if String.leb (key x) (key y) then x :: y :: l' else y :: insert_sorted key x l'
  end.

Definition sort_by {A} (key : A -> string) (l : list A) : list A :=
  foldr (insert_sorted key) [] l.

Module States.

(** ** Transitions *)

(** A command row of the [cmds] table: the columns the transition classes
    read, and the parameters that [cmd[name]] falls back to. *)
Record Cmd : Type := mkCmd {
  cmd_date : string;
  cmd_type : string;
  cmd_tlmsid : string;
  cmd_idx : Z;
  cmd_params : list (string * value)
}.

(** The value of a transition entry: a scalar, or one of the dicts
    [{'func': f, ...}] that the interpreter calls.  [cls.add_transitions]
    is bound to the class that emitted it. *)
Inductive func : Type :=
  | update_pitch_func
  | ManeuverTransition_func (cmd : Cmd)
  | NormalSunTransition_func (cmd : Cmd).

Inductive tvalue : Type :=
  | Scalar (v : value)
  | Func (f : func).

(** A transition dict: its ['date'] entry and the other entries in insertion
    order. *)
Record Transition : Type := mkTransition {
  t_date : string;
  t_items : list (string * tvalue)
}.

(** The live state: a dict from state key to value. *)
Abbreviation State := (gmap string value).

(** ** The registry of transition classes *)

Definition QCS : list string := ["q1"; "q2"; "q3"; "q4"].

Definition MANVR_STATE_KEYS : list string :=
  QCS ++ map (fun qc => "targ_" +:+ qc) QCS ++ ["auto_npnt"; "pcad_mode"; "pitch"].

(** The classes that have a [transition_name], in the order of their
    definitions. *)
Inductive TransitionClass : Type :=
  | NMM_Transition
  | NPM_Transition
  | HETG_INSR_Transition
  | HETG_RETR_Transition
  | LETG_INSR_Transition
  | LETG_RETR_Transition
  | DitherEnableTransition
  | DitherDisableTransition
  | ObsidTransition
  | SimTscTransition
  | SimFocusTransition
  | AutoNPMEnableTransition
  | AutoNPMDisableTransition
  | TargQuatTransition
  | ManeuverTransition
  | NormalSunTransition
  | ACISTransition.

#[global] Instance TransitionClass_eq_dec : EqDecision TransitionClass.
Proof. solve_decision. Defined.

Definition class_definitions : list TransitionClass :=
  [NMM_Transition; NPM_Transition; HETG_INSR_Transition; HETG_RETR_Transition;
   LETG_INSR_Transition; LETG_RETR_Transition; DitherEnableTransition;
   DitherDisableTransition; ObsidTransition; SimTscTransition; SimFocusTransition;
   AutoNPMEnableTransition; AutoNPMDisableTransition; TargQuatTransition;
   ManeuverTransition; NormalSunTransition; ACISTransition].

Definition command_attributes (cls : TransitionClass) : list (string * string) :=
  match cls with
  | NMM_Transition => [("type", "COMMAND_SW"); ("tlmsid", "AONMMODE")]
  | NPM_Transition => [("type", "COMMAND_SW"); ("tlmsid", "AONPMODE")]
  | HETG_INSR_Transition => [("type", "COMMAND_SW"); ("tlmsid", "4OHETGIN")]
  | HETG_RETR_Transition => [("type", "COMMAND_SW"); ("tlmsid", "4OHETGRE")]
  | LETG_INSR_Transition => [("type", "COMMAND_SW"); ("tlmsid", "4OLETGIN")]
  | LETG_RETR_Transition => [("type", "COMMAND_SW"); ("tlmsid", "4OLETGRE")]
  | DitherEnableTransition => [("type", "COMMAND_SW"); ("tlmsid", "AOENDITH")]
  | DitherDisableTransition => [("type", "COMMAND_SW"); ("tlmsid", "AODSDITH")]
  | ObsidTransition => [("type", "MP_OBSID")]
  | SimTscTransition => [("type", "SIMTRANS")]
  | SimFocusTransition => [("type", "SIMFOCUS")]
  | AutoNPMEnableTransition => [("type", "COMMAND_SW"); ("tlmsid", "AONM2NPE")]
  | AutoNPMDisableTransition => [("type", "COMMAND_SW"); ("tlmsid", "AONM2NPD")]
  | TargQuatTransition => [("type", "MP_TARGQUAT")]
  | ManeuverTransition => [("type", "COMMAND_SW"); ("tlmsid", "AOMANUVR")]
  | NormalSunTransition => [("type", "COMMAND_SW"); ("tlmsid", "AONSMSAF")]
  | ACISTransition => [("type", "ACISPKT")]
  end.

Definition transition_name (cls : TransitionClass) : string :=
  match cls with
  | NMM_Transition | NPM_Transition => "pcad_mode"
  | HETG_INSR_Transition | HETG_RETR_Transition => "hetg"
  | LETG_INSR_Transition | LETG_RETR_Transition => "letg"
  | DitherEnableTransition | DitherDisableTransition => "dither"
  | ObsidTransition => "obsid"
  | SimTscTransition => "simpos"
  | SimFocusTransition => "simfa_pos"
  | AutoNPMEnableTransition | AutoNPMDisableTransition => "auto_npnt"
  | TargQuatTransition => "targ_quat"
  | ManeuverTransition => "maneuver"
  | NormalSunTransition => "normal_sun"
  | ACISTransition => "acis"
  end.

(** [transition_val] of the subclasses of [SingleFixedTransition] and
    [transition_param_key] of the subclasses of [ParamTransition]. *)
Definition transition_val (cls : TransitionClass) : string :=
  match cls with
  | NMM_Transition => "NMAN"
  | NPM_Transition => "NPNT"
  | HETG_INSR_Transition | LETG_INSR_Transition => "INSR"
  | HETG_RETR_Transition | LETG_RETR_Transition => "RETR"
  | DitherEnableTransition | AutoNPMEnableTransition => "ENAB"
  | DitherDisableTransition | AutoNPMDisableTransition => "DISA"
  | _ => ""
  end.

Definition transition_param_key (cls : TransitionClass) : string :=
  match cls with
  | ObsidTransition => "id"
  | SimTscTransition | SimFocusTransition => "pos"
  | _ => ""
  end.

(** [cls.state_keys]: the class attribute, or [[cls.transition_name]] that
    the metaclass gives a class without one. *)
Definition state_keys_of (cls : TransitionClass) : list string :=
  match cls with
  | NMM_Transition | NPM_Transition | AutoNPMEnableTransition
  | AutoNPMDisableTransition | TargQuatTransition | ManeuverTransition
  | NormalSunTransition => MANVR_STATE_KEYS
  | ACISTransition =>
      ["clocking"; "power_cmd"; "vid_board"; "fep_count"; "si_mode"; "ccd_count"]
  | _ => [transition_name cls]
  end.

(** [x in l] for a list of strings. *)
Definition str_in (x : string) (l : list string) : bool := bool_decide (x ∈ l).

(** [TransitionMeta.__new__], the part that registers one class in
    [STATE_KEYS] and [TRANSITIONS]. *)
Fixpoint registry_append (state_key : string) (cls : TransitionClass)
    (reg : list (string * list TransitionClass)) : list (string * list TransitionClass) :=
  match reg with
  | [] => [(state_key, [cls])]
  | (k, classes) :: reg' =>
      if String.eqb state_key k then (k, classes ++ [cls]) :: reg'
      else (k, classes) :: registry_append state_key cls reg'
  end.

Definition TransitionMeta_new
    (acc : list string * list (string * list TransitionClass)) (cls : TransitionClass)
    : list string * list (string * list TransitionClass) :=
  foldl (fun '(keys, reg) state_key =>
           ((if str_in state_key keys then keys else keys ++ [state_key]),
            registry_append state_key cls reg))
        acc (state_keys_of cls).

Definition STATE_KEYS : list string :=
  fst (foldl TransitionMeta_new ([], []) class_definitions).

Definition TRANSITIONS : list (string * list TransitionClass) :=
  snd (foldl TransitionMeta_new ([], []) class_definitions).

(** [unique(seq)]: the elements of [seq] in order, each at its first
    occurrence. *)
Fixpoint unique_from (seen : list string) (seq : list string) : list string :=
  match seq with
  | [] => []
  | x :: seq' =>
      if str_in x seen then unique_from seen seq' else x :: unique_from (x :: seen) seq'
  end.

Definition unique (seq : list string) : list string := unique_from [] seq.

(** ** Inserting into the live transition list *)

(** The [for ii in range(idx + 1, len(transitions))] loop of [add_transition]
    over the part of the list after the cursor: insert before the first later
    date, [else] append. *)
Fixpoint insert_after (transition : Transition) (rest : list Transition) : list Transition :=
  match rest with
  | [] => [transition]
  | x :: rest' =>
      if String.ltb (t_date transition) (t_date x) then transition :: x :: rest'
      else x :: insert_after transition rest'
  end.

Definition add_transition (transitions : list Transition) (idx : nat)
    (transition : Transition) : result (list Transition) :=
  let date := t_date transition in
  cur ← list_get transitions idx;
  if String.ltb date (t_date cur)
  then Raise (ValueError "cannot insert transition prior to current command")
  else Ok (take (S idx) transitions ++ insert_after transition (drop (S idx) transitions)).

(** The transition list in non-decreasing date order. *)
Definition date_le (a b : Transition) : Prop := String.leb (t_date a) (t_date b) = true.
Definition date_sorted (l : list Transition) : Prop :=
  forall i j x y, (i < j)%nat -> l !! i = Some x -> l !! j = Some y -> date_le x y.

(** Whether a transition holds a function to call. *)
Definition has_func (t : Transition) : bool :=
  existsb (fun '(_, v) => match v with Func _ => true | Scalar _ => false end) (t_items t).

(** The number of transitions of a list that hold a function to call. *)
Definition nfunc (l : list Transition) : nat := length (List.filter has_func l).

(** ** The libraries outside the repository *)

(** A row of the array that [Chandra.Maneuver.attitudes] returns. *)
Record Att : Type := mkAtt {
  att_time : Q;
  att_q1 : Q;
  att_q2 : Q;
  att_q3 : Q;
  att_q4 : Q;
  att_pitch : Q
}.

Definition att_getitem (att : Att) (name : string) : result value :=
  if String.eqb name "q1" then Ok (VFloat (att_q1 att))
  else if String.eqb name "q2" then Ok (VFloat (att_q2 att))
  else if String.eqb name "q3" then Ok (VFloat (att_q3 att))
  else if String.eqb name "q4" then Ok (VFloat (att_q4 att))
  else Raise (KeyError name).

Record Externals : Type := mkExternals {
  (** [DateTime(date).secs] and [DateTime(secs).date] *)
  DateTime_secs : string -> Q;
  DateTime_date : Q -> string;
  (** [Quat(q).ra] and [Quat(q).dec] *)
  Quat_ra_dec : list value -> result (Q * Q);
  (** [Ska.Sun.pitch(ra, dec, date)] *)
  Ska_Sun_pitch : Q -> Q -> string -> Q;
  (** [Chandra.Maneuver.attitudes(curr_att, targ_att, tstart=tstart)] *)
  Maneuver_attitudes : list value -> list value -> Q -> result (list Att);
  (** [Chandra.Maneuver.NSM_attitude(curr_att, date).q] *)
  Maneuver_NSM_attitude : list value -> string -> result (list Q);
  (** [Chandra.cmd_states.decode_power(tlmsid)] *)
  decode_power : string -> gmap string value;
  (** [commands.rev_pars_dict]: the parameter tuples by command index *)
  REV_PARS_DICT : Z -> option (list (string * value));
  (** the order in which [set(l)] is iterated *)
  set_iter : list TransitionClass -> list TransitionClass
}.

(** What a [set] guarantees of its iteration: every element once. *)
Definition set_iter_spec (E : Externals) : Prop :=
  forall l, NoDup (set_iter E l) /\ forall c, c ∈ set_iter E l <-> c ∈ l.

(** ** Emitting transitions from commands *)

(** [cmd[name]] for a parameter of the command. *)
Definition cmd_param (cmd : Cmd) (name : string) : result value :=
  match assoc_get name (cmd_params cmd) with
  | Some v => Ok v
  | None => Raise (KeyError name)
  end.

(** [cmds[attr]] at one row, for the columns of [command_attributes]. *)
Definition cmd_column (cmd : Cmd) (attr : string) : value :=
  if String.eqb attr "type" then VStr (cmd_type cmd)
  else if String.eqb attr "tlmsid" then VStr (cmd_tlmsid cmd)
  else if String.eqb attr "date" then VStr (cmd_date cmd)
  else default VNone (assoc_get attr (cmd_params cmd)).

Definition get_state_changing_commands (cls : TransitionClass) (cmds : list Cmd) : list Cmd :=
  List.filter
    (fun cmd => forallb (fun '(attr, val) => py_eqb (cmd_column cmd attr) (VStr val))
                        (command_attributes cls))
    cmds.

(** [collections.defaultdict(dict)] from a date to the transition dict of
    that date. *)
Definition TransitionsMap : Type := list (string * list (string * tvalue)).

(** [transitions[date][key] = v] *)
Definition tmap_setitem (date key : string) (v : tvalue) (transitions : TransitionsMap)
    : TransitionsMap :=
  assoc_set date (assoc_set key v (default [] (assoc_get date transitions))) transitions.

(** [transitions[date].update(k1=v1, ...)] *)
Definition tmap_update (date : string) (kwargs : list (string * value))
    (transitions : TransitionsMap) : TransitionsMap :=
  foldl (fun tr '(k, v) => tmap_setitem date k (Scalar v) tr)
        (assoc_set date (default [] (assoc_get date transitions)) transitions) kwargs.

Section Interpreter.

Variable E : Externals.

Definition SingleFixedTransition_set_transitions (cls : TransitionClass)
    (transitions : TransitionsMap) (cmds : list Cmd) : result TransitionsMap :=
  let state_cmds := get_state_changing_commands cls cmds in
  let val := transition_val cls in
  let attr := transition_name cls in
  Ok (foldl (fun tr cmd => tmap_setitem (cmd_date cmd) attr (Scalar (VStr val)) tr)
            transitions state_cmds).

Definition ParamTransition_set_transitions (cls : TransitionClass)
    (transitions : TransitionsMap) (cmds : list Cmd) : result TransitionsMap :=
  let state_cmds := get_state_changing_commands cls cmds in
  let param_key := transition_param_key cls in
  let name := transition_name cls in
  fold_result
    (fun tr cmd =>
       match REV_PARS_DICT E (cmd_idx cmd) with
       | None => Raise (KeyError (pretty (cmd_idx cmd)))
       | Some pars =>
           match assoc_get param_key (rev pars) with
           | None => Raise (KeyError param_key)
           | Some val => Ok (tmap_setitem (cmd_date cmd) name (Scalar val) tr)
           end
       end)
    state_cmds transitions.

Definition TargQuatTransition_set_transitions
    (transitions : TransitionsMap) (cmds : list Cmd) : result TransitionsMap :=
  let state_cmds := get_state_changing_commands TargQuatTransition cmds in
  fold_result
    (fun tr cmd =>
       fold_result
         (fun tr qc =>
            v ← cmd_param cmd qc;
            Ok (tmap_setitem (cmd_date cmd) ("targ_" +:+ qc) (Scalar v) tr))
         QCS (tmap_update (cmd_date cmd) [] tr))
    state_cmds transitions.

(** [ManeuverTransition.set_transitions], inherited by
    [NormalSunTransition]: [cls.add_transitions] is the function of [cls]. *)
Definition ManeuverTransition_set_transitions (cls : TransitionClass)
    (transitions : TransitionsMap) (cmds : list Cmd) : result TransitionsMap :=
  let state_cmds := get_state_changing_commands cls cmds in
  let add_transitions cmd :=
    match cls with
    | NormalSunTransition => NormalSunTransition_func cmd
    | _ => ManeuverTransition_func cmd
    end in
  Ok (foldl (fun tr cmd => tmap_setitem (cmd_date cmd) "maneuver" (Func (add_transitions cmd)) tr)
            transitions state_cmds).

Definition ACISTransition_set_transitions
    (transitions : TransitionsMap) (cmds : list Cmd) : result TransitionsMap :=
  let state_cmds := get_state_changing_commands ACISTransition cmds in
  fold_result
    (fun tr cmd =>
       let tlmsid := cmd_tlmsid cmd in
       let date := cmd_date cmd in
       if String.prefix "WSPOW" tlmsid then
         let pwr := decode_power E tlmsid in
         fep_count ← dict_get pwr "fep_count";
         ccd_count ← dict_get pwr "ccd_count";
         vid_board ← dict_get pwr "vid_board";
         clocking ← dict_get pwr "clocking";
         Ok (tmap_update date [("fep_count", fep_count); ("ccd_count", ccd_count);
                               ("vid_board", vid_board); ("clocking", clocking);
                               ("power_cmd", VStr tlmsid)] tr)
       else if str_in tlmsid ["XCZ0000005"; "XTZ0000005"] then
         Ok (tmap_update date [("clocking", VInt 1); ("power_cmd", VStr tlmsid)] tr)
       else if String.eqb tlmsid "WSVIDALLDN" then
         Ok (tmap_update date [("vid_board", VInt 0); ("power_cmd", VStr tlmsid)] tr)
       else if String.eqb tlmsid "AA00000000" then
         Ok (tmap_update date [("clocking", VInt 0); ("power_cmd", VStr tlmsid)] tr)
       else if String.eqb tlmsid "WSFEPALLUP" then
         Ok (tmap_update date [("fep_count", VInt 6); ("power_cmd", VStr tlmsid)] tr)
       else if String.prefix "WC" tlmsid then
         Ok (tmap_update date [("si_mode", VStr ("CC_" +:+ substring 2 5 tlmsid))] tr)
       else if String.prefix "WT" tlmsid then
         Ok (tmap_update date [("si_mode", VStr ("TE_" +:+ substring 2 5 tlmsid))] tr)
       else Ok tr)
    state_cmds transitions.

Definition set_transitions (cls : TransitionClass)
    (transitions : TransitionsMap) (cmds : list Cmd) : result TransitionsMap :=
  match cls with
  | ObsidTransition | SimTscTransition | SimFocusTransition =>
      ParamTransition_set_transitions cls transitions cmds
  | TargQuatTransition => TargQuatTransition_set_transitions transitions cmds
  | ManeuverTransition | NormalSunTransition =>
      ManeuverTransition_set_transitions cls transitions cmds
  | ACISTransition => ACISTransition_set_transitions transitions cmds
  | _ => SingleFixedTransition_set_transitions cls transitions cmds
  end.

(** [state_keys=None] is [None]; a single string is not modelled. *)
Definition get_transition_classes (state_keys : option (list string)) : list TransitionClass :=
  match state_keys with
  | None => set_iter E (concat (map snd TRANSITIONS))
  | Some state_keys =>
      set_iter E (concat (map snd
        (List.filter (fun '(state_key, classes) => str_in state_key state_keys) TRANSITIONS)))
  end.

Definition get_transitions_list (cmds : list Cmd) (state_keys : option (list string))
    : result (list Transition) :=
  transitions ← fold_result (fun tr cls => set_transitions cls tr cmds)
                            (get_transition_classes state_keys) [];
  Ok (map (fun '(date, items) => mkTransition date items) (sort_by fst transitions)).

(** ** The functions that transitions call *)

Definition update_pitch_state (date : string) (transitions : list Transition)
    (state : State) (idx : nat) : result (list Transition * State) :=
  pcad_mode ← dict_get state "pcad_mode";
  if py_eqb pcad_mode (VStr "NPNT") then
    q ← map_result (dict_get state) QCS;
    '(ra, dec) ← Quat_ra_dec E q;
    let pitch := Ska_Sun_pitch E ra dec date in
    Ok (transitions, <["pitch" := VFloat pitch]> state)
  else Ok (transitions, state).

(** [np.arange(start, stop, step)] for a positive step. *)
Definition np_arange (start stop step : Q) : list Q :=
  map (fun i => start + inject_Z (Z.of_nat i) * step)%Q
      (seq 0 (Z.to_nat (Qceiling ((stop - start) / step)))).

Definition add_pitch_transitions (start stop : string) (transitions : list Transition)
    : list Transition :=
  let sample_time := 10000%Q in
  let tstart := (inject_Z (Qfloor (DateTime_secs E start / sample_time)) * sample_time)%Q in
  let tstop := DateTime_secs E stop in
  let times := np_arange tstart tstop sample_time in
  let dates := map (DateTime_date E) times in
  let pitch_transitions :=
    map (fun date => mkTransition date [("update_pitch", Func update_pitch_func)]) dates in
  sort_by t_date (transitions ++ pitch_transitions).

(** The dict [{'date': date, 'q1': att['q1'], ..., 'pitch': pitch}] that a sample
    of the maneuver profile inserts. *)
Definition sample_transition (att : Att) (pitch : Q) : Transition :=
  mkTransition (DateTime_date E (att_time att))
    [("q1", Scalar (VFloat (att_q1 att))); ("q2", Scalar (VFloat (att_q2 att)));
     ("q3", Scalar (VFloat (att_q3 att))); ("q4", Scalar (VFloat (att_q4 att)));
     ("pitch", Scalar (VFloat pitch))].

(** The body of [for att, pitch in zip(atts, pitches)] in
    [add_manvr_transitions]: the loop variable [date] and the live list. *)
Definition add_manvr_sample (idx : nat) (acc : string * list Transition)
    (sample : Att * Q) : result (string * list Transition) :=
  let '(_, transitions) := acc in
  let '(att, pitch) := sample in
  let date := DateTime_date E (att_time att) in
  items ← map_result (fun qc => v ← att_getitem att qc; Ok (qc, Scalar v)) QCS;
  let transition := mkTransition date (items ++ [("pitch", Scalar (VFloat pitch))]) in
  transitions ← add_transition transitions idx transition;
  Ok (date, transitions).

(** The seeding of the current attitude: [state[qc] = state['targ_' + qc]]
    for each component, when [state['q1'] is None]. *)
Definition seed_attitude (state : State) : result State :=
  q1 ← dict_get state "q1";
  if is_None q1
  then fold_result (fun st qc => v ← dict_get st ("targ_" +:+ qc); Ok (<[qc := v]> st))
                   QCS state
  else Ok state.

(** [ManeuverTransition.add_manvr_transitions]; the result is the returned
    end-of-maneuver date with the list and the state as the call leaves them. *)
Definition add_manvr_transitions (date : string) (transitions : list Transition)
    (state : State) (idx : nat) (cmd : Cmd) : result (string * list Transition * State) :=
  targ_att ← map_result (fun qc => dict_get state ("targ_" +:+ qc)) QCS;
  state ← seed_attitude state;
  curr_att ← map_result (dict_get state) QCS;
  atts ← Maneuver_attitudes E curr_att targ_att (DateTime_secs E (cmd_date cmd));
  last_att ← list_last atts;
  let pitches :=
    zip_with (fun a b => (att_pitch a + att_pitch b) / 2)%Q (removelast atts) (tail atts)
    ++ [att_pitch last_att] in
  '(date, transitions) ← fold_result (add_manvr_sample idx) (zip atts pitches)
                                     (date, transitions);
  Ok (date, transitions, state).

Definition ManeuverTransition_add_transitions (date : string)
    (transitions : list Transition) (state : State) (idx : nat) (cmd : Cmd)
    : result (list Transition * State) :=
  '(end_manvr_date, transitions, state) ← add_manvr_transitions date transitions state idx cmd;
  auto_npnt ← dict_get state "auto_npnt";
  if py_eqb auto_npnt (VStr "ENAB") then
    let transition := mkTransition end_manvr_date [("pcad_mode", Scalar (VStr "NPNT"))] in
    transitions ← add_transition transitions idx transition;
    Ok (transitions, state)
  else Ok (transitions, state).

Definition NormalSunTransition_add_transitions (date : string)
    (transitions : list Transition) (state : State) (idx : nat) (cmd : Cmd)
    : result (list Transition * State) :=
  let state := <["pcad_mode" := VStr "NSUN"]> state in
  curr_att ← map_result (dict_get state) QCS;
  targ_att ← Maneuver_NSM_attitude E curr_att (cmd_date cmd);
  let state :=
    foldl (fun st '(qc, targ_q) => <["targ_" +:+ qc := VFloat targ_q]> st) state
          (zip QCS targ_att) in
  '(_, transitions, state) ← add_manvr_transitions date transitions state idx cmd;
  Ok (transitions, state).

(** [func(date, transitions, state, idx, **value)] *)
Definition call_func (f : func) (date : string) (transitions : list Transition)
    (state : State) (idx : nat) : result (list Transition * State) :=
  match f with
  | update_pitch_func => update_pitch_state date transitions state idx
  | ManeuverTransition_func cmd =>
      ManeuverTransition_add_transitions date transitions state idx cmd
  | NormalSunTransition_func cmd =>
      NormalSunTransition_add_transitions date transitions state idx cmd
  end.

(** ** The interpreter *)

(** The variables of the loop of [get_states_for_cmds].  [ls_state] is the
    dict that [state] names, which is also the last element of the Python
    list [states]; [ls_states] holds the elements before it. *)
Record LoopState : Type := mkLoopState {
  ls_transitions : list Transition;
  ls_states : list State;
  ls_state : State;
  ls_datestarts : list string
}.

(** The body of [for key, value in transition.items()]. *)
Definition interp_item (date : string) (idx : nat) (ls : LoopState)
    (item : string * tvalue) : result LoopState :=
  let '(key, value) := item in
  match value with
  | Func f =>
      '(transitions, state) ← call_func f date (ls_transitions ls) (ls_state ls) idx;
      Ok (mkLoopState transitions (ls_states ls) state (ls_datestarts ls))
  | Scalar v =>
      Ok (mkLoopState (ls_transitions ls) (ls_states ls) (<[key := v]> (ls_state ls))
                      (ls_datestarts ls))
  end.

(** [if date != datestarts[-1]]: a copy of the live state starts a new row. *)
Definition start_row (date : string) (ls : LoopState) : result LoopState :=
  last_datestart ← list_last (ls_datestarts ls);
  if negb (String.eqb date last_datestart)
  then Ok (mkLoopState (ls_transitions ls) (ls_states ls ++ [ls_state ls]) (ls_state ls)
                       (ls_datestarts ls ++ [date]))
  else Ok ls.

(** One iteration of [for idx, transition in enumerate(transitions)]. *)
Definition interp_transition (idx : nat) (transition : Transition) (ls : LoopState)
    : result LoopState :=
  let date := t_date transition in
  ls ← start_row date ls;
  fold_result (interp_item date idx) (t_items transition) ls.

(** The [for] loop over the list that grows while it runs.  [fuel] bounds the
    number of iterations; [None] is a run that needs more. *)
Fixpoint interp_loop (fuel : nat) (idx : nat) (ls : LoopState) : option (result LoopState) :=
  match fuel with
  | O => None
  | S fuel' =>
      match ls_transitions ls !! idx with
      | None => Some (Ok ls)
      | Some transition =>
          match interp_transition idx transition ls with
          | Ok ls' => interp_loop fuel' (S idx) ls'
          | Raise e => Some (Raise e)
          end
      end
  end.

(** The variables of the loop after its first [n] iterations (or after its
    last one, when there are fewer). *)
Fixpoint interp_steps (n : nat) (idx : nat) (ls : LoopState) : result LoopState :=
  match n with
  | O => Ok ls
  | S n' =>
      match ls_transitions ls !! idx with
      | None => Ok ls
      | Some transition =>
          ls' ← interp_transition idx transition ls;
          interp_steps n' (S idx) ls'
      end
  end.

(** Whether iteration [i] of the loop that starts from [ls] changed the live
    state: the state after iteration [i] is not the state before it. *)
Definition changed_state (ls : LoopState) (i : nat) : bool :=
  match interp_steps i 0 ls, interp_steps (S i) 0 ls with
  | Ok ls_before, Ok ls_after => negb (bool_decide (ls_state ls_before = ls_state ls_after))
  | _, _ => false
  end.

(** The complete list of state keys that [get_states_for_cmds] processes. *)
Definition all_state_keys (state_keys : option (list string)) : list string :=
  match state_keys with
  | None => STATE_KEYS
  | Some orig_state_keys =>
      unique (concat (map (fun state_key =>
                concat (map (fun cls => if str_in state_key (state_keys_of cls)
                                        then state_keys_of cls else [])
                            (set_iter E class_definitions)))
              orig_state_keys))
  end.

(** [get_states_for_cmds] up to the loop: the transitions and the variables
    as the loop starts. *)
Definition init_loop (cmds : list Cmd) (state_keys : list string) : result LoopState :=
  transitions ← get_transitions_list cmds (Some state_keys);
  cmd_first ← list_get cmds 0;
  cmd_last ← list_last cmds;
  let transitions := add_pitch_transitions (cmd_date cmd_first) (cmd_date cmd_last) transitions in
  let state : State := list_to_map (map (fun key => (key, VNone)) state_keys) in
  transition0 ← list_get transitions 0;
  Ok (mkLoopState transitions [] state [t_date transition0]).

End Interpreter.

(** ** Invariants of the interpreter *)

(** A transition of [add_pitch_transitions]. *)
Definition pitch_sample (t : Transition) : Prop :=
  t_items t = [("update_pitch", Func update_pitch_func)].

(** What a call at cursor [idx] may do to the live list: the part up to the
    cursor stays, nothing is removed, and what is inserted calls no function. *)
Definition grows (idx : nat) (tr tr' : list Transition) : Prop :=
  (idx < length tr)%nat /\
  take (S idx) tr' = take (S idx) tr /\
  (forall x, x ∈ tr -> x ∈ tr') /\
  nfunc (drop (S idx) tr') = nfunc (drop (S idx) tr) /\
  (length tr <= length tr')%nat.

(** What the loop maintains at cursor [idx]: each [datestart] is the date of
    a transition of the list, each transition before the cursor has its date
    among the [datestarts], and there is one [datestart] for each row. *)
Definition dates_inv (idx : nat) (ls : LoopState) : Prop :=
  (forall d, d ∈ ls_datestarts ls -> exists t, t ∈ ls_transitions ls /\ t_date t = d) /\
  (forall i t, (i < idx)%nat -> ls_transitions ls !! i = Some t ->
     t_date t ∈ ls_datestarts ls) /\
  length (ls_datestarts ls) = S (length (ls_states ls)).

(** ** State tables *)

(** An [astropy] table: the column names and the rows. *)
Record Table : Type := mkTable {
  colnames : list string;
  rows : list (list value)
}.

Fixpoint index_of (name : string) (names : list string) : option nat :=
  match names with
  | [] => None
  | n :: names' => if String.eqb name n then Some 0%nat else S <$> index_of name names'
  end.

(** [table[name]] *)
Definition table_column (t : Table) (name : string) : result (list value) :=
  match index_of name (colnames t) with
  | None => Raise (KeyError name)
  | Some i => map_result (fun row => list_get row i) (rows t)
  end.

(** [table[names]] *)
Definition table_select (t : Table) (names : list string) : result Table :=
  idxs ← map_result (fun name => match index_of name (colnames t) with
                                 | None => Raise (KeyError name)
                                 | Some i => Ok i
                                 end) names;
  rows' ← map_result (fun row => map_result (list_get row) idxs) (rows t);
  Ok (mkTable names rows').

(** The end of [get_states_for_cmds]: the table of the rows with the
    [datestart] and [datestop] columns in front. *)
Definition states_table (state_keys : list string) (states : list State)
    (datestarts : list string) : result Table :=
  rows ← map_result (fun state => map_result (dict_get state) state_keys) states;
  _ ← list_last datestarts;
  let datestop := tail datestarts ++ ["2099:365:00:00:00.000"] in
  Ok (mkTable ("datestart" :: "datestop" :: state_keys)
        (zip_with (fun '(ds, de) row => VStr ds :: VStr de :: row) (zip datestarts datestop) rows)).

(** [get_states_for_cmds] through its loop: the variables as the loop ends. *)
Definition interpret (E : Externals) (fuel : nat) (cmds : list Cmd)
    (state_keys : option (list string)) : option (result LoopState) :=
  match init_loop E cmds (all_state_keys E state_keys) with
  | Raise e => Some (Raise e)
  | Ok ls => interp_loop E fuel 0 ls
  end.

Definition get_states_for_cmds (E : Externals) (fuel : nat) (cmds : list Cmd)
    (state_keys : option (list string)) : option (result Table) :=
  match interpret E fuel cmds state_keys with
  | None => None
  | Some (Raise e) => Some (Raise e)
  | Some (Ok ls) =>
      Some (states_table (all_state_keys E state_keys)
                         (ls_states ls ++ [ls_state ls]) (ls_datestarts ls))
  end.

(** The transition list as the loop of [get_states_for_cmds] leaves it. *)
Definition final_transitions (E : Externals) (fuel : nat) (cmds : list Cmd)
    (state_keys : option (list string)) : option (result (list Transition)) :=
  (fun r => ls ← r; Ok (ls_transitions ls)) <$> interpret E fuel cmds state_keys.

(** For each of the first [n] iterations of that loop, whether it changed the
    live state. *)
Definition changed_states (E : Externals) (cmds : list Cmd)
    (state_keys : option (list string)) (n : nat) : result (list bool) :=
  ls ← init_loop E cmds (all_state_keys E state_keys);
  Ok (map (changed_state E ls) (seq 0 n)).

(** Invariant I3 of the specification on one row: its [datestart] is the date
    of a transition whose iteration changed the live state. *)
Definition row_starts_at_change (E : Externals) (ls0 : LoopState)
    (transitions : list Transition) (row : list value) : bool :=
  existsb (fun '(i, t) => bool_decide (row !! 0%nat = Some (VStr (t_date t)))
                          && changed_state E ls0 i)
          (imap (fun i t => (i, t)) transitions).

(** Invariant I3 on the table of a run of [get_states_for_cmds]. *)
Definition rows_start_at_changes (E : Externals) (fuel : nat) (cmds : list Cmd)
    (state_keys : option (list string)) : option (result bool) :=
  match init_loop E cmds (all_state_keys E state_keys) with
  | Raise e => Some (Raise e)
  | Ok ls0 =>
      match interp_loop E fuel 0 ls0 with
      | None => None
      | Some (Raise e) => Some (Raise e)
      | Some (Ok ls) =>
          Some (tbl ← states_table (all_state_keys E state_keys)
                                   (ls_states ls ++ [ls_state ls]) (ls_datestarts ls);
                Ok (forallb (row_starts_at_change E ls0 (ls_transitions ls)) (rows tbl)))
      end
  end.

(** [different[1:] |= (col[:-1] != col[1:])] *)
Definition mark_different (different : list bool) (col : list value) : list bool :=
  match different with
  | [] => []
  | d0 :: ds =>
      d0 :: zip_with orb ds
              (zip_with (fun a b => negb (py_eqb a b)) (removelast col) (tail col))
  end.

(** Whether row [r] of a column differs from row [r - 1]; row 0 has no row
    before it. *)
Definition differs (col : list value) (r : nat) : bool :=
  match r with
  | O => false
  | S r' =>
      match col !! r', col !! r with
      | Some a, Some b => negb (py_eqb a b)
      | _, _ => false
      end
  end.

(** [table[mask]] *)
Fixpoint mask_rows {A} (l : list A) (mask : list bool) : list A :=
  match l, mask with
  | x :: l', b :: mask' => if b then x :: mask_rows l' mask' else mask_rows l' mask'
  | _, _ => []
  end.

(** [out['datestop'][:-1] = out['datestart'][1:]] on the rows of [out], whose
    first two columns are [datestart] and [datestop]. *)
Fixpoint chain_datestop (rows : list (list value)) : list (list value) :=
  match rows with
  | (ds :: de :: vals) :: ((ds' :: _) :: _) as rest => (ds :: ds' :: vals) :: chain_datestop rest
  | row :: rest => row :: chain_datestop rest
  | [] => []
  end.

Definition reduce_states (states : Table) (state_keys : list string) : result Table :=
  different ← fold_result (fun different key =>
                             col ← table_column states key;
                             Ok (mark_different different col))
                          state_keys (replicate (length (rows states)) false);
  selected ← table_select states ("datestart" :: "datestop" :: state_keys);
  let out := mkTable (colnames selected) (mask_rows (rows selected) different) in
  Ok (mkTable (colnames out) (chain_datestop (rows out))).

(** ** Further invariants of the interpreter *)

(** The transition list as the loop of [get_states_for_cmds] starts: the
    transitions of the commands and the pitch samples, sorted by date. *)
Definition initial_transitions (E : Externals) (cmds : list Cmd)
    (state_keys : option (list string)) : result (list Transition) :=
  ls ← init_loop E cmds (all_state_keys E state_keys); Ok (ls_transitions ls).

(** What the loop maintains at cursor [idx], besides [dates_inv]: the list
    is in date order, the [datestarts] increase strictly, and no transition
    from the cursor on is dated before the last [datestart]. *)
Definition rows_inv (idx : nat) (ls : LoopState) : Prop :=
  date_sorted (ls_transitions ls) /\
  (forall i j a b, (i < j)%nat -> ls_datestarts ls !! i = Some a ->
     ls_datestarts ls !! j = Some b -> String.ltb a b = true) /\
  exists d, last (ls_datestarts ls) = Some d /\
    forall i t, (idx <= i)%nat -> ls_transitions ls !! i = Some t ->
      String.leb d (t_date t) = true.

(** What [get_transitions_list] maintains on the dict that the classes fill:
    its dates are distinct, and each is the date of a command of the batch. *)
Definition dated (cmds : list Cmd) (tm : TransitionsMap) : Prop :=
  NoDup (map fst tm) /\
  Forall (fun date => exists cmd, cmd ∈ cmds /\ cmd_date cmd = date) (map fst tm).

(** The entries of a transition that sets state keys other than [key] and
    calls no function. *)
Definition plain_items (key : string) (items : list (string * tvalue)) : Prop :=
  Forall (fun item => item.1 <> key /\ exists v, item.2 = Scalar v) items.

End States.

(** * Maneuver events from telemetry ([events/models.py]) *)

Module Events.

Definition ZERO_DT : Q := - (1 # 1000000).

(** A row of the structured array of [get_msid_changes]. *)
Record Change : Type := mkChange {
  msid : string;
  sortmsid : Z;
  val0 : string;
  val : string;
  date0 : string;
  date : string;
  dt : Q;
  time0 : Q;
  time : Q
}.

Definition Qltb (a b : Q) : bool := negb (Qle_bool b a).

(** [changes['dt'] >= ZERO_DT] at one row: the change is in the part after
    the end of the maneuver. *)
Definition post_manvr (change : Change) : bool := Qle_bool ZERO_DT (dt change).

(** The rows of [Maneuver.get_events] for one maneuver: the slice
    [changes[i0:i1 + 1]] with its [dt] set from the end of the maneuver, and
    the rows of it that pass [ok]. *)
Definition manvr_sequence (changes : list Change) (i0 i1 : nat) (manvr_tstop : Q)
    : list Change :=
  let sequence := take (i1 + 1 - i0) (drop i0 changes) in
  let sequence :=
    map (fun c => mkChange (msid c) (sortmsid c) (val0 c) (val c) (date0 c) (date c)
                           ((time c + time0 c) / 2 - manvr_tstop)%Q (time0 c) (time c))
        sequence in
  List.filter (fun c => post_manvr c || String.eqb (msid c) "aofattmd"
                        || String.eqb (msid c) "aopcadmd") sequence.

(** A dwell dict: each key is absent until it is assigned. *)
Record Dwell : Type := mkDwell {
  dwell_dt : option Q;
  dwell_tstart : option Q;
  dwell_datestart : option string;
  dwell_tstop : option Q;
  dwell_datestop : option string
}.

Definition empty_dwell : Dwell := mkDwell None None None None None.

(** The variables of the loop of [get_dwells]. *)
Record DwellLoop : Type := mkDwellLoop {
  dwells : list Dwell;
  state : option string;
  t0 : Q;
  dwell : Dwell
}.

Definition is_dwell (state : option string) : bool :=
  match state with
  | Some s => String.eqb s "dwell"
  | None => false
  end.

(** The guard of the last [elif] of the loop, for a machine in a dwell. *)
Definition dwell_exit (t0 : Q) (change : Change) : bool :=
  (String.eqb (msid change) "aopcadmd" && String.eqb (val change) "NMAN")
  || (String.eqb (msid change) "aoacaseq" && Qltb 400 (time change - t0)).

(** The body of [for change in changes[ok]]. *)
Definition dwell_step (st : DwellLoop) (change : Change) : DwellLoop :=
  if bool_decide (state st = None)
     && String.eqb (msid change) "aoacaseq" && String.eqb (val change) "KALM"
  then
    let d := dwell st in
    mkDwellLoop (dwells st) (Some "dwell") (time change)
      (mkDwell (Some (dt change)) (Some (time change)) (Some (date change))
               (dwell_tstop d) (dwell_datestop d))
  else if is_dwell (state st)
          && String.eqb (msid change) "aoacaseq" && String.eqb (val change) "KALM"
          && Qltb (time change - t0 st) 400
  then
    let d := dwell st in
    mkDwellLoop (dwells st) (state st) (time change)
      (mkDwell (Some (dt change)) (Some (time change)) (Some (date change))
               (dwell_tstop d) (dwell_datestop d))
  else if is_dwell (state st) && dwell_exit (t0 st) change
  then
    let d := dwell st in
    let d := mkDwell (dwell_dt d) (dwell_tstart d) (dwell_datestart d)
                     (Some (time0 change)) (Some (date0 change)) in
    mkDwellLoop (dwells st ++ [d]) None (t0 st) empty_dwell
  else st.

Definition dwell_loop (st : DwellLoop) (changes : list Change) : DwellLoop :=
  foldl dwell_step st changes.

(** A dwell dict with its start and its stop. *)
Definition complete_dwell (d : Dwell) : bool :=
  bool_decide (is_Some (dwell_tstart d)) && bool_decide (is_Some (dwell_datestart d))
  && bool_decide (is_Some (dwell_tstop d)) && bool_decide (is_Some (dwell_datestop d)).

Definition get_dwells_start : DwellLoop := mkDwellLoop [] None 0 empty_dwell.

Definition get_dwells (changes : list Change) : list Dwell :=
  dwells (dwell_loop get_dwells_start (List.filter post_manvr changes)).

(** What the loop of [get_dwells] maintains: every dwell in [dwells] has its
    start and its stop; outside a dwell the pending dict is empty; inside one
    it has a start and no stop. *)
Definition dwell_inv (st : DwellLoop) : Prop :=
  Forall (fun d => complete_dwell d = true) (dwells st) /\
  match state st with
  | None => dwell st = empty_dwell
  | Some s =>
      s = "dwell" /\ is_Some (dwell_tstart (dwell st)) /\
      is_Some (dwell_datestart (dwell st)) /\
      dwell_tstop (dwell st) = None /\ dwell_datestop (dwell st) = None
  end.

(** A dwell that a change of [seen] to [KALM] started and a change of [seen]
    ended. *)
Definition dwell_between (seen : list Change) (d : Dwell) : Prop :=
  exists c1 c2,
    c1 ∈ seen /\ c2 ∈ seen /\ msid c1 = "aoacaseq" /\ val c1 = "KALM" /\
    dwell_exit (time c1) c2 = true /\
    d = mkDwell (Some (dt c1)) (Some (time c1)) (Some (date c1))
                (Some (time0 c2)) (Some (date0 c2)).

(** What the loop of [get_dwells] maintains over the changes [seen] so far:
    the dwells in [dwells] are of this kind, and a pending dwell was started
    by the change of [seen] to [KALM] whose time is [t0]. *)
Definition dwell_from (seen : list Change) (st : DwellLoop) : Prop :=
  Forall (dwell_between seen) (dwells st) /\
  match state st with
  | None => dwell st = empty_dwell
  | Some s =>
      s = "dwell" /\
      exists c1, c1 ∈ seen /\ msid c1 = "aoacaseq" /\ val c1 = "KALM" /\
        t0 st = time c1 /\
        dwell st = mkDwell (Some (dt c1)) (Some (time c1)) (Some (date c1)) None None
  end.

(** The values of the attributes of a maneuver. *)
Inductive attr : Type :=
  | ADate (d : option string)
  | AInt (n : Z)
  | ABool (b : bool)
  | AStr (s : string)
  | AFloat (x : Q).

Inductive match_filter : Type := before | after.

Inductive match_result : Type :=
  | MDates (l : list string)
  | MDate (d : option string).

(** [l[idx]] with a negative index counting from the end; [None] is the
    [IndexError] that [match] catches. *)
Definition py_index {A} (l : list A) (idx : Z) : option A :=
  if (0 <=? idx)%Z then l !! Z.to_nat idx
  else if (idx <? - Z.of_nat (length l))%Z then None
  else l !! Z.to_nat (Z.of_nat (length l) + idx).

(** The local function [match] of [get_manvr_attrs]. *)
Definition match_ (changes : list Change) (msid' val' : string) (idx : option Z)
    (filter : option match_filter) : match_result :=
  let ok c :=
    String.eqb (msid c) msid'
    && (if String.prefix "!" val'
        then negb (String.eqb (val c) (substring 1 (String.length val' - 1) val'))
        else String.eqb (val c) val')
    && match filter with
       | Some before => Qltb (dt c) ZERO_DT
       | Some after => Qle_bool ZERO_DT (dt c)
       | None => true
       end in
  let dates := map date (List.filter ok changes) in
  match idx with
  | None => MDates dates
  | Some idx => MDate (py_index dates idx)
  end.

Definition match_date (r : match_result) : attr :=
  match r with
  | MDate d => ADate d
  | MDates _ => ADate None
  end.

Definition match_len (r : match_result) : attr :=
  match r with
  | MDates l => AInt (Z.of_nat (length l))
  | MDate _ => AInt 0
  end.

Definition nom_vals : list (string * list string) :=
  [("aopcadmd", ["NPNT"; "NMAN"]);
   ("aoacaseq", ["GUID"; "KALM"; "AQXN"]);
   ("aofattmd", ["MNVR"; "STDY"]);
   ("aopsacpr", ["INIT"; "INAC"; "ACT "])].

(** The loop that sets [anomalous], over [changes[changes['dt'] >= ZERO_DT]]. *)
Fixpoint anomalous_loop (changes : list Change) : result bool :=
  match changes with
  | [] => Ok false
  | change :: changes' =>
      match assoc_get (msid change) nom_vals with
      | None => Raise (KeyError (msid change))
      | Some nominal =>
          if negb (bool_decide (val change ∈ nominal)) then Ok true
          else anomalous_loop changes'
      end
  end.

Definition get_anomalous (changes : list Change) : result bool :=
  anomalous_loop (List.filter post_manvr changes).

(** The attributes of dwell number [i], under its prefix. *)
Definition dwell_attrs (i : nat) (d : Dwell) : result (list (string * attr)) :=
  let prefix := if Nat.eqb i 0 then "dwell_" else "dwell" +:+ pretty (i + 1)%nat +:+ "_" in
  let get {A} (key : string) (field : option A) : result A :=
    match field with Some x => Ok x | None => Raise (KeyError key) end in
  datestart ← get "datestart" (dwell_datestart d);
  datestop ← get "datestop" (dwell_datestop d);
  dt_start ← get "dt" (dwell_dt d);
  tstop ← get "tstop" (dwell_tstop d);
  tstart ← get "tstart" (dwell_tstart d);
  Ok [(prefix +:+ "datestart", ADate (Some datestart));
      (prefix +:+ "datestop", ADate (Some datestop));
      (prefix +:+ "dt_start", AFloat dt_start);
      (prefix +:+ "dur", AFloat (tstop - tstart)%Q)].

Section Attrs.

(** [get_manvr_templates()]: each template is a name and a list whose first
    two entries are not part of the sequence. *)
Variable manvr_templates : list (string * list string).

Definition get_manvr_attrs (changes : list Change) : result (list (string * attr)) :=
  let m msid val idx filter := match_ changes msid val idx (Some filter) in
  let dwells := get_dwells changes in
  anomalous ← get_anomalous changes;
  let manvr_attrs :=
    [("prev_manvr_stop", match_date (m "aofattmd" "!MNVR" (Some (-1)%Z) before));
     ("prev_npnt_start", match_date (m "aopcadmd" "NPNT" (Some (-1)%Z) before));
     ("nman_start", match_date (m "aopcadmd" "NMAN" (Some (-1)%Z) before));
     ("manvr_start", match_date (m "aofattmd" "MNVR" (Some (-1)%Z) before));
     ("manvr_stop", match_date (m "aofattmd" "!MNVR" (Some 0%Z) after));
     ("npnt_start", match_date (m "aopcadmd" "NPNT" (Some 0%Z) after));
     ("acq_start", match_date (m "aoacaseq" "AQXN" (Some 0%Z) after));
     ("guide_start", match_date (m "aoacaseq" "GUID" (Some 0%Z) after));
     ("kalman_start", match_date (m "aoacaseq" "KALM" (Some 0%Z) after));
     ("aca_proc_act_start", match_date (m "aopsacpr" "ACT " (Some 0%Z) after));
     ("npnt_stop", match_date (m "aopcadmd" "!NPNT" (Some (-1)%Z) after));
     ("next_nman_start", match_date (m "aopcadmd" "NMAN" (Some (-1)%Z) after));
     ("next_manvr_start", match_date (m "aofattmd" "MNVR" (Some (-1)%Z) after));
     ("n_dwell", AInt (Z.of_nat (length dwells)));
     ("n_acq", match_len (m "aoacaseq" "AQXN" None after));
     ("n_guide", match_len (m "aoacaseq" "GUID" None after));
     ("n_kalman", match_len (m "aoacaseq" "KALM" None after));
     ("anomalous", ABool anomalous)] in
  let seqs :=
    map (fun c => msid c +:+ "_" +:+ val0 c +:+ "_" +:+ val c)
        (List.filter (fun c => bool_decide (msid c ∈ ["aopcadmd"; "aofattmd"; "aoacaseq"])
                               && Qle_bool ZERO_DT (dt c)) changes) in
  let template :=
    match List.find (fun '(name, template) => bool_decide (seqs = drop 2 template))
                    manvr_templates with
    | Some (name, _) => name
    | None => "unknown"
    end in
  let manvr_attrs := manvr_attrs ++ [("template", AStr template)] in
  dwell_items ← map_result (fun '(i, d) => dwell_attrs i d) (imap (fun i d => (i, d)) dwells);
  Ok (foldl (fun attrs '(k, v) => assoc_set k v attrs) manvr_attrs (concat dwell_items)).

End Attrs.

(** ** SIM positions *)

(** [get_si(simpos)] *)
Definition get_si (simpos : Q) : string :=
  if Qle_bool 82109 simpos && Qle_bool simpos 104839 then "ACIS-I"
  else if Qle_bool 70736 simpos && Qle_bool simpos 82108 then "ACIS-S"
  else if Qle_bool (-86147) simpos && Qle_bool simpos (-20000) then " HRC-I"
  else if Qle_bool (-104362) simpos && Qle_bool simpos (-86148) then " HRC-S"
  else "  NONE".

(** ** Events from telemetry *)

(** A row of [event_msid.state_intervals()]: the fields that are read. *)
Record Interval : Type := mkInterval {
  state_val : string;
  state_tstart : Q;
  state_tstop : Q
}.

(** A fetched MSID: its name, its samples and their times, and its state
    intervals. *)
Record Msid : Type := mkMsid {
  msid_name : string;
  msid_vals : list string;
  msid_times : list Q;
  msid_state_intervals : list Interval
}.

(** [TlmEvent.get_msids_states] from the fetched event MSID on: the states
    of the event that the interval from [tstart] to [tstop] holds in full. *)
Definition get_msids_states (event_val : string) (tstart tstop : Q) (event_msid : Msid)
    : result (list Interval) :=
  let states := msid_state_intervals event_msid in
  state0 ← list_get states 0;
  let states := if String.eqb (state_val state0) event_val then drop 1 states else states in
  state_last ← list_last states;
  let states :=
    if String.eqb (state_val state_last) event_val then removelast states else states in
  Ok (List.filter (fun s => String.eqb (state_val s) event_val
                            && Qle_bool tstart (state_tstart s)
                            && Qle_bool (state_tstop s) tstop) states).

Definition sortmsids : list (string * Z) :=
  [("aofattmd", 1); ("aopcadmd", 2); ("aoacaseq", 3); ("aopsacpr", 4)]%Z.

(** [np.flatnonzero(vals[1:] != vals[:-1])] *)
Definition i_changes (vals : list string) : list nat :=
  List.filter (fun i => match vals !! i, vals !! S i with
                        | Some a, Some b => negb (String.eqb a b)
                        | _, _ => false
                        end)
              (seq 0 (pred (length vals))).

(** The order of [changes.sort(order=['time0', 'sortmsid'])]: by [time0],
    then by [sortmsid], and, as numpy breaks the ties that are left, by the
    other fields in the order of the dtype. *)
Definition lex (c : comparison) (rest : comparison) : comparison :=
  match c with Eq => rest | _ => c end.

Definition change_compare (a b : Change) : comparison :=
  lex (time0 a ?= time0 b)%Q
  (lex (sortmsid a ?= sortmsid b)%Z
  (lex (String.compare (msid a) (msid b))
  (lex (String.compare (val0 a) (val0 b))
  (lex (String.compare (val a) (val b))
  (lex (String.compare (date0 a) (date0 b))
  (lex (String.compare (date a) (date b))
  (lex (dt a ?= dt b)%Q (time a ?= time b)%Q))))))).

Definition change_leb (a b : Change) : bool :=
  match change_compare a b with Gt => false | _ => true end.

Fixpoint insert_change (x : Change) (l : list Change) : list Change :=
  match l with
  | [] => [x]
  | y :: l' => if change_leb x y then x :: y :: l' else y :: insert_change x l'
  end.

Definition sort_changes (l : list Change) : list Change := foldr insert_change [] l.

(** The rows of [changes] sorted by [time0] and then [sortmsid]. *)
Definition change_key_le (a b : Change) : Prop :=
  (time0 a < time0 b)%Q \/ ((time0 a == time0 b)%Q /\ (sortmsid a <= sortmsid b)%Z).

(** An event of [Maneuver.get_events]. *)
Record ManvrEvent : Type := mkManvrEvent {
  ev_tstart : Q;
  ev_tstop : Q;
  ev_datestart : string;
  ev_datestop : string;
  ev_sequence : list Change;
  ev_manvr_attrs : list (string * attr)
}.

Section Telemetry.

(** [DateTime(secs).date], [np.searchsorted(a, v)] and
    [get_manvr_templates()] *)
Variable DateTime_date : Q -> string.
Variable searchsorted : list Q -> Q -> nat.
Variable manvr_templates : list (string * list string).

(** The rows that one MSID adds to [changes]. *)
Definition msid_changes (m : Msid) : result (list Change) :=
  map_result
    (fun i =>
       v0 ← list_get (msid_vals m) i;
       v1 ← list_get (msid_vals m) (i + 1);
       t0 ← list_get (msid_times m) i;
       t1 ← list_get (msid_times m) (i + 1);
       Ok (mkChange (msid_name m) (default 10%Z (assoc_get (msid_name m) sortmsids))
                    v0 v1 (DateTime_date t0) (DateTime_date t1) 0 t0 t1))
    (i_changes (msid_vals m)).

(** [np.rec.fromrecords] reads the shape of the first column, so that it
    raises [IndexError] on a list of no rows. *)
Definition get_msid_changes (msids : list Msid) : result (list Change) :=
  changes ← map_result msid_changes msids;
  let changes := concat changes in
  _ ← list_get changes 0;
  Ok (sort_changes changes).

(** [izip(states, states[1:], states[2:])] *)
Definition izip3 {A} (l : list A) : list (A * A * A) :=
  zip (zip l (drop 1 l)) (drop 2 l).

(** [Maneuver.get_events] from [states] and [changes] on. *)
Definition Maneuver_get_events (states : list Interval) (changes : list Change)
    : result (list ManvrEvent) :=
  map_result
    (fun '(manvr_prev, manvr, manvr_next) =>
       let tstart := state_tstart manvr in
       let tstop := state_tstop manvr in
       let i0 := searchsorted (map time changes) (state_tstop manvr_prev) in
       let i1 := searchsorted (map time changes) (state_tstart manvr_next) in
       let sequence := manvr_sequence changes i0 i1 (state_tstop manvr) in
       manvr_attrs ← get_manvr_attrs manvr_templates sequence;
       Ok (mkManvrEvent tstart tstop (DateTime_date tstart) (DateTime_date tstop)
                        sequence manvr_attrs))
    (izip3 states).

End Telemetry.

End Events.

(** * Sample inputs

    Stand-ins for the outside libraries, and command batches, tables and
    telemetry changes on which the definitions above are run. *)

Module Scenario.
Import States.

(** Seconds and dates on the first day of 2017, counted from its start. *)
Definition epoch_dates : list (Z * string) :=
  [(0, "2017:001:00:00:00.000"); (10000, "2017:001:02:46:40.000");
   (12000, "2017:001:03:20:00.000"); (13000, "2017:001:03:36:40.000");
   (20000, "2017:001:05:33:20.000"); (25000, "2017:001:06:56:40.000")]%Z.

Definition sample_secs (date : string) : Q :=
  match List.find (fun '(_, d) => String.eqb d date) epoch_dates with
  | Some (t, _) => inject_Z t
  | None => 0
  end.

Definition sample_date (secs : Q) : string :=
  match List.find (fun '(t, _) => Qeq_bool (inject_Z t) secs) epoch_dates with
  | Some (_, d) => d
  | None => "1998:001:00:00:00.000"
  end.

(** A maneuver profile of two samples, 1000 seconds apart. *)
Definition sample_attitudes (curr_att targ_att : list value) (tstart : Q) : result (list Att) :=
  Ok [mkAtt tstart 0 0 0 1 90; mkAtt (tstart + 1000) (1 # 2) (1 # 2) (1 # 2) (1 # 2) 100]%Q.

Definition sample_externals : Externals :=
  mkExternals sample_secs sample_date (fun _ => Ok (0, 0)%Q) (fun _ _ _ => 45%Q)
              sample_attitudes (fun _ _ => Ok [0; 0; 0; 1]%Q) (fun _ => ∅) (fun _ => None)
              remove_dups.

(** Two commands that no transition class matches. *)
Definition cmds_quiet : list Cmd :=
  [mkCmd "2017:001:00:00:00.000" "COMMAND_SW" "CTXBON" 0 [];
   mkCmd "2017:001:05:33:20.000" "COMMAND_SW" "CTXBON" 1 []].

(** Auto-NPNT enabled at the start of the day, and nothing else. *)
Definition cmds_auto : list Cmd :=
  [mkCmd "2017:001:00:00:00.000" "COMMAND_SW" "AONM2NPE" 0 [];
   mkCmd "2017:001:05:33:20.000" "COMMAND_SW" "CTXBON" 1 []].

(** Auto-NPNT enabled, a target quaternion, and a maneuver to it. *)
Definition cmds_manvr : list Cmd :=
  [mkCmd "2017:001:00:00:00.000" "COMMAND_SW" "AONM2NPE" 0 [];
   mkCmd "2017:001:02:46:40.000" "MP_TARGQUAT" "None" 1
         [("q1", VFloat 0); ("q2", VFloat 0); ("q3", VFloat 0); ("q4", VFloat 1)];
   mkCmd "2017:001:03:20:00.000" "COMMAND_SW" "AOMANUVR" 2 [];
   mkCmd "2017:001:06:56:40.000" "COMMAND_SW" "CTXBON" 3 []].

Definition manvr_cmd : Cmd := mkCmd "2017:001:03:20:00.000" "COMMAND_SW" "AOMANUVR" 2 [].

(** The live list as the interpreter stands on the maneuver command. *)
Definition transitions_at_manvr : list Transition :=
  [mkTransition "2017:001:03:20:00.000" [("maneuver", Func (ManeuverTransition_func manvr_cmd))];
   mkTransition "2017:001:05:33:20.000" [("update_pitch", Func update_pitch_func)]].

(** A live state over the maneuver keys with the quaternions as given. *)
Definition manvr_state (q1 q2 q3 q4 auto_npnt : value) : gmap string value :=
  list_to_map
    [("q1", q1); ("q2", q2); ("q3", q3); ("q4", q4);
     ("targ_q1", VFloat 0); ("targ_q2", VFloat 0); ("targ_q3", VFloat 0); ("targ_q4", VFloat 1);
     ("auto_npnt", auto_npnt); ("pcad_mode", VStr "NMAN"); ("pitch", VNone)].

(** The live list once the two samples of the maneuver are inserted. *)
Definition transitions_after_manvr : list Transition :=
  [mkTransition "2017:001:03:20:00.000" [("maneuver", Func (ManeuverTransition_func manvr_cmd))];
   sample_transition sample_externals (mkAtt 12000 0 0 0 1 90) (190 # 2);
   sample_transition sample_externals (mkAtt (12000 + 1000) (1 # 2) (1 # 2) (1 # 2) (1 # 2) 100) 100;
   mkTransition "2017:001:05:33:20.000" [("update_pitch", Func update_pitch_func)]].

(** The table of [get_states_for_cmds] for [cmds_auto] and [auto_npnt]. *)
Definition table_auto : Table :=
  mkTable
    ["datestart"; "datestop"; "q1"; "q2"; "q3"; "q4"; "targ_q1"; "targ_q2"; "targ_q3";
     "targ_q4"; "auto_npnt"; "pcad_mode"; "pitch"]
    [[VStr "2017:001:00:00:00.000"; VStr "2017:001:02:46:40.000";
      VNone; VNone; VNone; VNone; VNone; VNone; VNone; VNone; VStr "ENAB"; VNone; VNone];
     [VStr "2017:001:02:46:40.000"; VStr "2099:365:00:00:00.000";
      VNone; VNone; VNone; VNone; VNone; VNone; VNone; VNone; VStr "ENAB"; VNone; VNone]].

(** A state table of three rows in which [pcad_mode] changes at every row. *)
Definition table_modes : Table :=
  mkTable ["datestart"; "datestop"; "pcad_mode"]
    [[VStr "2017:001:00:00:00.000"; VStr "2017:001:02:46:40.000"; VStr "NPNT"];
     [VStr "2017:001:02:46:40.000"; VStr "2017:001:05:33:20.000"; VStr "NMAN"];
     [VStr "2017:001:05:33:20.000"; VStr "2099:365:00:00:00.000"; VStr "NPNT"]].

(** One row: the whole table is its first row. *)
Definition table_single : Table :=
  mkTable ["datestart"; "datestop"; "pcad_mode"]
    [[VStr "2017:001:00:00:00.000"; VStr "2099:365:00:00:00.000"; VStr "NPNT"]].

(** Telemetry changes around a maneuver that ends at 13000 seconds: the end
    of the maneuver, the Kalman acquisition, and a momentum unload. *)
Definition change_stdy : Events.Change :=
  Events.mkChange "aofattmd" 1 "MNVR" "STDY" "2017:001:03:36:39.500" "2017:001:03:36:40.500"
                  0 (25999 # 2) (26001 # 2).
Definition change_kalm : Events.Change :=
  Events.mkChange "aoacaseq" 3 "GUID" "KALM" "2017:001:03:38:19.500" "2017:001:03:38:20.500"
                  0 (26199 # 2) (26201 # 2).
Definition change_unload : Events.Change :=
  Events.mkChange "aounload" 10 "MON " "GRND" "2017:001:03:39:59.500" "2017:001:03:40:00.500"
                  0 (26399 # 2) (26401 # 2).
Definition change_nman : Events.Change :=
  Events.mkChange "aopcadmd" 2 "NPNT" "NMAN" "2017:001:05:33:19.500" "2017:001:05:33:20.500"
                  0 (39999 # 2) (40001 # 2).

(** The transition list as the run over [cmds_manvr] leaves it: the two
    samples of the maneuver and the return to [NPNT] are in it. *)
Definition transitions_manvr_run : list Transition :=
  [mkTransition "2017:001:00:00:00.000" [("auto_npnt", Scalar (VStr "ENAB"))];
   mkTransition "2017:001:00:00:00.000" [("update_pitch", Func update_pitch_func)];
   mkTransition "2017:001:02:46:40.000"
     [("targ_q1", Scalar (VFloat 0)); ("targ_q2", Scalar (VFloat 0));
      ("targ_q3", Scalar (VFloat 0)); ("targ_q4", Scalar (VFloat 1))];
   mkTransition "2017:001:02:46:40.000" [("update_pitch", Func update_pitch_func)];
   mkTransition "2017:001:03:20:00.000" [("maneuver", Func (ManeuverTransition_func manvr_cmd))];
   mkTransition "2017:001:03:20:00.000"
     [("q1", Scalar (VFloat 0)); ("q2", Scalar (VFloat 0)); ("q3", Scalar (VFloat 0));
      ("q4", Scalar (VFloat 1)); ("pitch", Scalar (VFloat (190 # 2)))];
   mkTransition "2017:001:03:36:40.000"
     [("q1", Scalar (VFloat (1 # 2))); ("q2", Scalar (VFloat (1 # 2)));
      ("q3", Scalar (VFloat (1 # 2))); ("q4", Scalar (VFloat (1 # 2)));
      ("pitch", Scalar (VFloat 100))];
   mkTransition "2017:001:03:36:40.000" [("pcad_mode", Scalar (VStr "NPNT"))];
   mkTransition "2017:001:05:33:20.000" [("update_pitch", Func update_pitch_func)]].

(** The transitions of the commands of [cmds_manvr]. *)
Definition transitions_cmds_manvr : list Transition :=
  [mkTransition "2017:001:00:00:00.000" [("auto_npnt", Scalar (VStr "ENAB"))];
   mkTransition "2017:001:02:46:40.000"
     [("targ_q1", Scalar (VFloat 0)); ("targ_q2", Scalar (VFloat 0));
      ("targ_q3", Scalar (VFloat 0)); ("targ_q4", Scalar (VFloat 1))];
   mkTransition "2017:001:03:20:00.000" [("maneuver", Func (ManeuverTransition_func manvr_cmd))]].

(** The live state after a normal-sun transition from an unknown attitude. *)
Definition nsun_state : gmap string value :=
  <["pcad_mode" := VStr "NSUN"]>
    (manvr_state (VFloat 0) (VFloat 0) (VFloat 0) (VFloat 1) (VStr "ENAB")).

(** Telemetry of two MSIDs that change between the same two samples. *)
Definition sample_msids : list Events.Msid :=
  [Events.mkMsid "aopcadmd" ["NMAN"; "NPNT"; "NPNT"] [10000; 12000; 13000]%Q [];
   Events.mkMsid "aofattmd" ["MNVR"; "STDY"] [10000; 12000]%Q []].

Definition sample_changes : list Events.Change :=
  [Events.mkChange "aofattmd" 1 "MNVR" "STDY" "2017:001:02:46:40.000" "2017:001:03:20:00.000"
                   0 10000 12000;
   Events.mkChange "aopcadmd" 2 "NMAN" "NPNT" "2017:001:02:46:40.000" "2017:001:03:20:00.000"
                   0 10000 12000].

(** [np.searchsorted] on a sorted array: the number of elements below [v]. *)
Definition searchsorted_left (a : list Q) (v : Q) : nat :=
  length (List.filter (fun x => Events.Qltb x v) a).

(** Three maneuver states, and the changes around the second one. *)
Definition sample_states : list Events.Interval :=
  [Events.mkInterval "MNVR" 0 10000; Events.mkInterval "MNVR" 12000 13000;
   Events.mkInterval "MNVR" 20000 25000].

Definition sample_events : list Events.ManvrEvent :=
  Eval vm_compute in
    match Events.Maneuver_get_events sample_date searchsorted_left [] sample_states
            [change_stdy; change_kalm; change_nman] with
    | Ok events => events
    | Raise _ => []
    end.

End Scenario.

(** * Properties of the commanded-state interpreter *)

Module StatesSpec.
Import States.

(** The four orderings of two date strings are those of [String.compare]. *)
Lemma string_compare_refl (s : string) : String.compare s s = Eq.
Proof.
  pose proof (String.compare_antisym s s) as H.
  destruct (String.compare s s); simpl in H; congruence.
Qed.

Lemma string_ltb_irrefl (s : string) : String.ltb s s = false.
Proof. unfold String.ltb. by rewrite string_compare_refl. Qed.

Lemma string_ltb_leb_false (a b : string) :
  String.ltb a b = true -> String.leb b a = false.
Proof.
  unfold String.ltb, String.leb. rewrite (String.compare_antisym a b).
  destruct (String.compare b a); simpl; congruence.
Qed.

Lemma string_ltb_false_leb (a b : string) :
  String.ltb a b = false -> String.leb b a = true.
Proof.
  unfold String.ltb, String.leb. rewrite (String.compare_antisym a b).
  destruct (String.compare b a); simpl; congruence.
Qed.

Lemma insert_after_spec (t : Transition) (rest : list Transition) :
  exists j, (j <= length rest)%nat /\
    insert_after t rest = take j rest ++ t :: drop j rest /\
    (forall k x, (k < j)%nat -> rest !! k = Some x ->
       String.ltb (t_date t) (t_date x) = false) /\
    (forall x, rest !! j = Some x -> String.ltb (t_date t) (t_date x) = true).
Proof.
  induction rest as [|x rest IH]; simpl.
  - exists 0%nat. split; [lia|]. split; [done|]. split.
    + intros k y Hk. lia.
    + intros y Hy. discriminate.
  - destruct (String.ltb (t_date t) (t_date x)) eqn:E.
    + exists 0%nat. split; [lia|]. split; [done|]. split.
      * intros k y Hk. lia.
      * intros y [= <-]. exact E.
    + destruct IH as (j & Hj & Heq & Hbefore & Hat).
      exists (S j). split; [lia|]. split; [|split].
      * simpl. by rewrite Heq.
      * intros [|k] y Hk Hy; simpl in Hy.
        -- by injection Hy as <-.
        -- apply (Hbefore k); [lia | done].
      * exact Hat.
Qed.

(** Where [add_transition] puts a transition that is not before the cursor:
    at the first position after the cursor whose date is strictly later, or
    at the end. *)
Lemma add_transition_position (transitions : list Transition) (idx : nat)
    (t_new cur : Transition) :
  transitions !! idx = Some cur ->
  String.ltb (t_date t_new) (t_date cur) = false ->
  exists j, (idx < j <= length transitions)%nat /\
    add_transition transitions idx t_new =
      Ok (take j transitions ++ t_new :: drop j transitions) /\
    (forall k x, (idx < k < j)%nat -> transitions !! k = Some x ->
       String.ltb (t_date t_new) (t_date x) = false) /\
    (forall x, transitions !! j = Some x ->
       String.ltb (t_date t_new) (t_date x) = true).
Proof.
  intros Hcur E.
  assert (Hlen : (idx < length transitions)%nat) by (by eapply lookup_lt_Some).
  unfold add_transition, list_get. rewrite Hcur. simpl. rewrite E.
  destruct (insert_after_spec t_new (drop (S idx) transitions))
    as (j & Hj & Heq & Hbefore & Hat).
  rewrite length_drop in Hj.
  exists (S idx + j)%nat. split; [lia|]. split; [|split].
  - rewrite Heq. f_equal.
    rewrite take_drop_commute, drop_drop, app_assoc.
    f_equal.
    rewrite <- (take_drop (S idx) (take (S idx + j) transitions)) at 2.
    f_equal. rewrite take_take. f_equal. lia.
  - intros k x [Hk1 Hk2] Hx.
    apply (Hbefore (k - S idx)%nat); [lia|].
    rewrite lookup_drop. rewrite <- Hx. f_equal. lia.
  - intros x Hx. apply Hat. by rewrite lookup_drop.
Qed.

(** C1: [add_transition] fails, with the [ValueError] of the ordering
    violation, if and only if the new date is strictly before the date at the
    cursor [idx]; otherwise the new transition is inserted at the first
    position [j > idx] whose date is strictly later, or appended when there is
    none ([j = len(transitions)]).  On a list in date order, every existing
    transition of the same date then stands before the inserted one. *)
Theorem add_transition_contract (transitions : list Transition) (idx : nat)
    (t_new cur : Transition) :
  transitions !! idx = Some cur ->
  (is_Raise (add_transition transitions idx t_new) <->
     String.ltb (t_date t_new) (t_date cur) = true) /\
  (String.ltb (t_date t_new) (t_date cur) = true ->
     add_transition transitions idx t_new =
       Raise (ValueError "cannot insert transition prior to current command")) /\
  (String.ltb (t_date t_new) (t_date cur) = false ->
     exists j, (idx < j <= length transitions)%nat /\
       add_transition transitions idx t_new =
         Ok (take j transitions ++ t_new :: drop j transitions) /\
       (forall k x, (idx < k < j)%nat -> transitions !! k = Some x ->
          String.ltb (t_date t_new) (t_date x) = false) /\
       (forall x, transitions !! j = Some x ->
          String.ltb (t_date t_new) (t_date x) = true) /\
       (date_sorted transitions ->
        forall k x, transitions !! k = Some x -> t_date x = t_date t_new -> (k < j)%nat)).
Proof.
  intros Hcur.
  destruct (String.ltb (t_date t_new) (t_date cur)) eqn:E.
  - assert (Hraise : add_transition transitions idx t_new =
              Raise (ValueError "cannot insert transition prior to current command")).
    { unfold add_transition, list_get. rewrite Hcur. simpl. by rewrite E. }
    split; [|split]; [|done|discriminate].
    split; [done|]. intros _. rewrite Hraise. by eexists.
  - destruct (add_transition_position _ _ _ _ Hcur E) as (j & Hj & Heq & Hbefore & Hat).
    split; [|split]; [|discriminate|].
    + rewrite Heq. split; [intros [e He]; discriminate | discriminate].
    + intros _. exists j. repeat (split; [done|]).
      intros Hsorted k x Hx Hdate.
      destruct (decide (k < j)%nat) as [|Hge]; [done|exfalso].
      assert (Hjlt : (j < length transitions)%nat).
      { apply lookup_lt_Some in Hx. lia. }
      destruct (lookup_lt_is_Some_2 transitions j Hjlt) as [y Hy].
      pose proof (Hat y Hy) as Hlt.
      destruct (decide (k = j)) as [->|Hne].
      * rewrite Hx in Hy. injection Hy as <-.
        rewrite Hdate, string_ltb_irrefl in Hlt. discriminate.
      * assert (Hle : date_le y x) by (apply (Hsorted j k); [lia|done..]).
        unfold date_le in Hle. rewrite Hdate in Hle.
        apply string_ltb_leb_false in Hlt. congruence.
Qed.

(** ** What [add_transition] does to the live list *)

Lemma bind_Ok {A B} (m : result A) (f : A -> result B) (b : B) :
  m ≫= f = Ok b -> exists a, m = Ok a /\ f a = Ok b.
Proof. destruct m as [a|e]; simpl; [eauto | discriminate]. Qed.

(** Evaluate the appends of string literals in a hypothesis. *)
Ltac eval_appends H :=
  repeat match type of H with
         | context [String.append ?a ?b] =>
             let s := eval vm_compute in (String.append a b) in
             change (String.append a b) with s in H
         end.

Ltac eval_appends_goal :=
  repeat match goal with
         | |- context [String.append ?a ?b] =>
             let s := eval vm_compute in (String.append a b) in
             change (String.append a b) with s
         end.

Ltac bind_inv H :=
  let a := fresh "a" in
  let Ha := fresh "H" a in
  apply bind_Ok in H; destruct H as (a & Ha & H).

Lemma add_transition_Ok (tr : list Transition) (idx : nat) (t : Transition)
    (tr' : list Transition) :
  add_transition tr idx t = Ok tr' ->
  exists cur, tr !! idx = Some cur /\
    String.ltb (t_date t) (t_date cur) = false /\
    tr' = take (S idx) tr ++ insert_after t (drop (S idx) tr).
Proof.
  unfold add_transition, list_get. intros H.
  destruct (tr !! idx) as [cur|] eqn:Hcur; simpl in H; [|discriminate].
  destruct (String.ltb (t_date t) (t_date cur)) eqn:E; [discriminate|].
  exists cur. by injection H as <-.
Qed.

Lemma add_transition_prefix (tr : list Transition) (idx : nat) (t : Transition)
    (tr' : list Transition) (i : nat) :
  add_transition tr idx t = Ok tr' -> (i <= idx)%nat -> tr' !! i = tr !! i.
Proof.
  intros H Hi. apply add_transition_Ok in H as (cur & Hcur & _ & ->).
  apply lookup_lt_Some in Hcur.
  rewrite lookup_app_l by (rewrite length_take; lia).
  apply lookup_take_lt. lia.
Qed.

Lemma elem_of_insert_after (t x : Transition) (rest : list Transition) :
  x ∈ insert_after t rest <-> x = t \/ x ∈ rest.
Proof.
  induction rest as [|y rest IH]; simpl.
  - rewrite list_elem_of_singleton, elem_of_nil. tauto.
  - destruct (String.ltb (t_date t) (t_date y)).
    + rewrite !elem_of_cons. tauto.
    + rewrite !elem_of_cons, IH. tauto.
Qed.

Lemma elem_of_add_transition (tr : list Transition) (idx : nat) (t : Transition)
    (tr' : list Transition) (x : Transition) :
  add_transition tr idx t = Ok tr' -> x ∈ tr' <-> x = t \/ x ∈ tr.
Proof.
  intros H. apply add_transition_Ok in H as (cur & Hcur & _ & ->).
  rewrite elem_of_app, elem_of_insert_after.
  rewrite <- (take_drop (S idx) tr) at 3. rewrite elem_of_app. tauto.
Qed.

Section InterpreterFacts.

Variable E : Externals.

Lemma add_manvr_sample_eq (idx : nat) (date : string) (tr : list Transition)
    (att : Att) (pitch : Q) :
  add_manvr_sample E idx (date, tr) (att, pitch) =
    tr' ← add_transition tr idx (sample_transition E att pitch);
    Ok (DateTime_date E (att_time att), tr').
Proof. reflexivity. Qed.

(** After at least one sample is inserted, the returned date is not before
    the date at the cursor, and the transition at the cursor is still there. *)
Lemma add_manvr_samples_cursor (idx : nat) (samples : list (Att * Q))
    (date0 : string) (tr0 : list Transition) (date : string) (tr : list Transition) :
  fold_result (add_manvr_sample E idx) samples (date0, tr0) = Ok (date, tr) ->
  samples <> [] ->
  exists cur, tr0 !! idx = Some cur /\ tr !! idx = Some cur /\
    String.ltb date (t_date cur) = false.
Proof.
  revert date0 tr0. induction samples as [|[att pitch] samples IH]; [done|].
  intros date0 tr0 H _. cbn [fold_result] in H. bind_inv H. destruct a as [date1 tr1].
  rewrite add_manvr_sample_eq in Ha. bind_inv Ha. injection Ha as <- <-.
  pose proof (add_transition_prefix _ _ _ _ idx Ha0 (le_n _)) as Hpre.
  destruct (add_transition_Ok _ _ _ _ Ha0) as (cur & Hcur & Hlt & Heq).
  destruct samples as [|s samples].
  - simpl in H. injection H as <- <-. exists cur. by rewrite Hpre.
  - destruct (IH _ _ H ltac:(done)) as (cur' & Hcur' & Htr & Hlt').
    exists cur. rewrite Hpre, Hcur in Hcur'. injection Hcur' as <-. done.
Qed.

Lemma add_manvr_transitions_cursor (date : string) (tr : list Transition) (st : State)
    (idx : nat) (cmd : Cmd) (end_date : string) (tr' : list Transition) (st' : State) :
  add_manvr_transitions E date tr st idx cmd = Ok (end_date, tr', st') ->
  exists cur, tr !! idx = Some cur /\ tr' !! idx = Some cur /\
    String.ltb end_date (t_date cur) = false.
Proof.
  unfold add_manvr_transitions. intros H.
  bind_inv H. bind_inv H. bind_inv H. bind_inv H. bind_inv H. bind_inv H.
  destruct a4 as [d tr1]. injection H as <- <- <-.
  eapply add_manvr_samples_cursor; [exact Ha4|].
  unfold list_last in Ha3. destruct a2 as [|att atts]; [discriminate|].
  destruct atts; simpl; discriminate.
Qed.

(** C7: once the attitude samples of the maneuver are inserted, leaving the
    list [transitions'], the state [state'] and the end-of-maneuver date
    [end_manvr_date], the maneuver action inserts the transition
    [{'date': end_manvr_date, 'pcad_mode': 'NPNT'}] if [state'['auto_npnt']]
    is ['ENAB'], after the cursor and after every transition that follows the
    cursor with a date up to [end_manvr_date], the attitude samples among
    them; it returns [transitions'] as it is for every other value, ['DISA']
    among them. *)
Theorem auto_npnt_coda (date : string) (transitions : list Transition) (state : State)
    (idx : nat) (cmd : Cmd) (end_manvr_date : string) (transitions' : list Transition)
    (state' : State) (auto_npnt : value) :
  add_manvr_transitions E date transitions state idx cmd =
    Ok (end_manvr_date, transitions', state') ->
  state' !! "auto_npnt" = Some auto_npnt ->
  let npnt := mkTransition end_manvr_date [("pcad_mode", Scalar (VStr "NPNT"))] in
  (auto_npnt = VStr "ENAB" ->
     exists j, (idx < j <= length transitions')%nat /\
       ManeuverTransition_add_transitions E date transitions state idx cmd =
         Ok (take j transitions' ++ npnt :: drop j transitions', state') /\
       (forall k x, (idx < k < j)%nat -> transitions' !! k = Some x ->
          String.ltb end_manvr_date (t_date x) = false) /\
       (forall x, transitions' !! j = Some x ->
          String.ltb end_manvr_date (t_date x) = true)) /\
  (auto_npnt <> VStr "ENAB" ->
     ManeuverTransition_add_transitions E date transitions state idx cmd =
       Ok (transitions', state')) /\
  (auto_npnt = VStr "DISA" ->
     ManeuverTransition_add_transitions E date transitions state idx cmd =
       Ok (transitions', state')).
Proof.
  intros Hmanvr Hauto npnt.
  assert (Hne : auto_npnt <> VStr "ENAB" ->
     ManeuverTransition_add_transitions E date transitions state idx cmd =
       Ok (transitions', state')).
  { intros Hne. unfold ManeuverTransition_add_transitions.
    rewrite Hmanvr. simpl. unfold dict_get. rewrite Hauto. simpl.
    destruct auto_npnt as [|s| |]; simpl; try done.
    destruct (String.eqb_spec s "ENAB") as [->|]; [done|done]. }
  split; [|split]; [|exact Hne|intros ->; by apply Hne].
  intros ->.
  destruct (add_manvr_transitions_cursor _ _ _ _ _ _ _ _ Hmanvr) as (cur & _ & Hcur & Hlt).
  destruct (add_transition_position transitions' idx npnt cur Hcur Hlt)
    as (j & Hj & Heq & Hbefore & Hat).
  exists j. split; [done|]. split; [|split; [exact Hbefore|exact Hat]].
  unfold ManeuverTransition_add_transitions.
  rewrite Hmanvr. simpl. unfold dict_get. rewrite Hauto. simpl.
  fold npnt. by rewrite Heq.
Qed.


Lemma map_result_dict_get {A} (st : State) (f : A -> string) (keys : list A)
    (vals : list value) :
  map_result (fun k => dict_get st (f k)) keys = Ok vals ->
  map (fun k => st !! f k) keys = map Some vals.
Proof.
  revert vals. induction keys as [|k keys IH]; intros vals H; simpl in H.
  - by injection H as <-.
  - bind_inv H. bind_inv H. injection H as <-.
    unfold dict_get in Ha. destruct (st !! f k) eqn:Hk; [|discriminate].
    injection Ha as <-. simpl. rewrite Hk. f_equal. by apply IH.
Qed.

Lemma seed_attitude_spec (state state' : State) :
  seed_attitude state = Ok state' ->
  exists q1, state !! "q1" = Some q1 /\
    (q1 = VNone ->
       exists t1 t2 t3 t4,
         state !! "targ_q1" = Some t1 /\ state !! "targ_q2" = Some t2 /\
         state !! "targ_q3" = Some t3 /\ state !! "targ_q4" = Some t4 /\
         state' = <["q4" := t4]> (<["q3" := t3]> (<["q2" := t2]> (<["q1" := t1]> state)))) /\
    (q1 <> VNone -> state' = state).
Proof.
  unfold seed_attitude, dict_get. intros H.
  destruct (state !! "q1") as [q1|] eqn:Hq1; simpl in H; [|discriminate].
  exists q1. split; [done|].
  destruct q1; simpl in H; try (split; [done | intros _; congruence]).
  split; [|done]. intros _.
  unfold dict_get in H. eval_appends H.
  rewrite ?lookup_insert_ne in H by done.
  destruct (state !! "targ_q1") as [t1|]; simpl in H; [|discriminate].
  rewrite ?lookup_insert_ne in H by done.
  destruct (state !! "targ_q2") as [t2|]; simpl in H; [|discriminate].
  rewrite ?lookup_insert_ne in H by done.
  destruct (state !! "targ_q3") as [t3|]; simpl in H; [|discriminate].
  rewrite ?lookup_insert_ne in H by done.
  destruct (state !! "targ_q4") as [t4|]; simpl in H; [|discriminate].
  exists t1, t2, t3, t4. repeat (split; [done|]). congruence.
Qed.

(** C8, amended: the maneuver reads [targ_q1 .. targ_q4] from the live state;
    if [q1] is unknown it sets [q1 .. q4] to them, and if [q1] is known it
    leaves the state as it is, whatever the other components are.  The
    attitudes are then computed from the current attitude of the resulting
    state and from the target that was read. *)
Theorem seed_from_targets_when_q1_unknown (date : string) (transitions : list Transition)
    (state : State) (idx : nat) (cmd : Cmd) (end_manvr_date : string)
    (transitions' : list Transition) (state' : State) :
  add_manvr_transitions E date transitions state idx cmd =
    Ok (end_manvr_date, transitions', state') ->
  exists q1 targ_att curr_att atts,
    state !! "q1" = Some q1 /\
    map (fun qc => state !! ("targ_" +:+ qc)) QCS = map Some targ_att /\
    (q1 = VNone ->
       map (fun qc => state' !! qc) QCS = map Some targ_att /\
       forall key, key ∉ QCS -> state' !! key = state !! key) /\
    (q1 <> VNone -> state' = state) /\
    map (fun qc => state' !! qc) QCS = map Some curr_att /\
    Maneuver_attitudes E curr_att targ_att (DateTime_secs E (cmd_date cmd)) = Ok atts.
Proof.
  unfold add_manvr_transitions. intros H.
  bind_inv H. bind_inv H. bind_inv H. bind_inv H. bind_inv H. bind_inv H.
  destruct a4 as [d tr1]. injection H as <- <- <-.
  destruct (seed_attitude_spec _ _ Ha0) as (q1 & Hq1 & Hnone & Hsome).
  exists q1, a, a1, a2. split; [done|].
  pose proof (map_result_dict_get _ _ _ _ Ha) as Htarg.
  pose proof (map_result_dict_get a0 (fun k => k) _ _ Ha1) as Hcurr.
  split; [done|]. split; [|split; [done|split; done]].
  intros ->. destruct (Hnone eq_refl) as (t1 & t2 & t3 & t4 & H1 & H2 & H3 & H4 & ->).
  split.
  - rewrite <- Htarg. unfold QCS. cbn [map].
    eval_appends_goal.
    rewrite H1, H2, H3, H4.
    by rewrite lookup_insert_eq, !(lookup_insert_ne _ "q4"), lookup_insert_eq,
      !(lookup_insert_ne _ "q3"), lookup_insert_eq, !(lookup_insert_ne _ "q2"),
      lookup_insert_eq.
  - intros key Hkey. unfold QCS in Hkey.
    rewrite !lookup_insert_ne; [done|..]; intros <-; apply Hkey;
      rewrite !elem_of_cons; tauto.
Qed.

End InterpreterFacts.

(** ** The live list under the functions that transitions call *)

Lemma grows_refl (idx : nat) (tr : list Transition) :
  (idx < length tr)%nat -> grows idx tr tr.
Proof. intros H. repeat split; auto. Qed.

Lemma grows_trans (idx : nat) (tr1 tr2 tr3 : list Transition) :
  grows idx tr1 tr2 -> grows idx tr2 tr3 -> grows idx tr1 tr3.
Proof.
  intros (H1 & H2 & H3 & H4 & H5) (G1 & G2 & G3 & G4 & G5).
  repeat split; [done|congruence|auto|congruence|lia].
Qed.

Lemma nfunc_insert_after (t : Transition) (rest : list Transition) :
  has_func t = false -> nfunc (insert_after t rest) = nfunc rest.
Proof.
  intros Ht. unfold nfunc. induction rest as [|x rest IH]; simpl.
  - by rewrite Ht.
  - destruct (String.ltb (t_date t) (t_date x)); simpl.
    + by rewrite Ht.
    + destruct (has_func x); simpl; by rewrite IH.
Qed.

Lemma length_insert_after (t : Transition) (rest : list Transition) :
  length (insert_after t rest) = S (length rest).
Proof.
  induction rest as [|x rest IH]; simpl; [done|].
  destruct (String.ltb (t_date t) (t_date x)); simpl; by rewrite ?IH.
Qed.

Lemma add_transition_grows (tr : list Transition) (idx : nat) (t : Transition)
    (tr' : list Transition) :
  add_transition tr idx t = Ok tr' -> has_func t = false -> grows idx tr tr'.
Proof.
  intros H Ht. pose proof (fun x => elem_of_add_transition _ _ _ _ x H) as Hin.
  apply add_transition_Ok in H as (cur & Hcur & _ & ->).
  apply lookup_lt_Some in Hcur.
  assert (Hlen : length (take (S idx) tr) = S idx) by (rewrite length_take; lia).
  repeat split.
  - done.
  - rewrite take_app_le by lia. rewrite take_take. f_equal. lia.
  - intros x Hx. apply Hin. by right.
  - rewrite drop_app_length' by done. by apply nfunc_insert_after.
  - rewrite length_app, length_insert_after, Hlen, length_drop. lia.
Qed.

Section LoopFacts.

Variable E : Externals.

Lemma add_manvr_samples_grows (idx : nat) (samples : list (Att * Q))
    (date0 : string) (tr0 : list Transition) (date : string) (tr : list Transition) :
  fold_result (add_manvr_sample E idx) samples (date0, tr0) = Ok (date, tr) ->
  (idx < length tr0)%nat -> grows idx tr0 tr.
Proof.
  revert date0 tr0. induction samples as [|[att pitch] samples IH]; intros date0 tr0 H Hlt.
  - injection H as <- <-. by apply grows_refl.
  - cbn [fold_result] in H. bind_inv H. destruct a as [date1 tr1].
    rewrite add_manvr_sample_eq in Ha. bind_inv Ha. injection Ha as <- <-.
    apply add_transition_grows in Ha0; [|done].
    eapply grows_trans; [exact Ha0|]. eapply IH; [exact H|].
    destruct Ha0 as (? & _ & _ & _ & ?). lia.
Qed.

Lemma add_manvr_transitions_grows (date : string) (tr : list Transition) (st : State)
    (idx : nat) (cmd : Cmd) (end_date : string) (tr' : list Transition) (st' : State) :
  add_manvr_transitions E date tr st idx cmd = Ok (end_date, tr', st') ->
  (idx < length tr)%nat -> grows idx tr tr'.
Proof.
  unfold add_manvr_transitions. intros H Hlt.
  bind_inv H. bind_inv H. bind_inv H. bind_inv H. bind_inv H. bind_inv H.
  destruct a4 as [d tr1]. injection H as <- <- <-.
  by eapply add_manvr_samples_grows.
Qed.

Lemma call_func_grows (f : func) (date : string) (tr : list Transition) (st : State)
    (idx : nat) (tr' : list Transition) (st' : State) :
  call_func E f date tr st idx = Ok (tr', st') ->
  (idx < length tr)%nat -> grows idx tr tr'.
Proof.
  intros H Hlt. destruct f as [|cmd|cmd]; simpl in H.
  - unfold update_pitch_state in H. bind_inv H.
    destruct (py_eqb a (VStr "NPNT")).
    + bind_inv H. bind_inv H. destruct a1. injection H as <- <-. by apply grows_refl.
    + injection H as <- <-. by apply grows_refl.
  - unfold ManeuverTransition_add_transitions in H. bind_inv H.
    destruct a as [[d tr1] st1]. bind_inv H.
    apply add_manvr_transitions_grows in Ha; [|done].
    destruct (py_eqb a (VStr "ENAB")).
    + bind_inv H. injection H as <- <-.
      eapply grows_trans; [exact Ha|]. by apply add_transition_grows in Ha1.
    + by injection H as <- <-.
  - unfold NormalSunTransition_add_transitions in H. bind_inv H. bind_inv H. bind_inv H.
    destruct a1 as [[d tr1] st1]. injection H as <- <-.
    by apply add_manvr_transitions_grows in Ha1.
Qed.

Lemma interp_items_grows (date : string) (idx : nat) (items : list (string * tvalue))
    (ls ls' : LoopState) :
  fold_result (interp_item E date idx) items ls = Ok ls' ->
  (idx < length (ls_transitions ls))%nat ->
  grows idx (ls_transitions ls) (ls_transitions ls') /\
  ls_states ls' = ls_states ls /\ ls_datestarts ls' = ls_datestarts ls /\
  (existsb (fun '(_, v) => match v with Func _ => true | Scalar _ => false end) items = false ->
   ls_transitions ls' = ls_transitions ls).
Proof.
  revert ls. induction items as [|[key v] items IH]; intros ls H Hlt.
  - injection H as <-. split; [by apply grows_refl|done].
  - cbn [fold_result] in H. bind_inv H. destruct v as [v|f]; simpl in Ha.
    + injection Ha as <-. destruct (IH _ H Hlt) as (Hg & Hs & Hd & Hf).
      simpl in *. done.
    + bind_inv Ha. destruct a0 as [tr1 st1]. injection Ha as <-.
      apply call_func_grows in Ha0; [|done].
      assert (Hlt1 : (idx < length tr1)%nat) by (destruct Ha0 as (_ & _ & _ & _ & ?); lia).
      destruct (IH _ H Hlt1) as (Hg & Hs & Hd & Hf). simpl in *.
      split; [by eapply grows_trans|]. done.
Qed.

Lemma start_row_spec (date : string) (ls ls' : LoopState) :
  start_row date ls = Ok ls' ->
  ls_transitions ls' = ls_transitions ls /\
  date ∈ ls_datestarts ls' /\
  (forall d, d ∈ ls_datestarts ls' <-> d ∈ ls_datestarts ls \/ d = date) /\
  (length (ls_datestarts ls) = S (length (ls_states ls)) ->
   length (ls_datestarts ls') = S (length (ls_states ls'))).
Proof.
  unfold start_row, list_last. intros H.
  destruct (last (ls_datestarts ls)) as [d0|] eqn:Hlast; simpl in H; [|discriminate].
  apply last_Some in Hlast as [l' Hl'].
  destruct (String.eqb_spec date d0) as [->|Hne]; simpl in H; injection H as <-; simpl.
  - rewrite Hl'. split; [done|]. split; [set_solver|]. split; [|done].
    intros d. rewrite elem_of_app, list_elem_of_singleton. tauto.
  - split; [done|]. split; [set_solver|]. split.
    + intros d. rewrite elem_of_app, list_elem_of_singleton. tauto.
    + rewrite !length_app. simpl. lia.
Qed.

Lemma interp_transition_spec (idx : nat) (t : Transition) (ls ls' : LoopState) :
  interp_transition E idx t ls = Ok ls' ->
  (idx < length (ls_transitions ls))%nat ->
  grows idx (ls_transitions ls) (ls_transitions ls') /\
  (has_func t = false -> ls_transitions ls' = ls_transitions ls) /\
  t_date t ∈ ls_datestarts ls' /\
  (forall d, d ∈ ls_datestarts ls' <-> d ∈ ls_datestarts ls \/ d = t_date t) /\
  (length (ls_datestarts ls) = S (length (ls_states ls)) ->
   length (ls_datestarts ls') = S (length (ls_states ls'))).
Proof.
  unfold interp_transition. intros H Hlt. bind_inv H.
  destruct (start_row_spec _ _ _ Ha) as (Htr & Hin & Hds & Hlen).
  rewrite <- Htr in Hlt |- *.
  destruct (interp_items_grows _ _ _ _ _ H Hlt) as (Hg & Hs & Hd & Hf).
  rewrite Hd, Hs. done.
Qed.

(** ** Termination of the loop *)

Lemma interp_loop_terminates (n m : nat) (idx : nat) (ls : LoopState) :
  (nfunc (drop idx (ls_transitions ls)) <= n)%nat ->
  (length (ls_transitions ls) - idx <= m)%nat ->
  exists fuel r, forall fuel', (fuel <= fuel')%nat -> interp_loop E fuel' idx ls = Some r.
Proof.
  revert m idx ls. induction n as [n IHn] using lt_wf_ind.
  induction m as [m IHm] using lt_wf_ind. intros idx ls Hn Hm.
  destruct (ls_transitions ls !! idx) as [t|] eqn:Ht.
  - destruct (interp_transition E idx t ls) as [ls'|e] eqn:Hstep.
    + pose proof (lookup_lt_Some _ _ _ Ht) as Hlt.
      destruct (interp_transition_spec _ _ _ _ Hstep Hlt)
        as ((_ & _ & _ & Hnf & _) & Hsame & _).
      assert (Hdrop : drop idx (ls_transitions ls) = t :: drop (S idx) (ls_transitions ls))
        by (by apply drop_S).
      assert (Hcount : nfunc (drop idx (ls_transitions ls)) =
                ((if has_func t then 1 else 0) + nfunc (drop (S idx) (ls_transitions ls)))%nat).
      { rewrite Hdrop. unfold nfunc. simpl. by destruct (has_func t). }
      assert (Hrec : exists fuel r, forall fuel', (fuel <= fuel')%nat ->
                interp_loop E fuel' (S idx) ls' = Some r).
      { destruct (has_func t) eqn:Hf.
        - apply (IHn (n - 1)%nat ltac:(lia) (length (ls_transitions ls') - S idx)%nat);
            [lia|done].
        - apply (IHm (m - 1)%nat ltac:(lia)).
          + lia.
          + rewrite (Hsame eq_refl). lia. }
      destruct Hrec as (fuel & r & Hfuel). exists (S fuel), r.
      intros [|fuel'] Hle; [lia|]. simpl. rewrite Ht, Hstep. apply Hfuel. lia.
    + exists 1%nat, (Raise e). intros [|fuel'] Hle; [lia|]. simpl. by rewrite Ht, Hstep.
  - exists 1%nat, (Ok ls). intros [|fuel'] Hle; [lia|]. simpl. by rewrite Ht.
Qed.

(** ** The rows and the dates of the transitions *)

Lemma interp_transition_dates_inv (idx : nat) (t : Transition) (ls ls' : LoopState) :
  ls_transitions ls !! idx = Some t ->
  interp_transition E idx t ls = Ok ls' ->
  dates_inv idx ls -> dates_inv (S idx) ls'.
Proof.
  intros Ht Hstep (Hd & Hi & Hlen).
  pose proof (lookup_lt_Some _ _ _ Ht) as Hlt.
  destruct (interp_transition_spec _ _ _ _ Hstep Hlt)
    as ((_ & Htake & Hmem & _ & _) & _ & Hin & Hds & Hlen').
  assert (Hpre : forall i, (i <= idx)%nat ->
            ls_transitions ls' !! i = ls_transitions ls !! i).
  { intros i Hle. rewrite <- (lookup_take_lt (ls_transitions ls') (S idx) i) by lia.
    rewrite Htake. apply lookup_take_lt. lia. }
  split; [|split; [|by apply Hlen']].
  - intros d Hd'. apply Hds in Hd' as [Hd'| ->].
    + destruct (Hd _ Hd') as (x & Hx & Hdx). exists x. split; [by apply Hmem|done].
    + exists t. split; [|done]. apply Hmem. by eapply list_elem_of_lookup_2.
  - intros i x Hi' Hx. rewrite Hpre in Hx by lia.
    destruct (decide (i = idx)) as [->|Hne].
    + rewrite Ht in Hx. injection Hx as <-. done.
    + apply Hds. left. apply (Hi i); [lia|done].
Qed.

Lemma interp_loop_dates_inv (fuel : nat) (idx : nat) (ls final : LoopState) :
  interp_loop E fuel idx ls = Some (Ok final) ->
  dates_inv idx ls ->
  dates_inv (length (ls_transitions final)) final.
Proof.
  revert idx ls. induction fuel as [|fuel IH]; intros idx ls H Hinv; [discriminate|].
  simpl in H. destruct (ls_transitions ls !! idx) as [t|] eqn:Ht.
  - destruct (interp_transition E idx t ls) as [ls'|e] eqn:Hstep; [|discriminate].
    eapply IH; [exact H|]. by eapply interp_transition_dates_inv.
  - injection H as <-. apply lookup_ge_None in Ht.
    destruct Hinv as (Hd & Hi & Hlen). split; [done|]. split; [|done].
    intros i t Hlt Hx. apply (Hi i); [lia|done].
Qed.

Lemma init_loop_dates_inv (cmds : list Cmd) (state_keys : list string) (ls : LoopState) :
  init_loop E cmds state_keys = Ok ls -> dates_inv 0 ls.
Proof.
  unfold init_loop. intros H. bind_inv H. bind_inv H. bind_inv H. bind_inv H.
  injection H as <-. unfold list_get in Ha2.
  destruct (add_pitch_transitions E (cmd_date a0) (cmd_date a1) a !! 0%nat) as [t0|] eqn:Ht0;
    [|discriminate].
  injection Ha2 as <-. split; [|split]; simpl.
  - intros d Hd. apply list_elem_of_singleton in Hd as ->.
    exists t0. split; [|done]. by eapply list_elem_of_lookup_2.
  - intros i t Hi. lia.
  - done.
Qed.

Lemma length_map_result {A B} (f : A -> result B) (l : list A) (l' : list B) :
  map_result f l = Ok l' -> length l' = length l.
Proof.
  revert l'. induction l as [|x l IH]; intros l' H; simpl in H.
  - by injection H as <-.
  - bind_inv H. bind_inv H. injection H as <-. simpl. f_equal. by apply IH.
Qed.

(** The first column of the table holds the [datestarts], and the columns
    are [datestart], [datestop] and the state keys. *)
Lemma states_table_spec (state_keys : list string) (states : list State)
    (datestarts : list string) (tbl : Table) :
  states_table state_keys states datestarts = Ok tbl ->
  length datestarts = length states ->
  colnames tbl = "datestart" :: "datestop" :: state_keys /\
  map (fun row => row !! 0%nat) (rows tbl) = map (fun d => Some (VStr d)) datestarts.
Proof.
  unfold states_table. intros H Hlen. bind_inv H. bind_inv H. injection H as <-. simpl.
  split; [done|]. apply length_map_result in Ha. rewrite <- Hlen in Ha.
  assert (Hstop : length (tail datestarts ++ ["2099:365:00:00:00.000"]) = length datestarts).
  { rewrite length_app. simpl. destruct datestarts; [discriminate|]. simpl. lia. }
  revert Ha Hstop. generalize (tail datestarts ++ ["2099:365:00:00:00.000"]).
  clear. revert a. induction datestarts as [|d ds IH]; intros vals stops Hv Hs.
  - done.
  - destruct vals as [|v vals]; [discriminate|]. destruct stops as [|s stops]; [discriminate|].
    simpl. f_equal. apply IH; simpl in *; lia.
Qed.

Lemma get_states_for_cmds_terminates (cmds : list Cmd) (state_keys : option (list string)) :
  exists fuel r, forall fuel', (fuel <= fuel')%nat ->
    get_states_for_cmds E fuel' cmds state_keys = Some r.
Proof.
  unfold get_states_for_cmds, interpret.
  destruct (init_loop E cmds (all_state_keys E state_keys)) as [ls|e].
  - destruct (interp_loop_terminates _ _ 0 ls (le_n _) (le_n _)) as (fuel & r & Hfuel).
    exists fuel. destruct r as [final|e].
    + eexists. intros fuel' Hle. by rewrite (Hfuel fuel' Hle).
    + exists (Raise e). intros fuel' Hle. by rewrite (Hfuel fuel' Hle).
  - exists 0%nat, (Raise e). done.
Qed.

(** C5, amended: the rows of the table start at the dates of the transitions
    of the list as the loop leaves it.  Every row's [datestart] is the date
    of some transition, and the date of every transition is the [datestart]
    of some row, whether or not the transition changed a state field. *)
Theorem rows_start_at_transition_dates (fuel : nat) (cmds : list Cmd)
    (state_keys : option (list string)) (tbl : Table) :
  get_states_for_cmds E fuel cmds state_keys = Some (Ok tbl) ->
  exists transitions,
    final_transitions E fuel cmds state_keys = Some (Ok transitions) /\
    (forall row, row ∈ rows tbl ->
       exists t, t ∈ transitions /\ row !! 0%nat = Some (VStr (t_date t))) /\
    (forall t, t ∈ transitions ->
       exists row, row ∈ rows tbl /\ row !! 0%nat = Some (VStr (t_date t))).
Proof.
  unfold get_states_for_cmds, final_transitions, interpret. intros H.
  destruct (init_loop E cmds (all_state_keys E state_keys)) as [ls|e] eqn:Hinit;
    [|discriminate].
  destruct (interp_loop E fuel 0 ls) as [[final|e]|] eqn:Hloop; try discriminate.
  injection H as H. simpl. exists (ls_transitions final). split; [done|].
  pose proof (interp_loop_dates_inv _ _ _ _ Hloop (init_loop_dates_inv _ _ _ Hinit))
    as (Hd & Hi & Hlen).
  apply states_table_spec in H as [_ Hrows];
    [|rewrite length_app; simpl; lia].
  split.
  - intros row Hrow.
    assert (Hin : row !! 0%nat ∈ map (fun row => row !! 0%nat) (rows tbl))
      by (apply list_elem_of_fmap; eauto).
    rewrite Hrows in Hin. apply list_elem_of_fmap in Hin as (d & Hrd & Hdin).
    destruct (Hd _ Hdin) as (t & Ht & <-). eauto.
  - intros t Ht. apply list_elem_of_lookup in Ht as [i Hti].
    pose proof (Hi i t (lookup_lt_Some _ _ _ Hti) Hti) as Hdin.
    assert (Hin : Some (VStr (t_date t)) ∈ map (fun d => Some (VStr d)) (ls_datestarts final))
      by (apply list_elem_of_fmap; eauto).
    rewrite <- Hrows in Hin. apply list_elem_of_fmap in Hin as (row & Hrd & Hrow).
    eauto.
Qed.

(** ** The closure of the requested keys *)

Lemma elem_of_unique_from (seen seq : list string) (x : string) :
  x ∈ unique_from seen seq <-> x ∈ seq /\ x ∉ seen.
Proof.
  revert seen. induction seq as [|y seq IH]; intros seen; simpl.
  - rewrite elem_of_nil. tauto.
  - unfold str_in. case_bool_decide as Hy.
    + rewrite IH, elem_of_cons. split; [tauto|]. intros [[->|?] ?]; tauto.
    + rewrite !elem_of_cons, IH, elem_of_cons.
      destruct (decide (x = y)) as [->|]; tauto.
Qed.

Lemma elem_of_unique (seq : list string) (x : string) : x ∈ unique seq <-> x ∈ seq.
Proof. unfold unique. rewrite elem_of_unique_from, elem_of_nil. tauto. Qed.

Lemma manvr_keys_in_closure (state_keys : list string) (key : string) :
  set_iter_spec E ->
  key ∈ state_keys -> key ∈ MANVR_STATE_KEYS ->
  MANVR_STATE_KEYS ⊆ all_state_keys E (Some state_keys).
Proof.
  intros Hset Hkey Hmanvr m Hm. unfold all_state_keys.
  apply elem_of_unique, list_elem_of_In, in_concat.
  eexists. split.
  - apply in_map_iff. exists key. split; [reflexivity|]. by apply list_elem_of_In.
  - apply in_concat. exists MANVR_STATE_KEYS. split; [|by apply list_elem_of_In].
    apply in_map_iff. exists NMM_Transition. split.
    + unfold str_in. by rewrite bool_decide_eq_true_2.
    + apply list_elem_of_In, (Hset class_definitions). unfold class_definitions.
      apply elem_of_cons. by left.
Qed.

(** C6: when a requested key belongs to the maneuver group, the keys that
    [get_states_for_cmds] processes include all of [MANVR_STATE_KEYS]; the
    call ends, with a table or with an exception, given enough fuel; and the
    columns of a table it returns are [datestart], [datestop] and the
    processed keys, so they include the whole group.  Requesting [pitch]
    alone is one such request. *)
Theorem manvr_key_closure (cmds : list Cmd) (state_keys : list string) (key : string) :
  set_iter_spec E ->
  key ∈ state_keys -> key ∈ MANVR_STATE_KEYS ->
  MANVR_STATE_KEYS ⊆ all_state_keys E (Some state_keys) /\
  (exists fuel r, forall fuel', (fuel <= fuel')%nat ->
     get_states_for_cmds E fuel' cmds (Some state_keys) = Some r) /\
  (forall fuel tbl,
     get_states_for_cmds E fuel cmds (Some state_keys) = Some (Ok tbl) ->
     colnames tbl = "datestart" :: "datestop" :: all_state_keys E (Some state_keys) /\
     MANVR_STATE_KEYS ⊆ colnames tbl).
Proof.
  intros Hset Hkey Hmanvr.
  pose proof (manvr_keys_in_closure _ _ Hset Hkey Hmanvr) as Hsub.
  split; [done|]. split; [apply get_states_for_cmds_terminates|].
  intros fuel tbl H. unfold get_states_for_cmds, interpret in H.
  destruct (init_loop E cmds (all_state_keys E (Some state_keys))) as [ls|e] eqn:Hinit;
    [|discriminate].
  destruct (interp_loop E fuel 0 ls) as [[final|e]|] eqn:Hloop; try discriminate.
  injection H as H.
  pose proof (interp_loop_dates_inv _ _ _ _ Hloop (init_loop_dates_inv _ _ _ Hinit))
    as (_ & _ & Hlen).
  apply states_table_spec in H as [Hcols _]; [|rewrite length_app; simpl; lia].
  split; [done|]. rewrite Hcols. intros m Hm. rewrite !elem_of_cons. right. right. by apply Hsub.
Qed.

End LoopFacts.

(** ** The rows that [reduce_states] keeps *)

Lemma lookup_removelast {A} (l : list A) (i : nat) :
  (S i < length l)%nat -> removelast l !! i = l !! i.
Proof.
  revert i. induction l as [|x l IH]; intros i Hi; simpl in *; [lia|].
  destruct l as [|y l]; simpl in *; [lia|].
  destruct i as [|i]; [done|]. simpl. apply IH. simpl. lia.
Qed.

Lemma length_removelast {A} (l : list A) : length (removelast l) = pred (length l).
Proof.
  induction l as [|x l IH]; [done|]. destruct l as [|y l]; [done|].
  change (removelast (x :: y :: l)) with (x :: removelast (y :: l)).
  simpl in *. by rewrite IH.
Qed.

Lemma length_mark_different (different : list bool) (col : list value) :
  length col = length different ->
  length (mark_different different col) = length different.
Proof.
  intros Hlen. destruct different as [|d0 ds]; [done|]. simpl.
  rewrite !length_zip_with, length_removelast, length_tl. simpl in Hlen. lia.
Qed.

Lemma lookup_mark_different (different : list bool) (col : list value) (r : nat) :
  length col = length different ->
  mark_different different col !! r = (fun b => b || differs col r) <$> different !! r.
Proof.
  intros Hlen. destruct different as [|d0 ds]; [done|].
  destruct r as [|r]; simpl; [by rewrite orb_false_r|].
  rewrite !lookup_zip_with. simpl in Hlen.
  destruct (ds !! r) as [b|] eqn:Hb; simpl; [|done].
  apply lookup_lt_Some in Hb.
  rewrite lookup_removelast by lia. rewrite lookup_tail.
  destruct (lookup_lt_is_Some_2 col r ltac:(lia)) as [x ->].
  destruct (lookup_lt_is_Some_2 col (S r) ltac:(lia)) as [y ->]. done.
Qed.

Lemma length_table_column (t : Table) (key : string) (col : list value) :
  table_column t key = Ok col -> length col = length (rows t).
Proof.
  unfold table_column. destruct (index_of key (colnames t)); [|discriminate].
  apply length_map_result.
Qed.

Lemma reduce_states_mask (states : Table) (state_keys : list string)
    (different0 different : list bool) :
  fold_result (fun different key =>
                 col ← table_column states key; Ok (mark_different different col))
              state_keys different0 = Ok different ->
  length different0 = length (rows states) ->
  length different = length (rows states) /\
  forall r, different !! r = Some true <->
    different0 !! r = Some true \/
    exists key col, key ∈ state_keys /\ table_column states key = Ok col /\
                    differs col r = true.
Proof.
  revert different0. induction state_keys as [|key keys IH]; intros d0 H Hlen.
  - injection H as <-. split; [done|]. intros r. split; [tauto|].
    intros [?|(k & c & Hk & _)]; [done|]. by apply elem_of_nil in Hk.
  - cbn [fold_result] in H. bind_inv H. bind_inv Ha. injection Ha as <-.
    pose proof (length_table_column _ _ _ Ha0) as Hcol.
    destruct (IH _ H) as [Hlen' Hiff].
    { rewrite length_mark_different; congruence. }
    split; [done|]. intros r. rewrite Hiff, lookup_mark_different by congruence.
    split.
    + intros [Hd|(k & c & Hk & Hc & Hdiff)].
      * destruct (d0 !! r) as [b|] eqn:Hb; [|done]. simpl in Hd.
        injection Hd as Hd. apply orb_prop in Hd as [->|Hd]; [by left|].
        right. exists key, a0. split; [apply elem_of_cons; by left|done].
      * right. exists k, c. split; [apply elem_of_cons; by right|done].
    + intros [Hd|(k & c & Hk & Hc & Hdiff)].
      * left. by rewrite Hd.
      * apply elem_of_cons in Hk as [->|Hk].
        -- left. rewrite Hc in Ha0. injection Ha0 as <-.
           destruct (d0 !! r) as [b|] eqn:Hb.
           ++ simpl. by rewrite Hdiff, orb_true_r.
           ++ apply lookup_ge_None in Hb. destruct r as [|r]; [done|].
              simpl in Hdiff. destruct (c !! r) eqn:?; [|done].
              destruct (c !! S r) eqn:Hsr; [|done].
              apply lookup_lt_Some in Hsr. lia.
        -- right. eauto.
Qed.

(** What [reduce_states] keeps: the rows [r] that differ from row [r - 1] in
    the column of some key; row 0, which has no row before it, is never among
    them, so a table that is not empty loses a row. *)
Lemma reduce_states_kept (states : Table) (state_keys : list string) (out : Table) :
  reduce_states states state_keys = Ok out ->
  exists different selected,
    table_select states ("datestart" :: "datestop" :: state_keys) = Ok selected /\
    length (rows selected) = length (rows states) /\
    length different = length (rows states) /\
    (forall r, different !! r = Some true <->
       exists key col, key ∈ state_keys /\ table_column states key = Ok col /\
                       differs col r = true) /\
    different !! 0%nat <> Some true /\
    out = mkTable ("datestart" :: "datestop" :: state_keys)
                  (chain_datestop (mask_rows (rows selected) different)).
Proof.
  unfold reduce_states. intros H. bind_inv H. bind_inv H. injection H as <-.
  destruct (reduce_states_mask _ _ _ _ Ha (length_replicate _ _)) as [Hlen Hiff].
  assert (Hiff' : forall r, a !! r = Some true <->
            exists key col, key ∈ state_keys /\ table_column states key = Ok col /\
                            differs col r = true).
  { intros r. rewrite Hiff. split; [|by right].
    intros [Hr|?]; [|done]. apply lookup_replicate in Hr as [? _]. done. }
  exists a, a0. split; [done|].
  assert (Hsel : colnames a0 = "datestart" :: "datestop" :: state_keys /\
                 length (rows a0) = length (rows states)).
  { unfold table_select in Ha0. bind_inv Ha0. bind_inv Ha0. injection Ha0 as <-. simpl.
    split; [done|]. by eapply length_map_result. }
  destruct Hsel as [Hcols Hrows].
  split; [done|]. split; [done|]. split; [done|]. split.
  - rewrite Hiff'. intros (k & c & _ & _ & Hd). discriminate.
  - simpl. by rewrite Hcols.
Qed.

Lemma length_mask_rows {A} (l : list A) (mask : list bool) :
  (length (mask_rows l mask) <= length l)%nat.
Proof.
  revert mask. induction l as [|x l IH]; intros [|[] mask]; simpl; try lia.
  - specialize (IH mask). lia.
  - specialize (IH mask). lia.
Qed.

Lemma length_chain_datestop (rows : list (list value)) :
  length (chain_datestop rows) = length rows.
Proof.
  induction rows as [|row rows IH]; [done|].
  destruct row as [|ds [|de vals]]; simpl; try (by rewrite IH).
  destruct rows as [|[|ds' row'] rows]; simpl in *; by rewrite ?IH.
Qed.

Lemma reduce_states_loses_row (states : Table) (state_keys : list string) (out : Table) :
  reduce_states states state_keys = Ok out ->
  rows states <> [] ->
  (length (rows out) < length (rows states))%nat.
Proof.
  intros H Hne.
  destruct (reduce_states_kept _ _ _ H) as (mask & sel & _ & Hsel & Hmask & _ & H0 & ->).
  simpl. rewrite length_chain_datestop, <- Hsel.
  destruct (rows sel) as [|row rows'] eqn:Hrows.
  - destruct (rows states); [done|discriminate].
  - destruct mask as [|[] mask]; simpl in *; try lia; [done|].
    pose proof (length_mask_rows rows' mask). lia.
Qed.

(** Reducing a reduced table that still has a row loses a row again. *)
Lemma reduce_states_not_idempotent (states : Table) (state_keys : list string)
    (once twice : Table) :
  reduce_states states state_keys = Ok once ->
  reduce_states once state_keys = Ok twice ->
  rows once <> [] ->
  twice <> once.
Proof.
  intros _ Htwice Hne ->. pose proof (reduce_states_loses_row _ _ _ Htwice Hne). lia.
Qed.

(** ** A batch that produces no transition *)

Lemma elem_of_insert_sorted {A} (key : A -> string) (x y : A) (l : list A) :
  y ∈ insert_sorted key x l <-> y = x \/ y ∈ l.
Proof.
  induction l as [|z l IH]; simpl.
  - rewrite list_elem_of_singleton, elem_of_nil. tauto.
  - destruct (String.leb (key x) (key z)).
    + rewrite !elem_of_cons. tauto.
    + rewrite !elem_of_cons, IH. tauto.
Qed.

Lemma elem_of_sort_by {A} (key : A -> string) (y : A) (l : list A) :
  y ∈ sort_by key l <-> y ∈ l.
Proof.
  unfold sort_by. induction l as [|x l IH]; simpl; [done|].
  rewrite elem_of_insert_sorted, IH, elem_of_cons. tauto.
Qed.

(** The state that the loop starts from. *)
Lemma lookup_unknown_state (state_keys : list string) (key : string) :
  (list_to_map (map (fun key => (key, VNone)) state_keys) : State) !! key =
    if bool_decide (key ∈ state_keys) then Some VNone else None.
Proof.
  induction state_keys as [|k keys IH]; simpl.
  - by rewrite lookup_empty.
  - destruct (decide (k = key)) as [->|Hne].
    + rewrite lookup_insert_eq. rewrite bool_decide_eq_true_2; [done|].
      apply elem_of_cons. by left.
    + rewrite lookup_insert_ne by done. rewrite IH.
      destruct (decide (key ∈ keys)) as [Hin|Hnin].
      * rewrite !bool_decide_eq_true_2; [done|apply elem_of_cons; by right|done].
      * rewrite !bool_decide_eq_false_2; [done| |done].
        rewrite elem_of_cons. intros [->|?]; done.
Qed.

Section NoTransitions.

Variable E : Externals.

(** While the list holds pitch samples only and [pcad_mode] is unknown, an
    iteration leaves the list and the state as they are. *)
Lemma interp_transition_pitch_sample (idx : nat) (t : Transition) (ls ls' : LoopState) :
  pitch_sample t ->
  ls_state ls !! "pcad_mode" = Some VNone \/ ls_state ls !! "pcad_mode" = None ->
  interp_transition E idx t ls = Ok ls' ->
  ls_transitions ls' = ls_transitions ls /\ ls_state ls' = ls_state ls /\
  (forall st, st ∈ ls_states ls' -> st ∈ ls_states ls \/ st = ls_state ls).
Proof.
  unfold interp_transition, pitch_sample. intros -> Hmode H. bind_inv H.
  assert (Ha' : ls_transitions a = ls_transitions ls /\ ls_state a = ls_state ls /\
                forall st, st ∈ ls_states a -> st ∈ ls_states ls \/ st = ls_state ls).
  { unfold start_row in Ha. bind_inv Ha.
    destruct (negb (String.eqb (t_date t) a0)); injection Ha as <-; simpl.
    - split; [done|]. split; [done|]. intros st Hst.
      apply elem_of_app in Hst as [?|Hst]; [by left|].
      apply list_elem_of_singleton in Hst. by right.
    - split; [done|]. split; [done|]. by left. }
  destruct Ha' as (Htr & Hst & Hsts).
  cbn [fold_result interp_item call_func] in H. bind_inv H. bind_inv Ha0.
  destruct a1 as [tr1 st1]. injection Ha0 as <-. injection H as <-. simpl.
  unfold update_pitch_state, dict_get in Ha1. rewrite Hst in Ha1.
  destruct Hmode as [Hmode|Hmode]; rewrite Hmode in Ha1; simpl in Ha1; [|discriminate].
  injection Ha1 as <- <-. done.
Qed.

Lemma interp_loop_pitch_samples (fuel : nat) (idx : nat) (ls final : LoopState)
    (state : State) :
  Forall pitch_sample (ls_transitions ls) ->
  state !! "pcad_mode" = Some VNone \/ state !! "pcad_mode" = None ->
  ls_state ls = state -> Forall (fun st => st = state) (ls_states ls) ->
  interp_loop E fuel idx ls = Some (Ok final) ->
  ls_state final = state /\ Forall (fun st => st = state) (ls_states final).
Proof.
  intros Hall Hmode. revert idx ls Hall.
  induction fuel as [|fuel IH]; intros idx ls Hall Hst Hsts H; [discriminate|].
  simpl in H. destruct (ls_transitions ls !! idx) as [t|] eqn:Ht.
  - destruct (interp_transition E idx t ls) as [ls'|e] eqn:Hstep; [|discriminate].
    assert (Hp : pitch_sample t).
    { rewrite Forall_forall in Hall. apply Hall. by eapply list_elem_of_lookup_2. }
    rewrite <- Hst in Hmode.
    destruct (interp_transition_pitch_sample _ _ _ _ Hp Hmode Hstep) as (Htr & Hst' & Hsts').
    apply (IH (S idx) ls'); [by rewrite Htr|congruence| |done].
    rewrite Forall_forall in Hsts |- *. intros st Hin.
    destruct (Hsts' _ Hin) as [?| ->]; [by apply Hsts|done].
  - injection H as <-. done.
Qed.

(** When no command of the batch produces a transition, a table that
    [get_states_for_cmds] returns has at least one row, and every state
    column of every row is unknown. *)
Lemma no_transitions_all_unknown (fuel : nat) (cmds : list Cmd)
    (state_keys : option (list string)) (tbl : Table) :
  get_transitions_list E cmds (Some (all_state_keys E state_keys)) = Ok [] ->
  get_states_for_cmds E fuel cmds state_keys = Some (Ok tbl) ->
  rows tbl <> [] /\
  forall row, row ∈ rows tbl ->
    exists datestart datestop,
      row = VStr datestart :: VStr datestop
            :: replicate (length (all_state_keys E state_keys)) VNone.
Proof.
  intros Hnone H. unfold get_states_for_cmds, interpret in H.
  destruct (init_loop E cmds (all_state_keys E state_keys)) as [ls|e] eqn:Hinit;
    [|discriminate].
  destruct (interp_loop E fuel 0 ls) as [[final|e]|] eqn:Hloop; try discriminate.
  injection H as H.
  pose proof (interp_loop_dates_inv _ _ _ _ _ Hloop (init_loop_dates_inv _ _ _ _ Hinit))
    as (_ & _ & Hlen).
  set (keys := all_state_keys E state_keys) in *.
  set (state0 := list_to_map (map (fun key => (key, VNone)) keys) : State).
  unfold init_loop in Hinit. rewrite Hnone in Hinit. simpl in Hinit.
  bind_inv Hinit. bind_inv Hinit. bind_inv Hinit. injection Hinit as <-.
  assert (Hfinal : ls_state final = state0 /\ Forall (fun st => st = state0) (ls_states final)).
  { eapply (interp_loop_pitch_samples _ _ _ _ state0); [| | | |exact Hloop]; simpl.
    - apply Forall_forall. intros t Ht. apply elem_of_sort_by in Ht. simpl in Ht.
      apply list_elem_of_fmap in Ht as (d & -> & _). reflexivity.
    - unfold state0. rewrite lookup_unknown_state. destruct (bool_decide _); auto.
    - done.
    - constructor. }
  destruct Hfinal as [Hst Hsts].
  unfold states_table in H. bind_inv H. bind_inv H. injection H as <-. simpl.
  assert (Hlook : forall ks vals,
            map_result (dict_get state0) ks = Ok vals -> vals = replicate (length ks) VNone).
  { induction ks as [|k ks IHk]; intros vals Hv; simpl in Hv.
    - by injection Hv as <-.
    - apply bind_Ok in Hv as (v & Hk & Hv). apply bind_Ok in Hv as (vs & Hks & Hv).
      injection Hv as <-. simpl.
      unfold dict_get, state0 in Hk. rewrite lookup_unknown_state in Hk.
      destruct (bool_decide (k ∈ keys)); [|discriminate].
      injection Hk as <-. f_equal. by apply IHk. }
  assert (Hrows : Forall (fun row => row = replicate (length keys) VNone) a2).
  { assert (Hall : Forall (fun st => st = state0) (ls_states final ++ [ls_state final])).
    { apply Forall_app. split; [done|]. by constructor. }
    clear -Ha2 Hall Hlook. revert a2 Ha2.
    induction Hall as [|st sts -> _ IH]; intros rws Hr; simpl in Hr.
    - injection Hr as <-. constructor.
    - bind_inv Hr. bind_inv Hr. injection Hr as <-. constructor; [|by apply IH].
      by apply Hlook. }
  apply length_map_result in Ha2. rewrite length_app in Ha2. simpl in Ha2.
  split.
  - destruct (ls_datestarts final) as [|d ds]; [discriminate|].
    destruct a2 as [|r rs]; [simpl in Ha2; lia|].
    destruct ds; simpl; discriminate.
  - intros row Hrow. apply list_elem_of_lookup in Hrow as [i Hi].
    rewrite lookup_zip_with in Hi.
    destruct (zip (ls_datestarts final) _ !! i) as [[ds de]|]; [|done]. simpl in Hi.
    destruct (a2 !! i) as [vals|] eqn:Hvals; [|done]. injection Hi as <-.
    exists ds, de. do 2 f_equal.
    rewrite Forall_forall in Hrows. apply Hrows. by eapply list_elem_of_lookup_2.
Qed.

End NoTransitions.

(** ** The live list stays in date order *)

Lemma ascii_compare_lt_trans (a b c : ascii) :
  Ascii.compare a b = Lt -> Ascii.compare b c = Lt -> Ascii.compare a c = Lt.
Proof.
  unfold Ascii.compare. rewrite !N.compare_lt_iff. lia.
Qed.

Lemma string_compare_lt_trans (a b c : string) :
  String.compare a b = Lt -> String.compare b c = Lt -> String.compare a c = Lt.
Proof.
  revert b c. induction a as [|x a IH]; intros [|y b] [|z c]; simpl; try done.
  destruct (Ascii.compare x y) eqn:Exy; try done.
  - apply Ascii.compare_eq_iff in Exy as ->.
    destruct (Ascii.compare y z); try done. apply IH.
  - destruct (Ascii.compare y z) eqn:Eyz; try done.
    + apply Ascii.compare_eq_iff in Eyz as <-. by rewrite Exy.
    + by rewrite (ascii_compare_lt_trans _ _ _ Exy Eyz).
Qed.

Lemma string_leb_trans (a b c : string) :
  String.leb a b = true -> String.leb b c = true -> String.leb a c = true.
Proof.
  unfold String.leb.
  destruct (String.compare a b) eqn:Eab; try done;
    destruct (String.compare b c) eqn:Ebc; try done; intros _ _.
  - apply String.compare_eq_iff in Eab as ->. by rewrite Ebc.
  - apply String.compare_eq_iff in Eab as ->. by rewrite Ebc.
  - apply String.compare_eq_iff in Ebc as <-. by rewrite Eab.
  - by rewrite (string_compare_lt_trans _ _ _ Eab Ebc).
Qed.

Lemma string_leb_refl (a : string) : String.leb a a = true.
Proof. unfold String.leb. by rewrite string_compare_refl. Qed.

Lemma string_ltb_leb (a b : string) : String.ltb a b = true -> String.leb a b = true.
Proof. unfold String.ltb, String.leb. by destruct (String.compare a b). Qed.

Lemma date_sorted_nil : date_sorted [].
Proof. intros i j x y _ Hx. done. Qed.

Lemma date_sorted_cons (x : Transition) (l : list Transition) :
  date_sorted (x :: l) <-> Forall (date_le x) l /\ date_sorted l.
Proof.
  split.
  - intros H. split.
    + apply Forall_lookup. intros i y Hy. apply (H 0%nat (S i)); [lia|done..].
    + intros i j a b Hij Ha Hb. apply (H (S i) (S j)); [lia|done..].
  - intros [Hx Hl] [|i] [|j] a b Hij Ha Hb; simpl in *; try lia.
    + injection Ha as <-. rewrite Forall_lookup in Hx. by eapply Hx.
    + apply (Hl i j); [lia|done..].
Qed.

Lemma date_sorted_app (l1 l2 : list Transition) :
  date_sorted (l1 ++ l2) <->
  date_sorted l1 /\ date_sorted l2 /\ forall x y, x ∈ l1 -> y ∈ l2 -> date_le x y.
Proof.
  induction l1 as [|a l1 IH]; simpl.
  - split; [intros H; split; [apply date_sorted_nil|split; [done|]]|tauto].
    intros x y Hx. by apply elem_of_nil in Hx.
  - rewrite !date_sorted_cons, IH, Forall_app, !Forall_forall. split.
    + intros ((Ha1 & Ha2) & H1 & H2 & H12). repeat split; auto.
      intros x y Hx Hy. apply elem_of_cons in Hx as [->|Hx]; auto.
    + intros ((Ha1 & H1) & H2 & H12). repeat split; auto.
      * intros y Hy. apply H12; [apply elem_of_cons; by left|done].
      * intros x y Hx Hy. apply H12; [apply elem_of_cons; by right|done].
Qed.

Lemma insert_after_sorted (t : Transition) (rest : list Transition) :
  date_sorted rest -> date_sorted (insert_after t rest).
Proof.
  induction rest as [|y rest IH]; intros Hs; simpl.
  - apply date_sorted_cons. split; [constructor|apply date_sorted_nil].
  - apply date_sorted_cons in Hs as [Hy Hrest].
    destruct (String.ltb (t_date t) (t_date y)) eqn:E.
    + apply date_sorted_cons. split; [|by apply date_sorted_cons].
      apply string_ltb_leb in E. constructor; [done|].
      eapply Forall_impl; [exact Hy|]. intros z Hz. unfold date_le in *.
      by eapply string_leb_trans.
    + apply date_sorted_cons. split; [|by apply IH].
      apply Forall_forall. intros z Hz. apply elem_of_insert_after in Hz as [->|Hz].
      * by apply string_ltb_false_leb.
      * rewrite Forall_forall in Hy. by apply Hy.
Qed.

Lemma add_transition_sorted (tr : list Transition) (idx : nat) (t : Transition)
    (tr' : list Transition) :
  add_transition tr idx t = Ok tr' -> date_sorted tr -> date_sorted tr'.
Proof.
  intros H Hs. apply add_transition_Ok in H as (cur & Hcur & Hlt & ->).
  rewrite <- (take_drop (S idx) tr) in Hs.
  apply date_sorted_app in Hs as (H1 & H2 & H12).
  apply date_sorted_app. split; [done|]. split; [by apply insert_after_sorted|].
  intros x y Hx Hy. apply elem_of_insert_after in Hy as [->|Hy]; [|by apply H12].
  assert (Hle : date_le cur t) by (by apply string_ltb_false_leb).
  assert (Hxcur : date_le x cur).
  { apply list_elem_of_lookup in Hx as [i Hi].
    pose proof (lookup_lt_Some _ _ _ Hi) as Hlen. rewrite length_take in Hlen.
    rewrite lookup_take_lt in Hi by lia.
    destruct (decide (i = idx)) as [->|Hne].
    - rewrite Hcur in Hi. injection Hi as <-. apply string_leb_refl.
    - pose proof (take_drop (S idx) tr) as Heq.
      assert (Hs : date_sorted tr).
      { rewrite <- Heq. apply date_sorted_app. done. }
      apply (Hs i idx); [lia|done..]. }
  unfold date_le in *. by eapply string_leb_trans.
Qed.

Lemma insert_sorted_sorted (x : Transition) (l : list Transition) :
  date_sorted l -> date_sorted (insert_sorted t_date x l).
Proof.
  induction l as [|y l IH]; intros Hs; simpl.
  - apply date_sorted_cons. split; [constructor|apply date_sorted_nil].
  - apply date_sorted_cons in Hs as [Hy Hl].
    destruct (String.leb (t_date x) (t_date y)) eqn:E.
    + apply date_sorted_cons. split; [|by apply date_sorted_cons].
      constructor; [done|]. eapply Forall_impl; [exact Hy|].
      intros z Hz. unfold date_le in *. by eapply string_leb_trans.
    + apply date_sorted_cons. split; [|by apply IH].
      apply Forall_forall. intros z Hz. apply elem_of_insert_sorted in Hz as [->|Hz].
      * destruct (String.leb_total (t_date x) (t_date y)); [congruence|done].
      * rewrite Forall_forall in Hy. by apply Hy.
Qed.

Lemma sort_by_sorted (l : list Transition) : date_sorted (sort_by t_date l).
Proof.
  unfold sort_by. induction l as [|x l IH]; simpl; [apply date_sorted_nil|].
  by apply insert_sorted_sorted.
Qed.

Section SortedFacts.

Variable E : Externals.

Lemma call_func_sorted (f : func) (date : string) (tr : list Transition) (st : State)
    (idx : nat) (tr' : list Transition) (st' : State) :
  call_func E f date tr st idx = Ok (tr', st') -> date_sorted tr -> date_sorted tr'.
Proof.
  assert (Hsamples : forall samples date0 tr0 date1 tr1,
            fold_result (add_manvr_sample E idx) samples (date0, tr0) = Ok (date1, tr1) ->
            date_sorted tr0 -> date_sorted tr1).
  { induction samples as [|[att pitch] samples IH]; intros date0 tr0 date1 tr1 H Hs.
    - by injection H as <- <-.
    - cbn [fold_result] in H. apply bind_Ok in H as ([d2 tr2] & Hstep & H).
      rewrite add_manvr_sample_eq in Hstep. apply bind_Ok in Hstep as (tr3 & Hadd & Hstep).
      injection Hstep as <- <-. eapply IH; [exact H|]. by eapply add_transition_sorted. }
  assert (Hmanvr : forall date tr st cmd d tr' st',
            add_manvr_transitions E date tr st idx cmd = Ok (d, tr', st') ->
            date_sorted tr -> date_sorted tr').
  { intros date0 tr0 st0 cmd d tr1 st1 H Hs. unfold add_manvr_transitions in H.
    bind_inv H. bind_inv H. bind_inv H. bind_inv H. bind_inv H. bind_inv H.
    destruct a4 as [d' tr2]. injection H as <- <- <-. by eapply Hsamples. }
  intros H Hs. destruct f as [|cmd|cmd]; simpl in H.
  - unfold update_pitch_state in H. bind_inv H.
    destruct (py_eqb a (VStr "NPNT")).
    + bind_inv H. bind_inv H. destruct a1. by injection H as <- <-.
    + by injection H as <- <-.
  - unfold ManeuverTransition_add_transitions in H. bind_inv H.
    destruct a as [[d tr1] st1]. bind_inv H.
    apply Hmanvr in Ha; [|done].
    destruct (py_eqb a (VStr "ENAB")).
    + bind_inv H. injection H as <- <-. by eapply add_transition_sorted.
    + by injection H as <- <-.
  - unfold NormalSunTransition_add_transitions in H. bind_inv H. bind_inv H. bind_inv H.
    destruct a1 as [[d tr1] st1]. injection H as <- <-. by eapply Hmanvr.
Qed.

Lemma interp_transition_sorted (idx : nat) (t : Transition) (ls ls' : LoopState) :
  interp_transition E idx t ls = Ok ls' ->
  date_sorted (ls_transitions ls) -> date_sorted (ls_transitions ls').
Proof.
  unfold interp_transition. intros H Hs. bind_inv H.
  destruct (start_row_spec _ _ _ Ha) as (Htr & _). rewrite <- Htr in Hs. clear Ha Htr.
  revert a H Hs. induction (t_items t) as [|[key v] items IH]; intros ls1 H Hs.
  - by injection H as <-.
  - cbn [fold_result] in H. bind_inv H. destruct v as [v|f]; simpl in Ha.
    + injection Ha as <-. by eapply IH.
    + bind_inv Ha. destruct a0 as [tr1 st1]. injection Ha as <-.
      eapply IH; [exact H|]. simpl. by eapply call_func_sorted.
Qed.

(** The list that the loop starts from is in date order, and so is the list
    at the end of every iteration: [add_transition] is only called on lists
    in date order. *)
Lemma live_list_sorted (fuel : nat) (cmds : list Cmd) (state_keys : option (list string))
    (final : LoopState) :
  interpret E fuel cmds state_keys = Some (Ok final) ->
  date_sorted (ls_transitions final).
Proof.
  unfold interpret. intros H.
  destruct (init_loop E cmds (all_state_keys E state_keys)) as [ls|e] eqn:Hinit;
    [|discriminate].
  assert (Hs : date_sorted (ls_transitions ls)).
  { unfold init_loop in Hinit. bind_inv Hinit. bind_inv Hinit. bind_inv Hinit.
    bind_inv Hinit. injection Hinit as <-. simpl. apply sort_by_sorted. }
  clear Hinit. revert H Hs. generalize 0%nat. revert ls.
  induction fuel as [|fuel IH]; intros ls idx H Hs; [discriminate|].
  simpl in H. destruct (ls_transitions ls !! idx) as [t|].
  - destruct (interp_transition E idx t ls) as [ls'|e] eqn:Hstep; [|discriminate].
    eapply IH; [exact H|]. by eapply interp_transition_sorted.
  - by injection H as <-.
Qed.

End SortedFacts.

(** ** Worked runs *)

Import Scenario.

(** C2: on a batch in which no command produces a transition for the
    requested key, [get_states_for_cmds] does not fail as the specification
    and [test_transition_error] require: for [pcad_mode] it returns a table
    whose state columns are unknown in every row, and for [letg] the first
    pitch sample raises [KeyError] on [state['pcad_mode']]. *)
Theorem get_states_for_cmds_no_transitions :
  get_transitions_list sample_externals cmds_quiet
    (Some (all_state_keys sample_externals (Some ["pcad_mode"]))) = Ok [] /\
  get_states_for_cmds sample_externals 10 cmds_quiet (Some ["pcad_mode"]) =
    Some (Ok (mkTable
      ["datestart"; "datestop"; "q1"; "q2"; "q3"; "q4"; "targ_q1"; "targ_q2"; "targ_q3";
       "targ_q4"; "auto_npnt"; "pcad_mode"; "pitch"]
      [[VStr "2017:001:00:00:00.000"; VStr "2017:001:02:46:40.000";
        VNone; VNone; VNone; VNone; VNone; VNone; VNone; VNone; VNone; VNone; VNone];
       [VStr "2017:001:02:46:40.000"; VStr "2099:365:00:00:00.000";
        VNone; VNone; VNone; VNone; VNone; VNone; VNone; VNone; VNone; VNone; VNone]])) /\
  get_transitions_list sample_externals cmds_quiet
    (Some (all_state_keys sample_externals (Some ["letg"]))) = Ok [] /\
  get_states_for_cmds sample_externals 10 cmds_quiet (Some ["letg"]) =
    Some (Raise (KeyError "pcad_mode")).
Proof. repeat apply conj; vm_compute; reflexivity. Qed.

(** C3: [reduce_states] does not keep row 0.  Of three rows that all differ
    in [pcad_mode] it returns the last two, and of a table of one row it
    returns no row. *)
Theorem reduce_states_drops_row_0 :
  reduce_states table_modes ["pcad_mode"] =
    Ok (mkTable ["datestart"; "datestop"; "pcad_mode"]
      [[VStr "2017:001:02:46:40.000"; VStr "2017:001:05:33:20.000"; VStr "NMAN"];
       [VStr "2017:001:05:33:20.000"; VStr "2099:365:00:00:00.000"; VStr "NPNT"]]) /\
  reduce_states table_single ["pcad_mode"] =
    Ok (mkTable ["datestart"; "datestop"; "pcad_mode"] []).
Proof. repeat apply conj; vm_compute; reflexivity. Qed.

(** C4: [reduce_states] is not idempotent on the code: reducing the reduced
    table over the same key drops a row again. *)
Theorem reduce_states_twice :
  exists once twice,
    reduce_states table_modes ["pcad_mode"] = Ok once /\
    reduce_states once ["pcad_mode"] = Ok twice /\
    length (rows once) = 2%nat /\
    length (rows twice) = 1%nat /\
    rows twice =
      [[VStr "2017:001:05:33:20.000"; VStr "2099:365:00:00:00.000"; VStr "NPNT"]].
Proof. do 2 eexists. repeat apply conj; vm_compute; reflexivity. Qed.

(** C5, as stated, fails: with auto-NPNT enabled at the start of the day and
    [auto_npnt] requested, the table has a row that starts at the pitch
    sample of 02:46:40; the only transition of that date is the third of the
    list, and its iteration did not change the state. *)
Lemma rows_start_at_changes_counterexample :
  get_states_for_cmds sample_externals 10 cmds_auto (Some ["auto_npnt"]) =
    Some (Ok table_auto) /\
  rows table_auto !! 1%nat =
    Some [VStr "2017:001:02:46:40.000"; VStr "2099:365:00:00:00.000";
          VNone; VNone; VNone; VNone; VNone; VNone; VNone; VNone; VStr "ENAB"; VNone; VNone] /\
  final_transitions sample_externals 10 cmds_auto (Some ["auto_npnt"]) =
    Some (Ok
      [mkTransition "2017:001:00:00:00.000" [("auto_npnt", Scalar (VStr "ENAB"))];
       mkTransition "2017:001:00:00:00.000" [("update_pitch", Func update_pitch_func)];
       mkTransition "2017:001:02:46:40.000" [("update_pitch", Func update_pitch_func)]]) /\
  changed_states sample_externals cmds_auto (Some ["auto_npnt"]) 3 = Ok [true; false; false] /\
  rows_start_at_changes sample_externals 10 cmds_auto (Some ["auto_npnt"]) = Some (Ok false).
Proof. repeat apply conj; vm_compute; reflexivity. Qed.

(** C8, as stated, fails: with [q1] known and [q2], [q3], [q4] unknown, the
    maneuver leaves the unknown components as they are. *)
Lemma seed_any_unknown_counterexample :
  let state := manvr_state (VFloat (1 # 2)) VNone VNone VNone (VStr "ENAB") in
  (r ← add_manvr_transitions sample_externals "2017:001:03:20:00.000"
         transitions_at_manvr state 0 manvr_cmd;
   Ok (map (fun key => r.2 !! key) (QCS ++ map (fun qc => "targ_" +:+ qc) QCS))) =
  Ok [Some (VFloat (1 # 2)); Some VNone; Some VNone; Some VNone;
      Some (VFloat 0); Some (VFloat 0); Some (VFloat 0); Some (VFloat 1)].
Proof. vm_compute. reflexivity. Qed.

(** ** The theorems above on the sample inputs *)

Lemma sample_set_iter_spec : set_iter_spec sample_externals.
Proof.
  intros l. split; [apply NoDup_remove_dups|]. intros c. apply elem_of_remove_dups.
Qed.

Lemma add_transition_contract_witness :
  transitions_at_manvr !! 0%nat =
    Some (mkTransition "2017:001:03:20:00.000"
            [("maneuver", Func (ManeuverTransition_func manvr_cmd))]) /\
  add_transition transitions_at_manvr 0
    (mkTransition "2017:001:03:36:40.000" [("pcad_mode", Scalar (VStr "NPNT"))]) =
  Ok [mkTransition "2017:001:03:20:00.000"
        [("maneuver", Func (ManeuverTransition_func manvr_cmd))];
      mkTransition "2017:001:03:36:40.000" [("pcad_mode", Scalar (VStr "NPNT"))];
      mkTransition "2017:001:05:33:20.000" [("update_pitch", Func update_pitch_func)]] /\
  (is_Raise (add_transition transitions_at_manvr 0
               (mkTransition "2017:001:00:00:00.000" [("pcad_mode", Scalar (VStr "NPNT"))])) <->
   String.ltb "2017:001:00:00:00.000" "2017:001:03:20:00.000" = true).
Proof.
  split; [reflexivity|]. split; [reflexivity|].
  exact (proj1 (add_transition_contract transitions_at_manvr 0
                  (mkTransition "2017:001:00:00:00.000" [("pcad_mode", Scalar (VStr "NPNT"))])
                  _ eq_refl)).
Defined.

Lemma rows_start_at_transition_dates_witness :
  get_states_for_cmds sample_externals 10 cmds_auto (Some ["auto_npnt"]) =
    Some (Ok table_auto) /\
  exists transitions,
    final_transitions sample_externals 10 cmds_auto (Some ["auto_npnt"]) =
      Some (Ok transitions) /\
    (forall row, row ∈ rows table_auto ->
       exists t, t ∈ transitions /\ row !! 0%nat = Some (VStr (t_date t))) /\
    (forall t, t ∈ transitions ->
       exists row, row ∈ rows table_auto /\ row !! 0%nat = Some (VStr (t_date t))).
Proof.
  split; [vm_compute; reflexivity|].
  apply (rows_start_at_transition_dates sample_externals 10 cmds_auto (Some ["auto_npnt"])).
  vm_compute; reflexivity.
Defined.

Lemma manvr_key_closure_witness :
  set_iter_spec sample_externals /\ "pitch" ∈ ["pitch"] /\ "pitch" ∈ MANVR_STATE_KEYS /\
  get_states_for_cmds sample_externals 20 cmds_manvr (Some ["pitch"]) <> None /\
  (forall fuel tbl,
     get_states_for_cmds sample_externals fuel cmds_manvr (Some ["pitch"]) = Some (Ok tbl) ->
     colnames tbl =
       "datestart" :: "datestop" :: all_state_keys sample_externals (Some ["pitch"]) /\
     MANVR_STATE_KEYS ⊆ colnames tbl).
Proof.
  split; [exact sample_set_iter_spec|].
  split; [apply list_elem_of_singleton; reflexivity|].
  split; [unfold MANVR_STATE_KEYS; simpl; rewrite !elem_of_cons; tauto|].
  split; [vm_compute; discriminate|].
  apply (manvr_key_closure sample_externals cmds_manvr ["pitch"] "pitch" sample_set_iter_spec).
  - apply list_elem_of_singleton; reflexivity.
  - unfold MANVR_STATE_KEYS; simpl; rewrite !elem_of_cons; tauto.
Defined.

Lemma auto_npnt_coda_witness :
  let state := manvr_state VNone VNone VNone VNone (VStr "ENAB") in
  let state' := manvr_state (VFloat 0) (VFloat 0) (VFloat 0) (VFloat 1) (VStr "ENAB") in
  let npnt := mkTransition "2017:001:03:36:40.000" [("pcad_mode", Scalar (VStr "NPNT"))] in
  add_manvr_transitions sample_externals "2017:001:03:20:00.000" transitions_at_manvr
    state 0 manvr_cmd = Ok ("2017:001:03:36:40.000", transitions_after_manvr, state') /\
  state' !! "auto_npnt" = Some (VStr "ENAB") /\
  exists j, (0 < j <= length transitions_after_manvr)%nat /\
    ManeuverTransition_add_transitions sample_externals "2017:001:03:20:00.000"
      transitions_at_manvr state 0 manvr_cmd =
    Ok (take j transitions_after_manvr ++ npnt :: drop j transitions_after_manvr, state') /\
    (forall k x, (0 < k < j)%nat -> transitions_after_manvr !! k = Some x ->
       String.ltb "2017:001:03:36:40.000" (t_date x) = false) /\
    (forall x, transitions_after_manvr !! j = Some x ->
       String.ltb "2017:001:03:36:40.000" (t_date x) = true).
Proof.
  intros state state' npnt.
  split; [vm_compute; reflexivity|]. split; [vm_compute; reflexivity|].
  refine (proj1 (auto_npnt_coda sample_externals "2017:001:03:20:00.000"
                   transitions_at_manvr state 0 manvr_cmd "2017:001:03:36:40.000"
                   transitions_after_manvr state' (VStr "ENAB") _ _) eq_refl);
    vm_compute; reflexivity.
Defined.

Lemma seed_from_targets_when_q1_unknown_witness :
  let state := manvr_state VNone VNone VNone VNone (VStr "ENAB") in
  let state' := manvr_state (VFloat 0) (VFloat 0) (VFloat 0) (VFloat 1) (VStr "ENAB") in
  add_manvr_transitions sample_externals "2017:001:03:20:00.000" transitions_at_manvr
    state 0 manvr_cmd = Ok ("2017:001:03:36:40.000", transitions_after_manvr, state') /\
  exists q1 targ_att curr_att atts,
    state !! "q1" = Some q1 /\
    map (fun qc => state !! ("targ_" +:+ qc)) QCS = map Some targ_att /\
    (q1 = VNone ->
       map (fun qc => state' !! qc) QCS = map Some targ_att /\
       forall key, key ∉ QCS -> state' !! key = state !! key) /\
    (q1 <> VNone -> state' = state) /\
    map (fun qc => state' !! qc) QCS = map Some curr_att /\
    Maneuver_attitudes sample_externals curr_att targ_att
      (DateTime_secs sample_externals (cmd_date manvr_cmd)) = Ok atts.
Proof.
  intros state state'. split; [vm_compute; reflexivity|].
  apply (seed_from_targets_when_q1_unknown sample_externals "2017:001:03:20:00.000"
           transitions_at_manvr state 0 manvr_cmd "2017:001:03:36:40.000"
           transitions_after_manvr state').
  vm_compute; reflexivity.
Defined.

End StatesSpec.

(** * Properties of the maneuver event detector *)

Module EventsSpec.
Import Events Scenario.

(** ** Dwells *)

Lemma dwell_step_inv (st : DwellLoop) (change : Change) :
  dwell_inv st -> dwell_inv (dwell_step st change).
Proof.
  intros [Hall Hst]. unfold dwell_step.
  destruct (state st) as [s|] eqn:Hs.
  - destruct Hst as (-> & Hts & Hds & Htstop & Hdstop).
    rewrite bool_decide_eq_false_2 by done. cbn [andb is_dwell].
    change (String.eqb "dwell" "dwell") with true. cbn [andb].
    repeat case_match; split; simpl; rewrite ?Hs; simpl; eauto.
    + rewrite Forall_app. split; [done|]. constructor; [|done].
      unfold complete_dwell. simpl.
      destruct Hts as [? ->], Hds as [? ->]. done.
  - rewrite bool_decide_eq_true_2 by done. cbn [andb is_dwell].
    repeat case_match; split; simpl; rewrite ?Hs; simpl; eauto.
    rewrite Hst. simpl. eauto 10.
Qed.

Lemma dwell_loop_inv (st : DwellLoop) (changes : list Change) :
  dwell_inv st -> dwell_inv (dwell_loop st changes).
Proof.
  revert st. induction changes as [|c changes IH]; intros st Hinv; [done|].
  apply IH. by apply dwell_step_inv.
Qed.

Lemma get_dwells_start_inv : dwell_inv get_dwells_start.
Proof. split; [constructor | reflexivity]. Qed.

(** A dwell is appended only by the exit branch. *)
Lemma dwell_step_dwells (st : DwellLoop) (change : Change) :
  dwells (dwell_step st change) = dwells st \/
  (is_dwell (state st) = true /\ dwell_exit (t0 st) change = true /\
   exists d, dwells (dwell_step st change) = dwells st ++ [d] /\
             state (dwell_step st change) = None).
Proof.
  unfold dwell_step. repeat case_match; simpl; auto.
  right. repeat match goal with H : _ && _ = true |- _ => apply andb_prop in H as [? ?] end.
  eauto.
Qed.

(** C10: every dwell that [get_dwells] returns has a start and a stop.  A
    dwell is appended only when a change after the end of the maneuver takes
    the exit branch while the machine is in a dwell; and when the changes
    end inside a dwell, the pending dwell, which has a start and no stop, is
    not among the dwells returned: [get_dwells] returns without it. *)
Theorem unterminated_dwell_not_reported (changes : list Change) :
  let final := dwell_loop get_dwells_start (List.filter post_manvr changes) in
  get_dwells changes = dwells final /\
  Forall (fun d => is_Some (dwell_tstart d) /\ is_Some (dwell_datestart d) /\
                   is_Some (dwell_tstop d) /\ is_Some (dwell_datestop d))
         (get_dwells changes) /\
  (forall change,
     get_dwells (changes ++ [change]) = get_dwells changes \/
     (post_manvr change = true /\ is_dwell (state final) = true /\
      dwell_exit (t0 final) change = true /\
      exists d, get_dwells (changes ++ [change]) = get_dwells changes ++ [d])) /\
  (is_dwell (state final) = true ->
     is_Some (dwell_tstart (dwell final)) /\ dwell_tstop (dwell final) = None /\
     dwell final ∉ get_dwells changes).
Proof.
  intros final.
  pose proof (dwell_loop_inv _ (List.filter post_manvr changes) get_dwells_start_inv)
    as [Hall Hst].
  fold final in Hall, Hst.
  assert (Hcomplete : Forall (fun d => is_Some (dwell_tstart d) /\
             is_Some (dwell_datestart d) /\ is_Some (dwell_tstop d) /\
             is_Some (dwell_datestop d)) (dwells final)).
  { eapply Forall_impl; [exact Hall|]. intros d Hd. unfold complete_dwell in Hd.
    destruct (dwell_tstart d), (dwell_datestart d), (dwell_tstop d), (dwell_datestop d);
      simpl in Hd; try discriminate; eauto. }
  split; [done|]. split; [done|]. split.
  - intros change. unfold get_dwells. rewrite List.filter_app. simpl.
    destruct (post_manvr change) eqn:Hpost; simpl.
    + unfold dwell_loop. rewrite foldl_app. simpl.
      destruct (dwell_step_dwells final change) as [Heq|(Hd & Hexit & d & Hd' & _)].
      * by left.
      * right. eauto 10.
    + left. by rewrite app_nil_r.
  - intros Hdwell. destruct (state final) as [s|]; [|discriminate].
    destruct Hst as (_ & Hts & _ & Htstop & _).
    split; [done|]. split; [done|].
    intros Hin. unfold get_dwells in Hin. fold final in Hin.
    rewrite Forall_forall in Hcomplete.
    destruct (Hcomplete _ Hin) as (_ & _ & [x Hx] & _). congruence.
Qed.

(** A dwell that begins and is not ended is not returned; with the change to
    [NMAN] after it, it is. *)
Example get_dwells_trailing :
  get_dwells (manvr_sequence [change_stdy; change_kalm] 0 1 13000%Q) = [] /\
  get_dwells (manvr_sequence [change_stdy; change_kalm; change_nman] 0 2 13000%Q) =
    [mkDwell (Some (((26201 # 2) + (26199 # 2)) / 2 - 13000)%Q) (Some (26201 # 2))
             (Some "2017:001:03:38:20.500") (Some (39999 # 2))
             (Some "2017:001:05:33:19.500")].
Proof. repeat apply conj; vm_compute; reflexivity. Qed.

(** ** The anomalous flag *)

(** The loop raises at the first change whose MSID has no nominal values,
    when every change before it is nominal. *)
Lemma anomalous_loop_KeyError (before : list Change) (change : Change)
    (later : list Change) :
  Forall (fun c => exists nominal,
            assoc_get (msid c) nom_vals = Some nominal /\ val c ∈ nominal) before ->
  assoc_get (msid change) nom_vals = None ->
  anomalous_loop (before ++ change :: later) = Raise (KeyError (msid change)).
Proof.
  intros Hbefore Hnone.
  induction Hbefore as [|c before (nominal & Hnom & Hval) _ IH]; cbn [anomalous_loop app].
  - by rewrite Hnone.
  - rewrite Hnom. rewrite bool_decide_eq_true_2 by done. exact IH.
Qed.

(** On changes of the four MSIDs of [nom_vals], [anomalous] is the boolean of
    the specification. *)
Lemma anomalous_loop_nominal_msids (changes : list Change) :
  Forall (fun c => is_Some (assoc_get (msid c) nom_vals)) changes ->
  anomalous_loop changes =
    Ok (existsb (fun c => match assoc_get (msid c) nom_vals with
                          | Some nominal => negb (bool_decide (val c ∈ nominal))
                          | None => false
                          end) changes).
Proof.
  induction 1 as [|c changes [nominal Hnom] _ IH]; cbn [anomalous_loop existsb]; [done|].
  rewrite Hnom. destruct (negb (bool_decide (val c ∈ nominal))); [done|exact IH].
Qed.


(** C9: a momentum-unload change after the end of the maneuver passes the
    filter of [get_events], and the loop that sets [anomalous] then raises
    [KeyError]: [nom_vals] has no entry for [aounload]. *)
Theorem anomalous_aounload_KeyError :
  map (fun c => (msid c, val c, Qle_bool ZERO_DT (dt c)))
      (manvr_sequence [change_stdy; change_unload] 0 1 13000%Q) =
    [("aofattmd", "STDY", true); ("aounload", "GRND", true)] /\
  get_anomalous (manvr_sequence [change_stdy; change_unload] 0 1 13000%Q) =
    Raise (KeyError "aounload") /\
  get_manvr_attrs [] (manvr_sequence [change_stdy; change_unload] 0 1 13000%Q) =
    Raise (KeyError "aounload") /\
  get_anomalous (manvr_sequence [change_stdy] 0 0 13000%Q) = Ok false.
Proof. repeat apply conj; vm_compute; reflexivity. Qed.

End EventsSpec.


(** * Further properties of the commanded-state interpreter *)

Module StatesProps.
Import States Scenario StatesSpec.

(** ** [unique] *)

Lemma NoDup_unique_from (seen seq : list string) : NoDup (unique_from seen seq).
Proof.
  revert seen. induction seq as [|x seq IH]; intros seen; simpl; [constructor|].
  unfold str_in. case_bool_decide as Hx; [apply IH|].
  constructor; [|apply IH].
  rewrite elem_of_unique_from. intros [_ Hn]. apply Hn. left.
Qed.

Lemma sublist_unique_from (seen seq : list string) : sublist (unique_from seen seq) seq.
Proof.
  revert seen. induction seq as [|x seq IH]; intros seen; simpl; [constructor|].
  unfold str_in. case_bool_decide; [apply sublist_cons | apply sublist_skip]; apply IH.
Qed.

Lemma unique_from_NoDup (seen seq : list string) :
  NoDup seq -> (forall x, x ∈ seq -> x ∉ seen) -> unique_from seen seq = seq.
Proof.
  revert seen. induction seq as [|x seq IH]; intros seen Hnd Hseen; simpl; [done|].
  apply NoDup_cons in Hnd as [Hx Hnd].
  unfold str_in. rewrite bool_decide_eq_false_2 by (apply Hseen; left).
  f_equal. apply IH; [done|].
  intros y Hy. rewrite elem_of_cons. intros [->|Hin]; [done|].
  apply (Hseen y); [by right|done].
Qed.

(** X1: [unique(seq)] has no duplicates, holds exactly the elements of
    [seq], keeps them in the order of [seq], and returns a list without
    duplicates as it is; so applying it twice is applying it once. *)
Theorem unique_spec (seq : list string) :
  NoDup (unique seq) /\
  (forall x, x ∈ unique seq <-> x ∈ seq) /\
  sublist (unique seq) seq /\
  (NoDup seq -> unique seq = seq) /\
  unique (unique seq) = unique seq.
Proof.
  split; [apply NoDup_unique_from|].
  split; [intros x; apply elem_of_unique|].
  split; [apply sublist_unique_from|].
  assert (Hfix : forall l, NoDup l -> unique l = l).
  { intros l Hl. apply unique_from_NoDup; [done|]. intros x _. apply not_elem_of_nil. }
  split; [apply Hfix|]. apply Hfix, NoDup_unique_from.
Qed.

(** ** [add_transition] on success *)

Lemma sublist_insert_after (t : Transition) (rest : list Transition) :
  sublist rest (insert_after t rest).
Proof.
  induction rest as [|x rest IH]; simpl; [apply sublist_nil_l|].
  destruct (String.ltb (t_date t) (t_date x)).
  - by apply sublist_cons.
  - by apply sublist_skip.
Qed.

Lemma insert_after_Permutation (t : Transition) (rest : list Transition) :
  insert_after t rest ≡ₚ t :: rest.
Proof.
  induction rest as [|x rest IH]; simpl; [done|].
  destruct (String.ltb (t_date t) (t_date x)); [done|].
  rewrite IH. apply Permutation_swap.
Qed.

Lemma add_transition_sublist (tr : list Transition) (idx : nat) (t : Transition)
    (tr' : list Transition) :
  add_transition tr idx t = Ok tr' -> sublist tr tr'.
Proof.
  intros H. apply add_transition_Ok in H as (cur & _ & _ & ->).
  rewrite <- (take_drop (S idx) tr) at 1.
  apply sublist_app; [done|apply sublist_insert_after].
Qed.

(** X2: a successful [add_transition] inserts the new transition and does
    nothing else: the list is one longer, it is the old list with the new
    transition put somewhere after the cursor (the old transitions keep
    their order and the part up to the cursor is unchanged), and a list in
    date order stays in date order. *)
Theorem add_transition_extends (transitions : list Transition) (idx : nat)
    (transition : Transition) (transitions' : list Transition) :
  add_transition transitions idx transition = Ok transitions' ->
  length transitions' = S (length transitions) /\
  take (S idx) transitions' = take (S idx) transitions /\
  transitions' ≡ₚ transition :: transitions /\
  sublist transitions transitions' /\
  (date_sorted transitions -> date_sorted transitions').
Proof.
  intros H.
  pose proof (add_transition_sublist _ _ _ _ H) as Hsub.
  pose proof (add_transition_sorted _ _ _ _ H) as Hsorted.
  apply add_transition_Ok in H as (cur & Hcur & _ & ->).
  apply lookup_lt_Some in Hcur.
  assert (Hlen : length (take (S idx) transitions) = S idx) by (rewrite length_take; lia).
  split.
  { rewrite length_app, length_insert_after, Hlen, length_drop. lia. }
  split.
  { rewrite take_app_le by lia. rewrite take_take. f_equal. lia. }
  split; [|done].
  rewrite insert_after_Permutation. rewrite <- Permutation_middle.
  by rewrite take_drop.
Qed.

Lemma add_transition_extends_witness :
  add_transition transitions_at_manvr 0
    (mkTransition "2017:001:03:36:40.000" [("pcad_mode", Scalar (VStr "NPNT"))]) =
    Ok [mkTransition "2017:001:03:20:00.000"
          [("maneuver", Func (ManeuverTransition_func manvr_cmd))];
        mkTransition "2017:001:03:36:40.000" [("pcad_mode", Scalar (VStr "NPNT"))];
        mkTransition "2017:001:05:33:20.000" [("update_pitch", Func update_pitch_func)]] /\
  length [mkTransition "2017:001:03:20:00.000"
            [("maneuver", Func (ManeuverTransition_func manvr_cmd))];
          mkTransition "2017:001:03:36:40.000" [("pcad_mode", Scalar (VStr "NPNT"))];
          mkTransition "2017:001:05:33:20.000" [("update_pitch", Func update_pitch_func)]] =
    S (length transitions_at_manvr).
Proof.
  split; [reflexivity|].
  exact (proj1 (add_transition_extends transitions_at_manvr 0
                  (mkTransition "2017:001:03:36:40.000" [("pcad_mode", Scalar (VStr "NPNT"))])
                  _ eq_refl)).
Defined.

(** ** The live list through a run *)

Section LiveList.

Variable E : Externals.

Lemma add_manvr_samples_sublist (idx : nat) (samples : list (Att * Q))
    (date0 : string) (tr0 : list Transition) (date : string) (tr : list Transition) :
  fold_result (add_manvr_sample E idx) samples (date0, tr0) = Ok (date, tr) ->
  sublist tr0 tr.
Proof.
  revert date0 tr0. induction samples as [|[att pitch] samples IH]; intros date0 tr0 H.
  - by injection H as <- <-.
  - cbn [fold_result] in H. bind_inv H. destruct a as [date1 tr1].
    rewrite add_manvr_sample_eq in Ha. bind_inv Ha. injection Ha as <- <-.
    apply add_transition_sublist in Ha0. etrans; [exact Ha0|]. by eapply IH.
Qed.

Lemma add_manvr_transitions_sublist (date : string) (tr : list Transition) (st : State)
    (idx : nat) (cmd : Cmd) (end_date : string) (tr' : list Transition) (st' : State) :
  add_manvr_transitions E date tr st idx cmd = Ok (end_date, tr', st') -> sublist tr tr'.
Proof.
  unfold add_manvr_transitions. intros H.
  bind_inv H. bind_inv H. bind_inv H. bind_inv H. bind_inv H. bind_inv H.
  destruct a4 as [d tr1]. injection H as <- <- <-.
  by eapply add_manvr_samples_sublist.
Qed.

Lemma call_func_sublist (f : func) (date : string) (tr : list Transition) (st : State)
    (idx : nat) (tr' : list Transition) (st' : State) :
  call_func E f date tr st idx = Ok (tr', st') -> sublist tr tr'.
Proof.
  intros H. destruct f as [|cmd|cmd]; simpl in H.
  - unfold update_pitch_state in H. bind_inv H.
    destruct (py_eqb a (VStr "NPNT")).
    + bind_inv H. bind_inv H. destruct a1. by injection H as <- <-.
    + by injection H as <- <-.
  - unfold ManeuverTransition_add_transitions in H. bind_inv H.
    destruct a as [[d tr1] st1]. bind_inv H.
    apply add_manvr_transitions_sublist in Ha.
    destruct (py_eqb a (VStr "ENAB")).
    + bind_inv H. injection H as <- <-.
      etrans; [exact Ha|]. by eapply add_transition_sublist.
    + by injection H as <- <-.
  - unfold NormalSunTransition_add_transitions in H. bind_inv H. bind_inv H. bind_inv H.
    destruct a1 as [[d tr1] st1]. injection H as <- <-.
    by apply add_manvr_transitions_sublist in Ha1.
Qed.

Lemma interp_items_sublist (date : string) (idx : nat) (items : list (string * tvalue))
    (ls ls' : LoopState) :
  fold_result (interp_item E date idx) items ls = Ok ls' ->
  sublist (ls_transitions ls) (ls_transitions ls').
Proof.
  revert ls. induction items as [|[key v] items IH]; intros ls H.
  - by injection H as <-.
  - cbn [fold_result] in H. bind_inv H. destruct v as [v|f]; simpl in Ha.
    + injection Ha as <-. apply (IH _ H).
    + bind_inv Ha. destruct a0 as [tr1 st1]. injection Ha as <-.
      apply call_func_sublist in Ha0. etrans; [exact Ha0|]. apply (IH _ H).
Qed.

Lemma interp_transition_sublist (idx : nat) (t : Transition) (ls ls' : LoopState) :
  interp_transition E idx t ls = Ok ls' ->
  sublist (ls_transitions ls) (ls_transitions ls').
Proof.
  unfold interp_transition. intros H. bind_inv H.
  destruct (start_row_spec _ _ _ Ha) as (Htr & _).
  rewrite <- Htr. by eapply interp_items_sublist.
Qed.

Lemma grows_nfunc (idx : nat) (tr tr' : list Transition) :
  grows idx tr tr' -> nfunc tr' = nfunc tr.
Proof.
  intros (_ & Htake & _ & Hdrop & _).
  rewrite <- (take_drop (S idx) tr'), <- (take_drop (S idx) tr) at 1.
  unfold nfunc in *. rewrite !List.filter_app, !length_app. by rewrite Htake, Hdrop.
Qed.

Lemma interp_loop_live_list (fuel : nat) (idx : nat) (ls final : LoopState) :
  interp_loop E fuel idx ls = Some (Ok final) ->
  sublist (ls_transitions ls) (ls_transitions final) /\
  nfunc (ls_transitions final) = nfunc (ls_transitions ls).
Proof.
  revert idx ls. induction fuel as [|fuel IH]; intros idx ls H; [discriminate|].
  simpl in H. destruct (ls_transitions ls !! idx) as [t|] eqn:Ht.
  - destruct (interp_transition E idx t ls) as [ls'|e] eqn:Hstep; [|discriminate].
    destruct (IH _ _ H) as [Hsub Hn].
    pose proof (interp_transition_sublist _ _ _ _ Hstep) as Hsub'.
    destruct (interp_transition_spec _ _ _ _ _ Hstep (lookup_lt_Some _ _ _ Ht)) as (Hg & _).
    split; [by etrans|]. rewrite Hn. by eapply grows_nfunc.
  - by injection H as <-.
Qed.

(** X3: through a run of [get_states_for_cmds] the transition list only
    gains plain transitions: the list as the loop leaves it is in date
    order, the transitions the loop started from are all in it in their
    order, and it holds as many function transitions as at the start. *)
Theorem live_list_grows_in_order (fuel : nat) (cmds : list Cmd)
    (state_keys : option (list string)) (transitions : list Transition) :
  final_transitions E fuel cmds state_keys = Some (Ok transitions) ->
  exists initial,
    initial_transitions E cmds state_keys = Ok initial /\
    sublist initial transitions /\
    nfunc transitions = nfunc initial /\
    date_sorted initial /\
    date_sorted transitions.
Proof.
  unfold final_transitions, initial_transitions. intros H.
  destruct (interpret E fuel cmds state_keys) as [[final|e]|] eqn:Hrun; try discriminate.
  injection H as <-.
  pose proof (live_list_sorted _ _ _ _ _ Hrun) as Hsorted.
  unfold interpret in Hrun.
  destruct (init_loop E cmds (all_state_keys E state_keys)) as [ls|e] eqn:Hinit;
    [|discriminate].
  exists (ls_transitions ls). split; [done|].
  destruct (interp_loop_live_list _ _ _ _ Hrun) as [Hsub Hn].
  split; [done|]. split; [done|]. split; [|done].
  unfold init_loop in Hinit. bind_inv Hinit. bind_inv Hinit. bind_inv Hinit. bind_inv Hinit.
  injection Hinit as <-. simpl. apply sort_by_sorted.
Qed.

(** ** The shape of the table *)

Lemma string_leb_ne_ltb (a b : string) :
  String.leb a b = true -> a <> b -> String.ltb a b = true.
Proof.
  unfold String.leb, String.ltb. destruct (String.compare a b) eqn:Hc; try done.
  apply String.compare_eq_iff in Hc. done.
Qed.

Lemma string_ltb_leb_trans (a b c : string) :
  String.ltb a b = true -> String.leb b c = true -> String.ltb a c = true.
Proof.
  unfold String.leb, String.ltb.
  destruct (String.compare a b) eqn:Eab; try done.
  destruct (String.compare b c) eqn:Ebc; try done; intros _ _.
  - apply String.compare_eq_iff in Ebc as <-. by rewrite Eab.
  - by rewrite (string_compare_lt_trans _ _ _ Eab Ebc).
Qed.

Lemma start_row_datestarts (date : string) (ls ls' : LoopState) :
  start_row date ls = Ok ls' ->
  exists d, last (ls_datestarts ls) = Some d /\
    ls_datestarts ls' =
      if String.eqb date d then ls_datestarts ls else ls_datestarts ls ++ [date].
Proof.
  unfold start_row, list_last. intros H.
  destruct (last (ls_datestarts ls)) as [d|]; simpl in H; [|discriminate].
  exists d. split; [done|].
  destruct (String.eqb date d); simpl in H; by injection H as <-.
Qed.

(** What the loop maintains at cursor [idx]: the list is in date order, the
    [datestarts] increase strictly, and no transition from the cursor on is
    dated before the last [datestart]. *)
Lemma interp_transition_rows_inv (idx : nat) (t : Transition) (ls ls' : LoopState) :
  ls_transitions ls !! idx = Some t ->
  interp_transition E idx t ls = Ok ls' ->
  rows_inv idx ls -> rows_inv (S idx) ls'.
Proof.
  intros Ht Hstep (Hsorted & Hstrict & d & Hlast & Hd).
  pose proof (interp_transition_sorted _ _ _ _ _ Hstep Hsorted) as Hsorted'.
  destruct (interp_transition_spec _ _ _ _ _ Hstep (lookup_lt_Some _ _ _ Ht))
    as ((_ & Htake & _) & _).
  assert (Ht' : ls_transitions ls' !! idx = Some t).
  { rewrite <- (lookup_take_lt (ls_transitions ls') (S idx) idx) by lia.
    rewrite Htake. rewrite lookup_take_lt by lia. done. }
  unfold interp_transition in Hstep. bind_inv Hstep.
  destruct (start_row_datestarts _ _ _ Ha) as (d' & Hlast' & Hds).
  rewrite Hlast in Hlast'. injection Hlast' as <-.
  destruct (start_row_spec _ _ _ Ha) as (Htr & _).
  assert (Hlt : (idx < length (ls_transitions a))%nat)
    by (rewrite Htr; by eapply lookup_lt_Some).
  destruct (interp_items_grows _ _ _ _ _ _ Hstep Hlt) as (_ & _ & Hsame & _).
  unfold rows_inv. rewrite Hsame, Hds. clear Hsame Hds.
  pose proof (Hd idx t (le_n _) Ht) as Hdt.
  split; [done|]. split.
  - destruct (String.eqb_spec (t_date t) d) as [Heq|Hne]; [done|].
    intros i j x y Hij Hx Hy.
    apply lookup_lt_Some in Hx as Hi. 
    destruct (decide (j < length (ls_datestarts ls))%nat) as [Hj|Hj].
    + rewrite lookup_app_l in Hx, Hy by lia. exact (Hstrict i j x y Hij Hx Hy).
    + rewrite lookup_app_r in Hy by lia.
      destruct (j - length (ls_datestarts ls))%nat as [|k] eqn:Hk; [|by destruct k].
      injection Hy as <-.
      assert (Hi' : (i < length (ls_datestarts ls))%nat) by lia.
      rewrite lookup_app_l in Hx by lia.
      assert (Hdlt : String.ltb d (t_date t) = true)
        by (apply string_leb_ne_ltb; [done|congruence]).
      rewrite last_lookup in Hlast.
      destruct (decide (i = pred (length (ls_datestarts ls)))) as [->|Hne'].
      * rewrite Hlast in Hx. by injection Hx as <-.
      * assert (Hip : (i < pred (length (ls_datestarts ls)))%nat) by lia.
        pose proof (Hstrict i _ x d Hip Hx Hlast) as Hxd.
        unfold String.ltb in *.
        destruct (String.compare x d) eqn:E1; try done.
        destruct (String.compare d (t_date t)) eqn:E2; try done.
        by rewrite (string_compare_lt_trans _ _ _ E1 E2).
  - exists (t_date t). split.
    + destruct (String.eqb_spec (t_date t) d) as [->|Hne]; [done|].
      by rewrite last_snoc.
    + intros i x Hi Hx. apply (Hsorted' idx i t x); [lia|done|done].
Qed.

Lemma interp_loop_rows_inv (fuel : nat) (idx : nat) (ls final : LoopState) :
  interp_loop E fuel idx ls = Some (Ok final) ->
  rows_inv idx ls ->
  exists idx', rows_inv idx' final.
Proof.
  revert idx ls. induction fuel as [|fuel IH]; intros idx ls H Hinv; [discriminate|].
  simpl in H. destruct (ls_transitions ls !! idx) as [t|] eqn:Ht.
  - destruct (interp_transition E idx t ls) as [ls'|e] eqn:Hstep; [|discriminate].
    eapply IH; [exact H|]. by eapply interp_transition_rows_inv.
  - injection H as <-. eauto.
Qed.

Lemma init_loop_rows_inv (cmds : list Cmd) (state_keys : list string) (ls : LoopState) :
  init_loop E cmds state_keys = Ok ls -> rows_inv 0 ls.
Proof.
  unfold init_loop. intros H. bind_inv H. bind_inv H. bind_inv H. bind_inv H.
  injection H as <-. unfold list_get in Ha2.
  destruct (add_pitch_transitions E (cmd_date a0) (cmd_date a1) a !! 0%nat) as [t0|] eqn:Ht0;
    [|discriminate].
  injection Ha2 as <-.
  assert (Hsorted : date_sorted (add_pitch_transitions E (cmd_date a0) (cmd_date a1) a))
    by apply sort_by_sorted.
  split; [done|]. split; simpl.
  - intros i j x y Hij Hx Hy. destruct j; [lia|done].
  - exists (t_date t0). split; [done|].
    intros i x _ Hx. destruct i as [|i].
    + rewrite Ht0 in Hx. injection Hx as <-. apply string_leb_refl.
    + apply (Hsorted 0%nat (S i) t0 x); [lia|done|done].
Qed.

Lemma map_result_lookup {A B} (f : A -> result B) (l : list A) (l' : list B) (i : nat)
    (y : B) :
  map_result f l = Ok l' -> l' !! i = Some y -> exists x, l !! i = Some x /\ f x = Ok y.
Proof.
  revert l' i. induction l as [|x l IH]; intros l' i H Hy; simpl in H.
  - injection H as <-. done.
  - bind_inv H. bind_inv H. injection H as <-. destruct i as [|i]; simpl in *.
    + injection Hy as <-. eauto.
    + eauto.
Qed.

Lemma states_table_rows (state_keys : list string) (states : list State)
    (datestarts : list string) (tbl : Table) :
  states_table state_keys states datestarts = Ok tbl ->
  length datestarts = length states ->
  length (rows tbl) = length datestarts /\
  forall i row, rows tbl !! i = Some row ->
    exists d de vals, row = VStr d :: VStr de :: vals /\
      datestarts !! i = Some d /\
      (tail datestarts ++ ["2099:365:00:00:00.000"]) !! i = Some de /\
      length vals = length state_keys.
Proof.
  unfold states_table. intros H Hlen. bind_inv H. bind_inv H. injection H as <-. simpl.
  assert (Hstop : length (tail datestarts ++ ["2099:365:00:00:00.000"]) = length datestarts).
  { rewrite length_app. simpl. destruct datestarts; [discriminate|]. simpl. lia. }
  split.
  - rewrite length_zip_with, length_zip_with. apply length_map_result in Ha. lia.
  - intros i row Hrow.
    apply lookup_zip_with_Some in Hrow as ([d de] & vals & -> & Hdd & Hvals).
    apply lookup_zip_with_Some in Hdd as (d' & de' & Heq & Hd & Hde).
    injection Heq as <- <-. exists d, de, vals. repeat split; try done.
    destruct (map_result_lookup _ _ _ _ _ Ha Hvals) as (st & _ & Hst).
    by apply length_map_result in Hst.
Qed.

(** X4: the table of [get_states_for_cmds] is well formed.  It has at least
    one row and every row has a value for every column; each row stops where
    the next one starts, and the last one stops at the end of 2099; and the
    [datestart] of the rows increase strictly, so no two rows start at the
    same date. *)
Theorem states_table_shape (fuel : nat) (cmds : list Cmd)
    (state_keys : option (list string)) (tbl : Table) :
  get_states_for_cmds E fuel cmds state_keys = Some (Ok tbl) ->
  rows tbl <> [] /\
  (forall row, row ∈ rows tbl -> length row = length (colnames tbl)) /\
  (forall i row row', rows tbl !! i = Some row -> rows tbl !! S i = Some row' ->
     row !! 1%nat = row' !! 0%nat) /\
  (forall row, last (rows tbl) = Some row ->
     row !! 1%nat = Some (VStr "2099:365:00:00:00.000")) /\
  (forall i j ri rj, (i < j)%nat -> rows tbl !! i = Some ri -> rows tbl !! j = Some rj ->
     exists a b, ri !! 0%nat = Some (VStr a) /\ rj !! 0%nat = Some (VStr b) /\
                 String.ltb a b = true).
Proof.
  unfold get_states_for_cmds, interpret. intros H.
  destruct (init_loop E cmds (all_state_keys E state_keys)) as [ls|e] eqn:Hinit;
    [|discriminate].
  destruct (interp_loop E fuel 0 ls) as [[final|e]|] eqn:Hloop; try discriminate.
  injection H as H.
  pose proof (interp_loop_dates_inv _ _ _ _ _ Hloop (init_loop_dates_inv _ _ _ _ Hinit))
    as (_ & _ & Hlen).
  destruct (interp_loop_rows_inv _ _ _ _ Hloop (init_loop_rows_inv _ _ _ Hinit))
    as (idx & _ & Hstrict & d & Hlast & _).
  assert (Hlen' : length (ls_datestarts final) = length (ls_states final ++ [ls_state final]))
    by (rewrite length_app; simpl; lia).
  destruct (states_table_spec _ _ _ _ H Hlen') as [Hcols _].
  destruct (states_table_rows _ _ _ _ H Hlen') as [Hn Hrows].
  set (ds := ls_datestarts final) in *.
  assert (Hds : ds <> []) by (intros Heq; by rewrite Heq in Hlast).
  split; [|split; [|split; [|split]]].
  - intros Heq. rewrite Heq in Hn. by destruct ds.
  - intros row Hrow. apply list_elem_of_lookup in Hrow as [i Hi].
    destruct (Hrows _ _ Hi) as (a & b & vals & -> & _ & _ & Hvals).
    rewrite Hcols. simpl. by rewrite Hvals.
  - intros i row row' Hi Hi'.
    destruct (Hrows _ _ Hi) as (a & b & vals & -> & _ & Hb & _).
    destruct (Hrows _ _ Hi') as (a' & b' & vals' & -> & Ha' & _ & _).
    simpl. enough (Some b = Some a') by congruence. rewrite <- Hb, <- Ha'.
    apply lookup_lt_Some in Ha'.
    rewrite lookup_app_l by (rewrite length_tl; lia).
    destruct ds; [done|]. done.
  - intros row Hrow. rewrite last_lookup in Hrow.
    destruct (Hrows _ _ Hrow) as (a & b & vals & -> & _ & Hb & _).
    simpl. enough (Some b = Some "2099:365:00:00:00.000") by congruence.
    rewrite <- Hb. rewrite Hn.
    rewrite lookup_app_r by (rewrite length_tl; lia).
    rewrite length_tl. by replace (pred (length ds) - (length ds - 1))%nat with 0%nat by lia.
  - intros i j ri rj Hij Hi Hj.
    destruct (Hrows _ _ Hi) as (a & b & vals & -> & Ha & _ & _).
    destruct (Hrows _ _ Hj) as (a' & b' & vals' & -> & Ha' & _ & _).
    exists a, a'. repeat split. by eapply Hstrict.
Qed.


End LiveList.

(** ** An empty batch *)

Section EmptyBatch.

Variable E : Externals.

Lemma set_transitions_nil (cls : TransitionClass) (tr : TransitionsMap) :
  set_transitions E cls tr [] = Ok tr.
Proof. by destruct cls. Qed.

Lemma get_transitions_list_nil (state_keys : option (list string)) :
  get_transitions_list E [] state_keys = Ok [].
Proof.
  unfold get_transitions_list.
  assert (H : forall classes tr,
            fold_result (fun tr cls => set_transitions E cls tr []) classes tr = Ok tr).
  { induction classes as [|cls classes IH]; intros tr; [done|].
    cbn [fold_result]. rewrite set_transitions_nil. apply IH. }
  by rewrite H.
Qed.

(** X5: on a table of no commands [get_states_for_cmds] raises
    [IndexError], whatever keys are asked for: no class produces a
    transition, and [cmds[0]] fails before the loop starts. *)
Theorem get_states_for_cmds_empty (fuel : nat) (state_keys : option (list string)) :
  get_transitions_list E [] state_keys = Ok [] /\
  get_states_for_cmds E fuel [] state_keys = Some (Raise IndexError).
Proof.
  split; [apply get_transitions_list_nil|].
  unfold get_states_for_cmds, interpret, init_loop.
  by rewrite get_transitions_list_nil.
Qed.

End EmptyBatch.

(** ** [reduce_states] *)







Lemma elem_of_mask_rows {A} (l : list A) (mask : list bool) (x : A) :
  x ∈ mask_rows l mask -> exists r, l !! r = Some x /\ mask !! r = Some true.
Proof.
  revert mask. induction l as [|y l IH]; intros [|b mask] H; simpl in H;
    try (by apply elem_of_nil in H).
  destruct b.
  - apply elem_of_cons in H as [->|H]; [by exists 0%nat|].
    destruct (IH _ H) as (r & ? & ?). by exists (S r).
  - destruct (IH _ H) as (r & ? & ?). by exists (S r).
Qed.

Lemma chain_datestop_lookup (rows : list (list value)) (i : nat) (r : list value) :
  Forall (fun row => (2 <= length row)%nat) rows ->
  chain_datestop rows !! i = Some r ->
  exists row, rows !! i = Some row /\ r !! 0%nat = row !! 0%nat /\
    drop 2 r = drop 2 row /\
    r !! 1%nat = match rows !! S i with
                 | Some row' => row' !! 0%nat
                 | None => row !! 1%nat
                 end.
Proof.
  intros Hwf. revert i. induction Hwf as [|row rows Hrow Hwf IH]; intros i Hr; [done|].
  destruct row as [|ds [|de vals]]; simpl in Hrow; try lia.
  destruct rows as [|row' rows'].
  - destruct i; simpl in Hr; [|done]. injection Hr as <-. eexists. done.
  - destruct row' as [|ds' rest']; [apply Forall_inv in Hwf; simpl in Hwf; lia|].
    change (chain_datestop ((ds :: de :: vals) :: (ds' :: rest') :: rows'))
      with ((ds :: ds' :: vals) :: chain_datestop ((ds' :: rest') :: rows')) in Hr.
    destruct i as [|i].
    + injection Hr as <-. eexists. done.
    + simpl in Hr. destruct (IH _ Hr) as (row & H1 & H2 & H3 & H4). exists row. done.
Qed.

(** X7: the table that [reduce_states] returns is contiguous and holds only
    rows at which something changed.  Its columns are [datestart],
    [datestop] and the keys; each row stops where the next row starts; and
    each row carries the [datestart] and the values of a row [r >= 1] of
    the input at which the column of some key differs from row [r - 1]. *)
Theorem reduce_states_rows (states : Table) (state_keys : list string) (out : Table) :
  reduce_states states state_keys = Ok out ->
  exists selected,
    table_select states ("datestart" :: "datestop" :: state_keys) = Ok selected /\
    colnames out = "datestart" :: "datestop" :: state_keys /\
    (forall i row row', rows out !! i = Some row -> rows out !! S i = Some row' ->
       row !! 1%nat = row' !! 0%nat) /\
    (forall row, row ∈ rows out ->
       exists r row0 key col,
         (1 <= r)%nat /\ rows selected !! r = Some row0 /\
         row !! 0%nat = row0 !! 0%nat /\ drop 2 row = drop 2 row0 /\
         key ∈ state_keys /\ table_column states key = Ok col /\ differs col r = true).
Proof.
  intros H.
  destruct (reduce_states_kept _ _ _ H) as (mask & sel & Hsel & Hlen & Hmask & Hiff & H0 & ->).
  exists sel. split; [done|]. split; [done|]. simpl.
  assert (Hwf : Forall (fun row => (2 <= length row)%nat) (rows sel)).
  { unfold table_select in Hsel.
    destruct (map_result _ ("datestart" :: "datestop" :: state_keys)) as [idxs|] eqn:Hidx;
      cbn [mbind result_bind] in Hsel; [|discriminate].
    destruct (map_result _ (rows states)) as [rows'|] eqn:Hrows;
      cbn [mbind result_bind] in Hsel; [|discriminate].
    injection Hsel as <-. simpl. apply length_map_result in Hidx. simpl in Hidx.
    apply Forall_forall. intros row Hrow. apply list_elem_of_lookup in Hrow as [i Hi].
    destruct (map_result_lookup _ _ _ _ _ Hrows Hi) as (row0 & _ & Hrow0).
    apply length_map_result in Hrow0. lia. }
  assert (Hwf' : Forall (fun row => (2 <= length row)%nat) (mask_rows (rows sel) mask)).
  { apply Forall_forall. intros row Hrow.
    destruct (elem_of_mask_rows _ _ _ Hrow) as (r & Hr & _).
    rewrite Forall_forall in Hwf. apply Hwf. by eapply list_elem_of_lookup_2. }
  split.
  - intros i row row' Hi Hi'.
    destruct (chain_datestop_lookup _ _ _ Hwf' Hi) as (row0 & H1 & _ & _ & H4).
    destruct (chain_datestop_lookup _ _ _ Hwf' Hi') as (row1 & H1' & H2' & _).
    rewrite H1' in H4. congruence.
  - intros row Hrow. apply list_elem_of_lookup in Hrow as [i Hi].
    destruct (chain_datestop_lookup _ _ _ Hwf' Hi) as (row0 & H1 & H2 & H3 & _).
    destruct (elem_of_mask_rows _ _ _ (list_elem_of_lookup_2 _ _ _ H1)) as (r & Hr & Hm).
    destruct (proj1 (Hiff r) Hm) as (key & col & Hkey & Hcol & Hdiff).
    exists r, row0, key, col. repeat split; try done.
    destruct r; [done|lia].
Qed.

(** ** The registry and the classes that run *)

Lemma class_definitions_complete (cls : TransitionClass) : cls ∈ class_definitions.
Proof. apply (bool_decide_unpack _). by destruct cls; vm_compute. Qed.

(** [TRANSITIONS[k]] holds the classes whose [state_keys] have [k]. *)
Lemma TRANSITIONS_sound :
  Forall (fun entry => Forall (fun cls => entry.1 ∈ state_keys_of cls) entry.2) TRANSITIONS.
Proof. apply (bool_decide_unpack _). by vm_compute. Qed.

Lemma TRANSITIONS_complete :
  Forall (fun cls =>
            Forall (fun k => Exists (fun entry => entry.1 = k /\ cls ∈ entry.2) TRANSITIONS)
                   (state_keys_of cls))
         class_definitions.
Proof. apply (bool_decide_unpack _). by vm_compute. Qed.

Lemma TRANSITIONS_spec (k : string) (cls : TransitionClass) :
  (exists classes, (k, classes) ∈ TRANSITIONS /\ cls ∈ classes) <-> k ∈ state_keys_of cls.
Proof.
  split.
  - intros (classes & Hin & Hcls). pose proof TRANSITIONS_sound as H.
    rewrite Forall_forall in H. specialize (H _ Hin). simpl in H.
    rewrite Forall_forall in H. by apply H.
  - intros Hk. pose proof TRANSITIONS_complete as H. rewrite Forall_forall in H.
    specialize (H cls (class_definitions_complete cls)). rewrite Forall_forall in H.
    specialize (H k Hk). apply Exists_exists in H as ([k' classes] & Hin & <- & Hcls).
    eauto.
Qed.

(** Two classes that share a state key have the same state keys. *)
Lemma state_keys_of_groups (cls cls' : TransitionClass) (k : string) :
  k ∈ state_keys_of cls -> k ∈ state_keys_of cls' ->
  state_keys_of cls = state_keys_of cls'.
Proof.
  intros H H'.
  assert (Hall : Forall (fun c => Forall (fun c' =>
            Forall (fun k => k ∈ state_keys_of c' -> state_keys_of c = state_keys_of c')
                   (state_keys_of c)) class_definitions) class_definitions).
  { apply (bool_decide_unpack _). by vm_compute. }
  rewrite Forall_forall in Hall. specialize (Hall cls (class_definitions_complete cls)).
  rewrite Forall_forall in Hall. specialize (Hall cls' (class_definitions_complete cls')).
  rewrite Forall_forall in Hall. by apply (Hall k).
Qed.

Section Classes.

Variable E : Externals.
Hypothesis set_iter_ok : set_iter_spec E.

Lemma elem_of_get_transition_classes (state_keys : list string) (cls : TransitionClass) :
  cls ∈ get_transition_classes E (Some state_keys) <->
  exists k, k ∈ state_keys /\ k ∈ state_keys_of cls.
Proof.
  unfold get_transition_classes. rewrite (proj2 (set_iter_ok _)).
  pose proof TRANSITIONS_spec as Hspec. revert Hspec. generalize TRANSITIONS.
  intros registry Hspec.
  rewrite list_elem_of_In, in_concat. split.
  - intros (classes & Hin & Hcls). apply in_map_iff in Hin as ([k cs] & Heq & Hin).
    simpl in Heq. subst cs.
    apply List.filter_In in Hin as [Hin Hk].
    unfold str_in in Hk. apply bool_decide_eq_true in Hk.
    exists k. split; [done|]. apply Hspec. exists classes.
    by rewrite !list_elem_of_In.
  - intros (k & Hk & Hcls). apply Hspec in Hcls as (cs & Hin & Hcls).
    exists cs. split; [|by apply list_elem_of_In].
    apply in_map_iff. exists (k, cs). split; [done|].
    apply List.filter_In. split; [by apply list_elem_of_In|].
    unfold str_in. by apply bool_decide_eq_true.
Qed.

Lemma elem_of_all_state_keys (state_keys : list string) (key : string) :
  key ∈ all_state_keys E (Some state_keys) <->
  exists cls k, k ∈ state_keys /\ k ∈ state_keys_of cls /\ key ∈ state_keys_of cls.
Proof.
  unfold all_state_keys. rewrite elem_of_unique, list_elem_of_In, in_concat. split.
  - intros (l & Hl & Hkey). apply in_map_iff in Hl as (k & <- & Hk).
    apply in_concat in Hkey as (l' & Hl' & Hkey).
    apply in_map_iff in Hl' as (cls & <- & Hcls).
    unfold str_in in Hkey. case_bool_decide as Hin; [|done].
    apply list_elem_of_In in Hk, Hkey. exists cls, k. done.
  - intros (cls & k & Hk & Hin & Hkey).
    exists (concat (map (fun cls => if str_in k (state_keys_of cls)
                                    then state_keys_of cls else [])
                        (set_iter E class_definitions))).
    split.
    + apply in_map_iff. exists k. split; [done|]. by apply list_elem_of_In.
    + apply in_concat. exists (state_keys_of cls). split; [|by apply list_elem_of_In].
      apply in_map_iff. exists cls. split.
      * unfold str_in. by rewrite bool_decide_eq_true_2.
      * apply list_elem_of_In, (proj2 (set_iter_ok _)), class_definitions_complete.
Qed.

(** X8: [get_transition_classes] selects a class exactly when one of the
    state keys of the class is asked for, each class once; with no keys
    given it selects every class. *)
Theorem get_transition_classes_selects (state_keys : list string) (cls : TransitionClass) :
  (cls ∈ get_transition_classes E (Some state_keys) <->
     exists k, k ∈ state_keys /\ k ∈ state_keys_of cls) /\
  cls ∈ get_transition_classes E None /\
  NoDup (get_transition_classes E (Some state_keys)) /\
  NoDup (get_transition_classes E None).
Proof.
  split; [apply elem_of_get_transition_classes|].
  split; [|split; apply (proj1 (set_iter_ok _))].
  unfold get_transition_classes. apply (proj2 (set_iter_ok _)).
  destruct (state_keys_of cls) as [|k ks] eqn:Hks; [by destruct cls|].
  assert (Hk : k ∈ state_keys_of cls) by (rewrite Hks; left).
  apply TRANSITIONS_spec in Hk as (cs & Hin & Hcls). revert Hin. generalize TRANSITIONS.
  intros registry Hin.
  apply list_elem_of_In, in_concat. exists cs. split; [|by apply list_elem_of_In].
  apply in_map_iff. exists (k, cs). split; [done|]. by apply list_elem_of_In.
Qed.

(** X9: the keys that [get_states_for_cmds] processes for a request are the
    state keys of the classes that produce a requested key, each once.  So
    they are all known state keys, a requested key that no class produces is
    not among them, and the classes that then run are the classes that
    produce a requested key. *)
Theorem all_state_keys_closure (state_keys : list string) :
  NoDup (all_state_keys E (Some state_keys)) /\
  (forall key, key ∈ all_state_keys E (Some state_keys) <->
     exists cls k, k ∈ state_keys /\ k ∈ state_keys_of cls /\ key ∈ state_keys_of cls) /\
  (forall key, key ∈ all_state_keys E (Some state_keys) -> key ∈ STATE_KEYS) /\
  (forall key, key ∈ state_keys -> key ∈ STATE_KEYS ->
     key ∈ all_state_keys E (Some state_keys)) /\
  (forall cls, cls ∈ get_transition_classes E (Some (all_state_keys E (Some state_keys))) <->
     exists k, k ∈ state_keys /\ k ∈ state_keys_of cls).
Proof.
  assert (Hkeys : forall key, key ∈ STATE_KEYS <-> exists cls, key ∈ state_keys_of cls).
  { intros key. split.
    - intros Hkey.
      assert (Hall : Forall (fun k => Exists (fun cls => k ∈ state_keys_of cls)
                                             class_definitions) STATE_KEYS).
      { apply (bool_decide_unpack _). by vm_compute. }
      rewrite Forall_forall in Hall. apply Hall, Exists_exists in Hkey as (cls & _ & ?).
      eauto.
    - intros [cls Hcls].
      assert (Hall : Forall (fun cls => Forall (fun k => k ∈ STATE_KEYS) (state_keys_of cls))
                            class_definitions).
      { apply (bool_decide_unpack _). by vm_compute. }
      rewrite Forall_forall in Hall. specialize (Hall cls (class_definitions_complete cls)).
      rewrite Forall_forall in Hall. by apply Hall. }
  split; [apply NoDup_unique_from|].
  split; [apply elem_of_all_state_keys|].
  split; [|split].
  - intros key Hkey. apply elem_of_all_state_keys in Hkey as (cls & _ & _ & _ & Hkey).
    apply Hkeys. eauto.
  - intros key Hkey Hknown. apply Hkeys in Hknown as [cls Hcls].
    apply elem_of_all_state_keys. eauto.
  - intros cls. rewrite elem_of_get_transition_classes. split.
    + intros (key & Hkey & Hcls).
      apply elem_of_all_state_keys in Hkey as (cls' & k & Hk & Hk' & Hkey).
      exists k. split; [done|].
      by rewrite (state_keys_of_groups cls cls' key Hcls Hkey).
    + intros (k & Hk & Hcls). exists k. split; [|done].
      apply elem_of_all_state_keys. eauto.
Qed.

End Classes.

(** ** The pitch samples *)

Lemma Qceiling_pos_lt (n : nat) (y : Q) :
  (n < Z.to_nat (Qceiling y))%nat <-> (inject_Z (Z.of_nat n) < y)%Q.
Proof.
  pose proof (Qle_ceiling y) as Hle. pose proof (Qceiling_lt y) as Hlt.
  split.
  - intros H. assert (Hz : (Z.of_nat n <= Qceiling y - 1)%Z) by lia.
    rewrite Zle_Qle in Hz. lra.
  - intros H. assert (Hq : (inject_Z (Z.of_nat n) < inject_Z (Qceiling y))%Q) by lra.
    rewrite <- Zlt_Qlt in Hq. lia.
Qed.

Lemma elem_of_np_arange (start stop step x : Q) :
  (0 < step)%Q ->
  x ∈ np_arange start stop step <->
  exists n : nat, x = (start + inject_Z (Z.of_nat n) * step)%Q /\
                  (start + inject_Z (Z.of_nat n) * step < stop)%Q.
Proof.
  intros Hstep. unfold np_arange. rewrite list_elem_of_fmap.
  assert (Hn : forall n : nat,
            (n < Z.to_nat (Qceiling ((stop - start) / step)))%nat <->
            (start + inject_Z (Z.of_nat n) * step < stop)%Q).
  { intros n. rewrite Qceiling_pos_lt. split; intros H.
    - apply (Qmult_lt_r _ _ step Hstep) in H.
      assert (Heq : ((stop - start) / step * step == stop - start)%Q) by (field; lra).
      lra.
    - apply (Qmult_lt_r _ _ step Hstep).
      assert (Heq : ((stop - start) / step * step == stop - start)%Q) by (field; lra).
      lra. }
  split.
  - intros (n & -> & Hin). apply elem_of_seq in Hin. exists n. split; [done|].
    apply Hn. lia.
  - intros (n & -> & Hlt). exists n. split; [done|]. apply elem_of_seq. apply Hn in Hlt. lia.
Qed.

Section PitchSamples.

Variable E : Externals.

Lemma add_pitch_transitions_grid_lemma (start stop : string) (transitions : list Transition) :
  let tstart := (inject_Z (Qfloor (DateTime_secs E start / 10000)) * 10000)%Q in
  let tstop := DateTime_secs E stop in
  let sample time :=
    mkTransition (DateTime_date E time) [("update_pitch", Func update_pitch_func)] in
  (tstart <= DateTime_secs E start < tstart + 10000)%Q /\
  (forall t, t ∈ add_pitch_transitions E start stop transitions <->
     t ∈ transitions \/
     exists n : nat, (tstart + inject_Z (Z.of_nat n) * 10000 < tstop)%Q /\
                     t = sample (tstart + inject_Z (Z.of_nat n) * 10000)%Q) /\
  date_sorted (add_pitch_transitions E start stop transitions) /\
  ((DateTime_secs E start < tstop)%Q ->
     sample (tstart + inject_Z (Z.of_nat 0) * 10000)%Q
       ∈ add_pitch_transitions E start stop transitions).
Proof.
  intros tstart tstop sample.
  assert (Hgrid : (tstart <= DateTime_secs E start < tstart + 10000)%Q).
  { subst tstart. pose proof (Qfloor_le (DateTime_secs E start / 10000)) as H1.
    pose proof (Qlt_floor (DateTime_secs E start / 10000)) as H2.
    rewrite inject_Z_plus in H2. change (inject_Z 1) with 1%Q in H2.
    assert (Heq : (DateTime_secs E start / 10000 * 10000 == DateTime_secs E start)%Q)
      by (field; lra).
    split; lra. }
  assert (Hmem : forall t, t ∈ add_pitch_transitions E start stop transitions <->
     t ∈ transitions \/
     exists n : nat, (tstart + inject_Z (Z.of_nat n) * 10000 < tstop)%Q /\
                     t = sample (tstart + inject_Z (Z.of_nat n) * 10000)%Q).
  { intros t. unfold add_pitch_transitions. rewrite elem_of_sort_by, elem_of_app.
    fold tstart tstop.
    split; (intros [Hin|Hin]; [by left|right]).
    - apply list_elem_of_fmap in Hin as (d & -> & Hd).
      apply list_elem_of_fmap in Hd as (time & -> & Htime).
      apply elem_of_np_arange in Htime as (n & -> & Hlt); [|lra]. by exists n.
    - destruct Hin as (n & Hlt & ->). apply list_elem_of_fmap. eexists. split; [reflexivity|].
      apply list_elem_of_fmap. eexists. split; [reflexivity|].
      apply elem_of_np_arange; [lra|]. by exists n. }
  split; [done|]. split; [done|]. split; [apply sort_by_sorted|].
  intros Hspan. apply Hmem. right. exists 0%nat. split; [|done].
  change (inject_Z (Z.of_nat 0)) with 0%Q. destruct Hgrid as [Hlo Hhi]. lra.
Qed.

(** X10: [add_pitch_transitions] adds one [update_pitch] transition for each
    multiple of 10000 seconds from the last one at or before [start] up to,
    and not including, [stop]; it keeps every transition that was in the
    list, and leaves the list in date order.  A batch that spans a positive
    time has at least one pitch sample. *)
Theorem add_pitch_transitions_grid (start stop : string) (transitions : list Transition) :
  let tstart := (inject_Z (Qfloor (DateTime_secs E start / 10000)) * 10000)%Q in
  let tstop := DateTime_secs E stop in
  let sample time :=
    mkTransition (DateTime_date E time) [("update_pitch", Func update_pitch_func)] in
  (tstart <= DateTime_secs E start < tstart + 10000)%Q /\
  (forall t, t ∈ add_pitch_transitions E start stop transitions <->
     t ∈ transitions \/
     exists n : nat, (tstart + inject_Z (Z.of_nat n) * 10000 < tstop)%Q /\
                     t = sample (tstart + inject_Z (Z.of_nat n) * 10000)%Q) /\
  date_sorted (add_pitch_transitions E start stop transitions) /\
  ((DateTime_secs E start < tstop)%Q ->
     sample (tstart + inject_Z (Z.of_nat 0) * 10000)%Q
       ∈ add_pitch_transitions E start stop transitions).
Proof. apply add_pitch_transitions_grid_lemma. Qed.

End PitchSamples.

(** ** What a maneuver inserts *)

Section ManeuverSamples.

Variable E : Externals.

Lemma add_manvr_samples_spec (idx : nat) (samples : list (Att * Q))
    (date0 : string) (tr0 : list Transition) (date : string) (tr : list Transition) :
  fold_result (add_manvr_sample E idx) samples (date0, tr0) = Ok (date, tr) ->
  tr ≡ₚ map (fun '(att, pitch) => sample_transition E att pitch) samples ++ tr0 /\
  date = from_option (fun '(att, _) => DateTime_date E (att_time att)) date0 (last samples) /\
  forall cur, tr0 !! idx = Some cur ->
    Forall (fun '(att, _) => String.ltb (DateTime_date E (att_time att)) (t_date cur) = false)
           samples.
Proof.
  revert date0 tr0. induction samples as [|[att pitch] samples IH]; intros date0 tr0 H.
  - injection H as <- <-. done.
  - cbn [fold_result] in H. bind_inv H. destruct a as [date1 tr1].
    rewrite add_manvr_sample_eq in Ha. bind_inv Ha. injection Ha as <- <-.
    destruct (IH _ _ H) as (Hperm & Hdate & Hcur).
    pose proof (add_transition_Ok _ _ _ _ Ha0) as (cur & Hc & Hlt & ->).
    split; [|split].
    + rewrite Hperm, insert_after_Permutation. simpl.
      rewrite <- !Permutation_middle. by rewrite take_drop.
    + rewrite Hdate. rewrite last_cons. by destruct (last samples) as [[? ?]|].
    + intros cur' Hc'. rewrite Hc in Hc'. injection Hc' as <-. constructor; [done|].
      apply Hcur. rewrite lookup_app_l by (rewrite length_take; apply lookup_lt_Some in Hc; lia).
      rewrite lookup_take_lt by lia. done.
Qed.

Lemma map_zip_uncurry {A B C} (f : A -> B -> C) (l : list A) (k : list B) :
  map (fun '(a, b) => f a b) (zip l k) = zip_with f l k.
Proof.
  revert k. induction l as [|a l IH]; intros [|b k]; simpl; try done. by rewrite IH.
Qed.

Lemma add_manvr_transitions_expansion (date : string) (transitions : list Transition)
    (state : State) (idx : nat) (cmd : Cmd) (end_manvr_date : string)
    (transitions' : list Transition) (state' : State) :
  add_manvr_transitions E date transitions state idx cmd =
    Ok (end_manvr_date, transitions', state') ->
  exists curr_att targ_att atts last_att pitches cur,
    Maneuver_attitudes E curr_att targ_att (DateTime_secs E (cmd_date cmd)) = Ok atts /\
    last atts = Some last_att /\
    transitions !! idx = Some cur /\
    length pitches = length atts /\
    (forall i att, atts !! i = Some att ->
       pitches !! i = Some (match atts !! S i with
                            | Some next => (att_pitch att + att_pitch next) / 2
                            | None => att_pitch att
                            end)%Q) /\
    transitions' ≡ₚ
      zip_with (sample_transition E) atts pitches ++ transitions /\
    length transitions' = (length transitions + length atts)%nat /\
    Forall (fun att => String.ltb (DateTime_date E (att_time att)) (t_date cur) = false)
           atts /\
    end_manvr_date = DateTime_date E (att_time last_att).
Proof.
  intros H. pose proof (add_manvr_transitions_cursor _ _ _ _ _ _ _ _ _ H) as (cur & Hcur & _).
  unfold add_manvr_transitions in H.
  bind_inv H. bind_inv H. bind_inv H. bind_inv H. bind_inv H. bind_inv H.
  destruct a4 as [d tr1]. injection H as <- <- <-.
  rename a1 into curr_att, a into targ_att, a2 into atts, a3 into last_att.
  set (pitches := zip_with (fun a b => (att_pitch a + att_pitch b) / 2)%Q
                           (removelast atts) (tail atts) ++ [att_pitch last_att]) in *.
  unfold list_last in Ha3. destruct (last atts) as [x|] eqn:Hlast; [|discriminate].
  injection Ha3 as ->.
  assert (Hlen : length pitches = length atts).
  { unfold pitches. rewrite length_app, length_zip_with, length_removelast, length_tl.
    simpl. destruct atts; [done|]. simpl. lia. }
  assert (Hpitch : forall i att, atts !! i = Some att ->
       pitches !! i = Some (match atts !! S i with
                            | Some next => (att_pitch att + att_pitch next) / 2
                            | None => att_pitch att
                            end)%Q).
  { intros i att Hi. unfold pitches. apply lookup_lt_Some in Hi as Hlt.
    destruct (atts !! S i) as [next|] eqn:Hnext.
    - apply lookup_lt_Some in Hnext as Hlt'.
      rewrite lookup_app_l
        by (rewrite length_zip_with, length_removelast, length_tl; lia).
      rewrite lookup_zip_with, lookup_removelast, lookup_tail by lia.
      by rewrite Hi, Hnext.
    - apply lookup_ge_None in Hnext.
      rewrite lookup_app_r
        by (rewrite length_zip_with, length_removelast, length_tl; lia).
      rewrite length_zip_with, length_removelast, length_tl.
      replace (i - _)%nat with 0%nat by lia. simpl.
      rewrite last_lookup in Hlast. replace (pred (length atts)) with i in Hlast by lia.
      congruence. }
  destruct (add_manvr_samples_spec _ _ _ _ _ _ Ha4) as (Hperm & Hdate & Hfor).
  pose proof (map_zip_uncurry (sample_transition E) atts pitches) as Hzip.
  exists curr_att, targ_att, atts, last_att, pitches, cur.
  repeat split; try done.
  - by rewrite <- Hzip.
  - rewrite Hperm, length_app, length_map, length_zip_with. lia.
  - specialize (Hfor _ Hcur). apply Forall_forall. intros att Hatt.
    apply list_elem_of_lookup in Hatt as [i Hi].
    destruct (lookup_lt_is_Some_2 pitches i) as [p Hp];
      [rewrite Hlen; by eapply lookup_lt_Some|].
    rewrite Forall_forall in Hfor.
    apply (Hfor (att, p)). apply list_elem_of_lookup. exists i.
    apply lookup_zip_with_Some. eauto.
  - rewrite Hdate.
    assert (Hl : last (zip atts pitches) = Some (last_att, att_pitch last_att)).
    { rewrite last_lookup in Hlast. rewrite last_lookup, length_zip_with.
      replace (length atts `min` length pitches)%nat with (length atts) by lia.
      apply lookup_zip_with_Some. exists last_att, (att_pitch last_att).
      split; [done|]. split; [done|].
      rewrite (Hpitch _ _ Hlast).
      replace (S (pred (length atts))) with (length atts)
        by (apply lookup_lt_Some in Hlast; lia).
      by rewrite lookup_ge_None_2 by lia. }
    by rewrite Hl.
Qed.

(** X11: a maneuver puts one transition into the list for each sample of the
    attitude profile, and nothing else.  The sample carries the quaternion
    of the attitude and, as pitch, the mean of its pitch and the pitch of the
    next sample (the last sample carries its own pitch).  No sample is dated
    before the maneuver command, and the date returned as the end of the
    maneuver is the date of the last sample. *)
Theorem add_manvr_transitions_samples (date : string) (transitions : list Transition)
    (state : State) (idx : nat) (cmd : Cmd) (end_manvr_date : string)
    (transitions' : list Transition) (state' : State) :
  add_manvr_transitions E date transitions state idx cmd =
    Ok (end_manvr_date, transitions', state') ->
  exists curr_att targ_att atts last_att pitches cur,
    Maneuver_attitudes E curr_att targ_att (DateTime_secs E (cmd_date cmd)) = Ok atts /\
    last atts = Some last_att /\
    transitions !! idx = Some cur /\
    length pitches = length atts /\
    (forall i att, atts !! i = Some att ->
       pitches !! i = Some (match atts !! S i with
                            | Some next => (att_pitch att + att_pitch next) / 2
                            | None => att_pitch att
                            end)%Q) /\
    transitions' ≡ₚ
      zip_with (sample_transition E) atts pitches ++ transitions /\
    length transitions' = (length transitions + length atts)%nat /\
    Forall (fun att => String.ltb (DateTime_date E (att_time att)) (t_date cur) = false)
           atts /\
    end_manvr_date = DateTime_date E (att_time last_att).
Proof. apply add_manvr_transitions_expansion. Qed.

Lemma add_manvr_transitions_state (date : string) (tr : list Transition) (st : State)
    (idx : nat) (cmd : Cmd) (end_date : string) (tr' : list Transition) (st' : State) :
  add_manvr_transitions E date tr st idx cmd = Ok (end_date, tr', st') ->
  forall key, key ∉ QCS -> st' !! key = st !! key.
Proof.
  unfold add_manvr_transitions. intros H.
  bind_inv H. bind_inv H. bind_inv H. bind_inv H. bind_inv H. bind_inv H.
  destruct a4 as [d tr1]. injection H as <- <- <-.
  destruct (seed_attitude_spec _ _ Ha0) as (q1 & Hq1 & Hnone & Hsome).
  intros key Hkey. destruct (decide (q1 = VNone)) as [Heq|Hne].
  - destruct (Hnone Heq) as (t1 & t2 & t3 & t4 & _ & _ & _ & _ & ->).
    unfold QCS in Hkey.
    rewrite !lookup_insert_ne; [done|..]; intros <-; apply Hkey;
      rewrite !elem_of_cons; tauto.
  - by rewrite (Hsome Hne).
Qed.

Lemma foldl_targ_other (l : list (string * Q)) (st : State) (key : string) :
  (forall qc q, (qc, q) ∈ l -> "targ_" +:+ qc <> key) ->
  foldl (fun st '(qc, targ_q) => <["targ_" +:+ qc := VFloat targ_q]> st) st l !! key =
  st !! key.
Proof.
  revert st. induction l as [|[qc q] l IH]; intros st Hne; [done|]. cbn [foldl].
  rewrite IH by (intros qc' q' Hin; apply (Hne qc' q'); by right).
  apply lookup_insert_ne. apply (Hne qc q). left.
Qed.

Lemma foldl_targ_lookup (keys : list string) (vals : list Q) (st : State) (i : nat)
    (qc : string) (q : Q) :
  NoDup (map (fun qc => "targ_" +:+ qc) keys) ->
  keys !! i = Some qc -> vals !! i = Some q ->
  foldl (fun st '(qc, targ_q) => <["targ_" +:+ qc := VFloat targ_q]> st) st (zip keys vals)
    !! ("targ_" +:+ qc) = Some (VFloat q).
Proof.
  revert vals st i. induction keys as [|k keys IH]; intros vals st i Hnd Hk Hv; [done|].
  destruct vals as [|v vals]; [done|]. cbn [map] in Hnd. apply NoDup_cons in Hnd as [Hk0 Hnd].
  destruct i as [|i]; simpl in Hk, Hv.
  - injection Hk as ->. injection Hv as ->. cbn [zip_with foldl].
    rewrite foldl_targ_other; [apply lookup_insert_eq|].
    intros qc' q' Hin Heq. apply Hk0. rewrite <- Heq.
    apply list_elem_of_fmap. exists qc'. split; [done|]. by apply elem_of_zip_l in Hin.
  - cbn [zip_with foldl]. by apply (IH vals _ i).
Qed.

(** X12: the normal-sun transition sets [pcad_mode] to [NSUN] and the target
    quaternion to the normal-sun attitude, runs the maneuver to it, and
    leaves [pcad_mode] at [NSUN]: what it puts into the list are samples of
    the attitude profile, so, unlike a commanded maneuver, it never
    schedules the return to [NPNT]. *)
Theorem normal_sun_stays_NSUN (date : string) (transitions : list Transition)
    (state : State) (idx : nat) (cmd : Cmd) (transitions' : list Transition)
    (state' : State) :
  NormalSunTransition_add_transitions E date transitions state idx cmd =
    Ok (transitions', state') ->
  state' !! "pcad_mode" = Some (VStr "NSUN") /\
  (exists curr_att targ_att,
     Maneuver_NSM_attitude E curr_att (cmd_date cmd) = Ok targ_att /\
     forall i qc targ_q, QCS !! i = Some qc -> targ_att !! i = Some targ_q ->
       state' !! ("targ_" +:+ qc) = Some (VFloat targ_q)) /\
  (forall key, key ∉ QCS ++ map (fun qc => "targ_" +:+ qc) QCS ->
     key <> "pcad_mode" -> state' !! key = state !! key) /\
  (forall t, t ∈ transitions' ->
     t ∈ transitions \/ exists att pitch, t = sample_transition E att pitch).
Proof.
  unfold NormalSunTransition_add_transitions. intros H.
  bind_inv H. bind_inv H. bind_inv H. destruct a1 as [[d tr1] st1]. injection H as <- <-.
  rename a into curr_att, a0 into targ_att.
  pose proof (add_manvr_transitions_state _ _ _ _ _ _ _ _ Ha1) as Hst.
  set (state1 := <["pcad_mode" := VStr "NSUN"]> state) in *.
  set (state2 := foldl (fun st '(qc, targ_q) => <["targ_" +:+ qc := VFloat targ_q]> st)
                       state1 (zip QCS targ_att)) in *.
  assert (Hother : forall key, key ∉ map (fun qc => "targ_" +:+ qc) QCS ->
            state2 !! key = state1 !! key).
  { intros key Hkey. unfold state2. apply foldl_targ_other.
    intros qc q Hin <-. apply Hkey. apply list_elem_of_fmap. exists qc. split; [done|].
    apply elem_of_zip_l in Hin. done. }
  assert (Hq : forall key, key ∈ map (fun qc => "targ_" +:+ qc) QCS -> key ∉ QCS).
  { intros key Hkey. apply (bool_decide_unpack _).
    revert key Hkey. apply Forall_forall. apply (bool_decide_unpack _). by vm_compute. }
  split; [|split; [|split]].
  - rewrite Hst by (apply (bool_decide_unpack _); by vm_compute).
    rewrite Hother by (apply (bool_decide_unpack _); by vm_compute).
    unfold state1. apply lookup_insert_eq.
  - exists curr_att, targ_att. split; [done|]. intros i qc targ_q Hqc Hq'.
    rewrite Hst.
    + unfold state2. apply (foldl_targ_lookup QCS targ_att state1 i); try done.
      apply (bool_decide_unpack _). by vm_compute.
    + apply Hq. apply list_elem_of_fmap. exists qc. split; [done|].
      by eapply list_elem_of_lookup_2.
  - intros key Hkey Hne. apply not_elem_of_app in Hkey as [Hk1 Hk2].
    rewrite Hst by done. rewrite Hother by done. unfold state1.
    by rewrite lookup_insert_ne.
  - intros t Ht.
    destruct (add_manvr_transitions_expansion _ _ _ _ _ _ _ _ Ha1)
      as (c & ta & atts & la & pitches & cur & _ & _ & _ & _ & _ & Hperm & _).
    rewrite Hperm in Ht. apply elem_of_app in Ht as [Ht|Ht]; [right|by left].
    apply list_elem_of_lookup in Ht as [i Hi].
    apply lookup_zip_with_Some in Hi as (att & pitch & -> & _). eauto.
Qed.

End ManeuverSamples.

(** ** A request without a maneuver key *)

Lemma Forall_assoc_set {V} (P : string * V -> Prop) (k : string) (v : V)
    (d : list (string * V)) :
  Forall P d -> P (k, v) -> Forall P (assoc_set k v d).
Proof.
  intros Hd Hv. induction Hd as [|[k' v'] d Hx Hd IH]; simpl.
  - by constructor.
  - destruct (String.eqb k k'); constructor; auto.
Qed.

Lemma assoc_get_Forall {V} (P : string * V -> Prop) (k : string) (v : V)
    (d : list (string * V)) :
  Forall P d -> assoc_get k d = Some v -> exists k', P (k', v).
Proof.
  intros Hd. induction Hd as [|[k' v'] d Hx Hd IH]; simpl; [done|].
  destruct (String.eqb k k'); [|done]. intros [= <-]. eauto.
Qed.

Lemma tmap_entry_plain (key date : string) (tm : TransitionsMap) :
  Forall (fun entry => plain_items key entry.2) tm ->
  plain_items key (default [] (assoc_get date tm)).
Proof.
  intros Htm. destruct (assoc_get date tm) as [items|] eqn:Hget; simpl; [|constructor].
  destruct (assoc_get_Forall _ _ _ _ Htm Hget) as [k' Hk']. done.
Qed.

Lemma tmap_setitem_plain (key date k : string) (v : value) (tm : TransitionsMap) :
  k <> key ->
  Forall (fun entry => plain_items key entry.2) tm ->
  Forall (fun entry => plain_items key entry.2) (tmap_setitem date k (Scalar v) tm).
Proof.
  intros Hk Htm. unfold tmap_setitem. apply Forall_assoc_set; [done|]. simpl.
  apply Forall_assoc_set; [by apply tmap_entry_plain|]. simpl. eauto.
Qed.

Lemma tmap_update_plain (key date : string) (kwargs : list (string * value))
    (tm : TransitionsMap) :
  Forall (fun kw => kw.1 <> key) kwargs ->
  Forall (fun entry => plain_items key entry.2) tm ->
  Forall (fun entry => plain_items key entry.2) (tmap_update date kwargs tm).
Proof.
  intros Hkw Htm. unfold tmap_update.
  assert (H0 : Forall (fun entry => plain_items key entry.2)
                 (assoc_set date (default [] (assoc_get date tm)) tm)).
  { apply Forall_assoc_set; [done|]. by apply tmap_entry_plain. }
  revert H0. generalize (assoc_set date (default [] (assoc_get date tm)) tm).
  induction Hkw as [|[k v] kwargs Hk _ IH]; intros tm' Htm'; [done|].
  cbn [foldl]. apply IH. by apply tmap_setitem_plain.
Qed.

Lemma fold_result_inv {A B} (P : B -> Prop) (body : B -> A -> result B) (l : list A)
    (acc acc' : B) :
  (forall acc x acc', P acc -> body acc x = Ok acc' -> P acc') ->
  P acc -> fold_result body l acc = Ok acc' -> P acc'.
Proof.
  intros Hbody. revert acc. induction l as [|x l IH]; intros acc Hacc H.
  - by injection H as <-.
  - cbn [fold_result] in H. bind_inv H. eauto.
Qed.

Lemma foldl_inv {A B} (P : B -> Prop) (body : B -> A -> B) (l : list A) (acc : B) :
  (forall acc x, P acc -> P (body acc x)) -> P acc -> P (foldl body acc l).
Proof.
  intros Hbody. revert acc. induction l as [|x l IH]; intros acc Hacc; simpl; auto.
Qed.

Section NoManeuverKey.

Variable E : Externals.
Hypothesis set_iter_ok : set_iter_spec E.

Lemma set_transitions_plain (cls : TransitionClass) (tm tm' : TransitionsMap)
    (cmds : list Cmd) :
  "pcad_mode" ∉ state_keys_of cls ->
  Forall (fun entry => plain_items "pcad_mode" entry.2) tm ->
  set_transitions E cls tm cmds = Ok tm' ->
  Forall (fun entry => plain_items "pcad_mode" entry.2) tm'.
Proof.
  intros Hcls Htm H.
  assert (Hmanvr : "pcad_mode" ∈ MANVR_STATE_KEYS)
    by (apply (bool_decide_unpack _); by vm_compute).
  destruct cls; try (exfalso; apply Hcls; exact Hmanvr); cbn [set_transitions] in H.
  all: first
    [ unfold SingleFixedTransition_set_transitions in H; injection H as <-;
      apply foldl_inv; [|done]; intros acc cmd Hacc; by apply tmap_setitem_plain
    | unfold ParamTransition_set_transitions in H;
      refine (fold_result_inv _ _ _ _ _ _ Htm H); cbv beta;
      intros acc cmd acc' Hacc Hbody;
      destruct (REV_PARS_DICT E (cmd_idx cmd)) as [pars|]; [|discriminate];
      destruct (assoc_get _ (rev pars)) as [val|]; [|discriminate];
      injection Hbody as <-; by apply tmap_setitem_plain
    | idtac ].
  unfold ACISTransition_set_transitions in H.
  refine (fold_result_inv _ _ _ _ _ _ Htm H). cbv beta.
  intros acc cmd acc' Hacc Hbody.
  repeat case_match; try (injection Hbody as <-); try done;
    try (apply tmap_update_plain; [by repeat constructor|done]).
  bind_inv Hbody. bind_inv Hbody. bind_inv Hbody. bind_inv Hbody.
  injection Hbody as <-. apply tmap_update_plain; [by repeat constructor|done].
Qed.

Lemma manvr_group (cls : TransitionClass) (k : string) :
  k ∈ MANVR_STATE_KEYS -> k ∈ state_keys_of cls -> "pcad_mode" ∈ state_keys_of cls.
Proof.
  intros Hk Hcls.
  assert (Hall : Forall (fun c => Forall (fun k => k ∈ MANVR_STATE_KEYS ->
                                            "pcad_mode" ∈ state_keys_of c)
                                         (state_keys_of c)) class_definitions).
  { apply (bool_decide_unpack _). by vm_compute. }
  rewrite Forall_forall in Hall.
  specialize (Hall cls (class_definitions_complete cls)).
  rewrite Forall_forall in Hall. by apply (Hall k).
Qed.

Lemma pcad_mode_not_in_closure (state_keys : list string) :
  Forall (fun k => k ∉ MANVR_STATE_KEYS) state_keys ->
  ("pcad_mode" ∉ all_state_keys E (Some state_keys)) /\
  Forall (fun cls => "pcad_mode" ∉ state_keys_of cls)
         (get_transition_classes E (Some (all_state_keys E (Some state_keys)))).
Proof.
  intros Hks. rewrite Forall_forall in Hks.
  assert (Hcls : forall cls k, k ∈ state_keys -> k ∈ state_keys_of cls ->
            "pcad_mode" ∉ state_keys_of cls).
  { intros cls k Hk Hin Hp. apply (Hks k Hk).
    assert (Hm : state_keys_of cls = MANVR_STATE_KEYS).
    { apply (state_keys_of_groups cls NMM_Transition "pcad_mode"); [done|].
      apply (bool_decide_unpack _). by vm_compute. }
    by rewrite <- Hm. }
  split.
  - intros Hin.
    apply (elem_of_all_state_keys E set_iter_ok) in Hin
      as (cls & k & Hk & Hkc & Hp).
    by apply (Hcls cls k).
  - apply Forall_forall. intros cls Hin.
    apply (elem_of_get_transition_classes E set_iter_ok) in Hin
      as (key & Hkey & Hkc).
    apply (elem_of_all_state_keys E set_iter_ok) in Hkey
      as (cls' & k & Hk & Hkc' & Hkey).
    rewrite (state_keys_of_groups cls cls' key Hkc Hkey).
    by apply (Hcls cls' k).
Qed.

Lemma fold_set_transitions_plain (classes : list TransitionClass)
    (tm tm' : TransitionsMap) (cmds : list Cmd) :
  Forall (fun cls => "pcad_mode" ∉ state_keys_of cls) classes ->
  Forall (fun entry => plain_items "pcad_mode" entry.2) tm ->
  fold_result (fun tr cls => set_transitions E cls tr cmds) classes tm = Ok tm' ->
  Forall (fun entry => plain_items "pcad_mode" entry.2) tm'.
Proof.
  intros Hcls. revert tm. induction Hcls as [|cls classes Hc _ IH]; intros tm Htm H.
  - by injection H as <-.
  - cbn [fold_result] in H. bind_inv H. apply (IH a); [|done].
    by eapply set_transitions_plain.
Qed.

Lemma get_transitions_list_plain (cmds : list Cmd) (state_keys : list string)
    (transitions : list Transition) :
  Forall (fun cls => "pcad_mode" ∉ state_keys_of cls)
         (get_transition_classes E (Some state_keys)) ->
  get_transitions_list E cmds (Some state_keys) = Ok transitions ->
  Forall (fun t => plain_items "pcad_mode" (t_items t)) transitions.
Proof.
  intros Hcls H. unfold get_transitions_list in H. bind_inv H. injection H as <-.
  assert (Ha' : Forall (fun entry => plain_items "pcad_mode" entry.2) a).
  { eapply fold_set_transitions_plain; [exact Hcls| |exact Ha]. constructor. }
  apply Forall_forall. intros t Ht. apply list_elem_of_fmap in Ht as ([date items] & -> & Hin).
  apply elem_of_sort_by in Hin. rewrite Forall_forall in Ha'. by apply (Ha' _ Hin).
Qed.

(** A plain transition passes, a pitch sample raises. *)
Lemma interp_plain_transition (idx : nat) (t : Transition) (ls : LoopState) :
  plain_items "pcad_mode" (t_items t) ->
  ls_state ls !! "pcad_mode" = None -> ls_datestarts ls <> [] ->
  exists ls', interp_transition E idx t ls = Ok ls' /\
    ls_transitions ls' = ls_transitions ls /\
    ls_state ls' !! "pcad_mode" = None /\ ls_datestarts ls' <> [].
Proof.
  intros Hplain Hst Hds. unfold interp_transition, start_row, list_last.
  destruct (last (ls_datestarts ls)) as [d|] eqn:Hlast;
    [|by apply last_None in Hlast].
  cbn [mbind result_bind].
  set (ls1 := if negb (String.eqb (t_date t) d)
              then mkLoopState (ls_transitions ls) (ls_states ls ++ [ls_state ls])
                               (ls_state ls) (ls_datestarts ls ++ [t_date t])
              else ls).
  assert (H1 : ls_transitions ls1 = ls_transitions ls /\
               ls_state ls1 !! "pcad_mode" = None /\ ls_datestarts ls1 <> []).
  { unfold ls1. destruct (negb (String.eqb (t_date t) d)); simpl; [|done].
    repeat split; try done. by destruct (ls_datestarts ls). }
  replace (if negb (String.eqb (t_date t) d)
           then Ok (mkLoopState (ls_transitions ls) (ls_states ls ++ [ls_state ls])
                                (ls_state ls) (ls_datestarts ls ++ [t_date t]))
           else Ok ls) with (Ok ls1)
    by (unfold ls1; by destruct (negb (String.eqb (t_date t) d))).
  cbn [mbind result_bind]. destruct H1 as (Htr & Hst1 & Hds1). rewrite <- Htr.
  clear Hst Hds Hlast. revert Hst1 Hds1. generalize ls1. clear ls1 Htr.
  unfold plain_items in Hplain.
  induction Hplain as [|[k v] items [Hk [s Hs]] _ IH]; intros ls1 Hst1 Hds1.
  - exists ls1. done.
  - simpl in Hk, Hs. subst v. cbn [fold_result interp_item mbind result_bind].
    destruct (IH (mkLoopState (ls_transitions ls1) (ls_states ls1)
                              (<[k := s]> (ls_state ls1)) (ls_datestarts ls1)))
      as (ls' & Hrun & Htr & Hst & Hds); [simpl; by rewrite lookup_insert_ne|done|].
    exists ls'. done.
Qed.

Lemma interp_pitch_sample_KeyError (idx : nat) (t : Transition) (ls : LoopState) :
  pitch_sample t ->
  ls_state ls !! "pcad_mode" = None -> ls_datestarts ls <> [] ->
  interp_transition E idx t ls = Raise (KeyError "pcad_mode").
Proof.
  intros Hp Hst Hds. unfold interp_transition, start_row, list_last.
  destruct (last (ls_datestarts ls)) as [d|] eqn:Hlast;
    [|by apply last_None in Hlast].
  cbn [mbind result_bind]. rewrite Hp.
  destruct (negb (String.eqb (t_date t) d)); cbn [mbind result_bind fold_result interp_item];
    unfold call_func, update_pitch_state, dict_get; simpl; by rewrite Hst.
Qed.

Lemma interp_loop_KeyError (n idx : nat) (ls : LoopState) :
  Forall (fun t => plain_items "pcad_mode" (t_items t) \/ pitch_sample t)
         (ls_transitions ls) ->
  (exists i t, (idx <= i)%nat /\ ls_transitions ls !! i = Some t /\ pitch_sample t) ->
  ls_state ls !! "pcad_mode" = None -> ls_datestarts ls <> [] ->
  (length (ls_transitions ls) - idx <= n)%nat ->
  forall fuel, (n < fuel)%nat ->
    interp_loop E fuel idx ls = Some (Raise (KeyError "pcad_mode")).
Proof.
  revert idx ls. induction n as [|n IH]; intros idx ls Hall (i & t & Hi & Ht & Hp) Hst Hds Hlen
    fuel Hfuel.
  - apply lookup_lt_Some in Ht. lia.
  - destruct fuel as [|fuel]; [lia|]. cbn [interp_loop].
    destruct (ls_transitions ls !! idx) as [t0|] eqn:Ht0;
      [|apply lookup_ge_None in Ht0; apply lookup_lt_Some in Ht; lia].
    rewrite Forall_forall in Hall.
    destruct (Hall t0 (list_elem_of_lookup_2 _ _ _ Ht0)) as [Hplain|Hpitch].
    + destruct (interp_plain_transition idx t0 ls Hplain Hst Hds)
        as (ls' & -> & Htr & Hst' & Hds').
      apply IH; try done; try lia.
      * rewrite Htr. by apply Forall_forall.
      * rewrite Htr. exists i, t. split; [|done].
        destruct (decide (i = idx)) as [->|]; [|lia].
        rewrite Ht0 in Ht. injection Ht as ->.
        unfold pitch_sample in Hp. unfold plain_items in Hplain. rewrite Hp in Hplain.
        apply Forall_inv in Hplain as [_ [v Hv]]. discriminate.
      * rewrite Htr. lia.
    + by rewrite (interp_pitch_sample_KeyError idx t0 ls Hpitch Hst Hds).
Qed.

(** X13: a request that holds no maneuver key never gets a table.  When no
    requested key is in [MANVR_STATE_KEYS], the keys that are processed do
    not include [pcad_mode]; the pitch samples are added all the same, and
    on a batch that spans a positive time the first of them looks up
    [state['pcad_mode']]: if the transitions of the commands are assembled
    without error, [get_states_for_cmds] raises [KeyError] for
    [pcad_mode]. *)
Theorem no_manvr_key_KeyError (cmds : list Cmd) (state_keys : list string)
    (cmd_first cmd_last : Cmd) (transitions : list Transition) :
  Forall (fun k => k ∉ MANVR_STATE_KEYS) state_keys ->
  head cmds = Some cmd_first -> last cmds = Some cmd_last ->
  (DateTime_secs E (cmd_date cmd_first) < DateTime_secs E (cmd_date cmd_last))%Q ->
  get_transitions_list E cmds (Some (all_state_keys E (Some state_keys))) = Ok transitions ->
  ("pcad_mode" ∉ all_state_keys E (Some state_keys)) /\
  exists fuel, forall fuel', (fuel <= fuel')%nat ->
    get_states_for_cmds E fuel' cmds (Some state_keys) = Some (Raise (KeyError "pcad_mode")).
Proof.
  intros Hks Hfirst Hlast Hspan Hlist.
  destruct (pcad_mode_not_in_closure state_keys Hks) as [Hclosure Hclasses].
  split; [done|].
  pose proof (get_transitions_list_plain _ _ _ Hclasses Hlist) as Hplain.
  set (L := add_pitch_transitions E (cmd_date cmd_first) (cmd_date cmd_last) transitions).
  destruct (add_pitch_transitions_grid_lemma E (cmd_date cmd_first)
              (cmd_date cmd_last) transitions) as (_ & Hmem & _ & Hsample).
  specialize (Hsample Hspan). fold L in Hmem, Hsample.
  destruct (L !! 0%nat) as [t0|] eqn:Ht0;
    [|apply lookup_ge_None in Ht0; destruct L; [by apply elem_of_nil in Hsample|simpl in Ht0; lia]].
  set (ls0 := mkLoopState L []
                (list_to_map (map (fun key => (key, VNone))
                                  (all_state_keys E (Some state_keys))) : State)
                [t_date t0]).
  assert (Hinit : init_loop E cmds (all_state_keys E (Some state_keys)) = Ok ls0).
  { unfold init_loop. rewrite Hlist. cbn [mbind result_bind].
    unfold list_get, list_last. destruct cmds as [|c cmds']; [done|].
    simpl in Hfirst. injection Hfirst as ->. cbn [lookup list_lookup mbind result_bind].
    rewrite Hlast. cbn [mbind result_bind]. fold L. rewrite Ht0. done. }
  exists (S (length L)). intros fuel' Hfuel.
  unfold get_states_for_cmds, interpret. rewrite Hinit.
  rewrite (interp_loop_KeyError (length L) 0 ls0); try done; try (simpl; lia).
  - simpl. apply Forall_forall. intros t Ht. apply Hmem in Ht as [Ht|(n & _ & ->)].
    + left. rewrite Forall_forall in Hplain. by apply Hplain.
    + by right.
  - simpl. apply list_elem_of_lookup in Hsample as [i Hi]. eexists i, _.
    split; [lia|]. split; [exact Hi|done].
  - simpl. rewrite lookup_unknown_state. by rewrite bool_decide_eq_false_2.
Qed.

End NoManeuverKey.

(** ** The dates of the transitions of a batch *)

Lemma map_fst_assoc_set {V} (k : string) (v : V) (d : list (string * V)) :
  map fst (assoc_set k v d) = if bool_decide (k ∈ map fst d) then map fst d
                              else map fst d ++ [k].
Proof.
  induction d as [|[k' v'] d IH]; simpl; [done|].
  destruct (String.eqb_spec k k') as [->|Hne]; simpl.
  - rewrite bool_decide_eq_true_2 by left. done.
  - rewrite IH. case_bool_decide as Hin.
    + rewrite bool_decide_eq_true_2 by (by right). done.
    + rewrite bool_decide_eq_false_2; [done|]. rewrite not_elem_of_cons. done.
Qed.

Lemma sort_by_Permutation {A} (key : A -> string) (l : list A) : sort_by key l ≡ₚ l.
Proof.
  induction l as [|x l IH]; simpl; [done|].
  assert (Hins : forall l', insert_sorted key x l' ≡ₚ x :: l').
  { induction l' as [|y l' IH']; simpl; [done|].
    destruct (String.leb (key x) (key y)); [done|]. rewrite IH'. apply Permutation_swap. }
  unfold sort_by in IH. by rewrite Hins, IH.
Qed.

Lemma insert_sorted_map {A B} (f : A -> B) (key : B -> string) (x : A) (l : list A) :
  map f (insert_sorted (fun x => key (f x)) x l) = insert_sorted key (f x) (map f l).
Proof.
  induction l as [|y l IH]; simpl; [done|].
  destruct (String.leb (key (f x)) (key (f y))); simpl; [done|]. by rewrite IH.
Qed.

Lemma sort_by_map {A B} (f : A -> B) (key : B -> string) (l : list A) :
  map f (sort_by (fun x => key (f x)) l) = sort_by key (map f l).
Proof.
  induction l as [|x l IH]; [done|].
  change (sort_by (fun x => key (f x)) (x :: l))
    with (insert_sorted (fun x => key (f x)) x (sort_by (fun x => key (f x)) l)).
  change (sort_by key (map f (x :: l)))
    with (insert_sorted key (f x) (sort_by key (map f l))).
  by rewrite insert_sorted_map, IH.
Qed.

Lemma sort_by_ext {A} (key key' : A -> string) (l : list A) :
  (forall x, key x = key' x) -> sort_by key l = sort_by key' l.
Proof.
  intros Hkey. induction l as [|x l IH]; [done|].
  change (sort_by key (x :: l)) with (insert_sorted key x (sort_by key l)).
  change (sort_by key' (x :: l)) with (insert_sorted key' x (sort_by key' l)).
  rewrite IH. generalize (sort_by key' l). intros l'.
  induction l' as [|y l' IH']; simpl; [done|]. by rewrite !Hkey, IH'.
Qed.

Section BatchDates.

Variable E : Externals.
Variable cmds : list Cmd.

Lemma assoc_set_dated (cmd : Cmd) (items : list (string * tvalue)) (tm : TransitionsMap) :
  cmd ∈ cmds -> (dated cmds) tm -> (dated cmds) (assoc_set (cmd_date cmd) items tm).
Proof.
  intros Hcmd [Hnd Hall]. unfold dated. rewrite map_fst_assoc_set.
  case_bool_decide as Hin; [done|]. split.
  - apply NoDup_app. split; [done|]. split; [|apply NoDup_singleton].
    intros d Hd Hd'. apply list_elem_of_singleton in Hd' as ->. done.
  - apply Forall_app. split; [done|]. constructor; [eauto|constructor].
Qed.

Lemma tmap_setitem_dated (cmd : Cmd) (k : string) (v : tvalue) (tm : TransitionsMap) :
  cmd ∈ cmds -> (dated cmds) tm -> (dated cmds) (tmap_setitem (cmd_date cmd) k v tm).
Proof. intros. unfold tmap_setitem. by apply assoc_set_dated. Qed.

Lemma tmap_update_dated (cmd : Cmd) (kwargs : list (string * value)) (tm : TransitionsMap) :
  cmd ∈ cmds -> (dated cmds) tm -> (dated cmds) (tmap_update (cmd_date cmd) kwargs tm).
Proof.
  intros Hcmd Htm. unfold tmap_update. apply foldl_inv.
  - intros acc [k v] Hacc. by apply tmap_setitem_dated.
  - by apply assoc_set_dated.
Qed.

Lemma fold_result_inv_Forall {A B} (P : B -> Prop) (R : A -> Prop)
    (body : B -> A -> result B) (l : list A) (acc acc' : B) :
  (forall acc x acc', R x -> P acc -> body acc x = Ok acc' -> P acc') ->
  Forall R l -> P acc -> fold_result body l acc = Ok acc' -> P acc'.
Proof.
  intros Hbody Hl. revert acc. induction Hl as [|x l Hx _ IH]; intros acc Hacc H.
  - by injection H as <-.
  - cbn [fold_result] in H. bind_inv H. eauto.
Qed.

Lemma foldl_inv_Forall {A B} (P : B -> Prop) (R : A -> Prop) (body : B -> A -> B)
    (l : list A) (acc : B) :
  (forall acc x, R x -> P acc -> P (body acc x)) -> Forall R l -> P acc ->
  P (foldl body acc l).
Proof.
  intros Hbody Hl. revert acc. induction Hl as [|x l Hx _ IH]; intros acc Hacc; simpl; auto.
Qed.

Lemma get_state_changing_commands_in (cls : TransitionClass) :
  Forall (fun cmd => cmd ∈ cmds) (get_state_changing_commands cls cmds).
Proof.
  apply Forall_forall. intros cmd Hcmd. unfold get_state_changing_commands in Hcmd.
  apply list_elem_of_In, List.filter_In in Hcmd as [Hcmd _]. by apply list_elem_of_In.
Qed.

Lemma set_transitions_dated (cls : TransitionClass) (tm tm' : TransitionsMap) :
  (dated cmds) tm -> set_transitions E cls tm cmds = Ok tm' -> (dated cmds) tm'.
Proof.
  intros Htm H. pose proof (get_state_changing_commands_in cls) as Hin.
  destruct cls; cbn [set_transitions] in H.
  all: first
    [ unfold SingleFixedTransition_set_transitions in H; injection H as <-;
      refine (foldl_inv_Forall _ _ _ _ _ _ Hin Htm); cbv beta;
      intros acc cmd Hcmd Hacc; by apply tmap_setitem_dated
    | unfold ManeuverTransition_set_transitions in H; injection H as <-;
      refine (foldl_inv_Forall _ _ _ _ _ _ Hin Htm); cbv beta;
      intros acc cmd Hcmd Hacc; by apply tmap_setitem_dated
    | unfold ParamTransition_set_transitions in H;
      refine (fold_result_inv_Forall _ _ _ _ _ _ _ Hin Htm H); cbv beta;
      intros acc cmd acc' Hcmd Hacc Hbody;
      destruct (REV_PARS_DICT E (cmd_idx cmd)) as [pars|]; [|discriminate];
      destruct (assoc_get _ (rev pars)) as [val|]; [|discriminate];
      injection Hbody as <-; by apply tmap_setitem_dated
    | idtac ].
  - unfold TargQuatTransition_set_transitions in H.
    refine (fold_result_inv_Forall _ _ _ _ _ _ _ Hin Htm H). cbv beta.
    intros acc cmd acc' Hcmd Hacc Hbody.
    refine (fold_result_inv _ _ _ _ _ _ _ Hbody).
    + cbv beta. intros acc0 qc acc0' Hacc0 Hq. bind_inv Hq. injection Hq as <-.
      by apply tmap_setitem_dated.
    + by apply tmap_update_dated.
  - unfold ACISTransition_set_transitions in H.
    refine (fold_result_inv_Forall _ _ _ _ _ _ _ Hin Htm H). cbv beta.
    intros acc cmd acc' Hcmd Hacc Hbody.
    repeat case_match; try (injection Hbody as <-); try done;
      try (by apply tmap_update_dated).
    bind_inv Hbody. bind_inv Hbody. bind_inv Hbody. bind_inv Hbody.
    injection Hbody as <-. by apply tmap_update_dated.
Qed.

Lemma get_transitions_list_dated (state_keys : option (list string))
    (transitions : list Transition) :
  get_transitions_list E cmds state_keys = Ok transitions ->
  date_sorted transitions /\ NoDup (map t_date transitions) /\
  Forall (fun t => exists cmd, cmd ∈ cmds /\ cmd_date cmd = t_date t) transitions.
Proof.
  intros H. unfold get_transitions_list in H. bind_inv H. injection H as <-.
  assert (Ha' : (dated cmds) a).
  { refine (fold_result_inv (dated cmds) _ _ _ _ _ _ Ha).
    - cbv beta. intros acc cls acc' Hacc Hset. by eapply set_transitions_dated.
    - split; constructor. }
  destruct Ha' as [Hnd Hall].
  set (mk := fun '(date, items) => mkTransition date items).
  assert (Hkey : forall entry : string * list (string * tvalue), t_date (mk entry) = entry.1)
    by (by intros [? ?]).
  assert (Hsort : map mk (sort_by fst a) = sort_by t_date (map mk a)).
  { rewrite <- (sort_by_map mk t_date). f_equal. by apply sort_by_ext. }
  assert (Hdates : map t_date (map mk (sort_by fst a)) ≡ₚ map fst a).
  { rewrite sort_by_Permutation. rewrite map_map.
    rewrite (map_ext (fun x => t_date (mk x)) fst Hkey). done. }
  split; [rewrite Hsort; apply sort_by_sorted|]. split.
  - by rewrite Hdates.
  - apply Forall_forall. intros t Ht.
    assert (Hd : t_date t ∈ map fst a).
    { rewrite <- Hdates. apply list_elem_of_fmap. eauto. }
    rewrite Forall_forall in Hall. by apply Hall.
Qed.

(** X14: [get_transitions_list] returns one transition for each date at
    which a command of the batch set something: the dates of the list
    increase strictly, and each is the date of a command of the batch. *)
Theorem get_transitions_list_dates (state_keys : option (list string))
    (transitions : list Transition) :
  get_transitions_list E cmds state_keys = Ok transitions ->
  (forall i j x y, (i < j)%nat -> transitions !! i = Some x -> transitions !! j = Some y ->
     String.ltb (t_date x) (t_date y) = true) /\
  (forall t, t ∈ transitions -> exists cmd, cmd ∈ cmds /\ cmd_date cmd = t_date t).
Proof.
  intros H. destruct (get_transitions_list_dated _ _ H) as (Hsorted & Hnd & Hall).
  split.
  - intros i j x y Hij Hx Hy. apply string_leb_ne_ltb.
    + by apply (Hsorted i j).
    + intros Heq.
      assert (Hi : map t_date transitions !! i = Some (t_date x))
        by (by rewrite list_lookup_fmap, Hx).
      assert (Hj : map t_date transitions !! j = Some (t_date x))
        by (by rewrite list_lookup_fmap, Hy, Heq).
      pose proof (NoDup_lookup _ _ _ _ Hnd Hi Hj). lia.
  - intros t Ht. rewrite Forall_forall in Hall. by apply Hall.
Qed.

End BatchDates.

(** ** The theorems above on the sample inputs *)

Lemma live_list_grows_in_order_witness :
  final_transitions sample_externals 20 cmds_manvr (Some ["pitch"]) =
    Some (Ok transitions_manvr_run) /\
  exists initial,
    initial_transitions sample_externals cmds_manvr (Some ["pitch"]) = Ok initial /\
    sublist initial transitions_manvr_run /\
    nfunc transitions_manvr_run = nfunc initial /\
    date_sorted initial /\
    date_sorted transitions_manvr_run.
Proof.
  split; [vm_compute; reflexivity|].
  apply (live_list_grows_in_order sample_externals 20 cmds_manvr (Some ["pitch"])).
  vm_compute; reflexivity.
Defined.

Lemma states_table_shape_witness :
  get_states_for_cmds sample_externals 10 cmds_auto (Some ["auto_npnt"]) =
    Some (Ok table_auto) /\
  rows table_auto <> [] /\
  (forall row, row ∈ rows table_auto -> length row = length (colnames table_auto)) /\
  (forall i row row', rows table_auto !! i = Some row -> rows table_auto !! S i = Some row' ->
     row !! 1%nat = row' !! 0%nat) /\
  (forall row, last (rows table_auto) = Some row ->
     row !! 1%nat = Some (VStr "2099:365:00:00:00.000")) /\
  (forall i j ri rj, (i < j)%nat ->
     rows table_auto !! i = Some ri -> rows table_auto !! j = Some rj ->
     exists a b, ri !! 0%nat = Some (VStr a) /\ rj !! 0%nat = Some (VStr b) /\
                 String.ltb a b = true).
Proof.
  split; [vm_compute; reflexivity|].
  apply (states_table_shape sample_externals 10 cmds_auto (Some ["auto_npnt"])).
  vm_compute; reflexivity.
Defined.



Lemma reduce_states_rows_witness :
  reduce_states table_modes ["pcad_mode"] =
    Ok (mkTable ["datestart"; "datestop"; "pcad_mode"]
      [[VStr "2017:001:02:46:40.000"; VStr "2017:001:05:33:20.000"; VStr "NMAN"];
       [VStr "2017:001:05:33:20.000"; VStr "2099:365:00:00:00.000"; VStr "NPNT"]]) /\
  exists selected,
    table_select table_modes ["datestart"; "datestop"; "pcad_mode"] = Ok selected /\
    ["datestart"; "datestop"; "pcad_mode"] = ["datestart"; "datestop"; "pcad_mode"] /\
    (forall i row row',
       [[VStr "2017:001:02:46:40.000"; VStr "2017:001:05:33:20.000"; VStr "NMAN"];
        [VStr "2017:001:05:33:20.000"; VStr "2099:365:00:00:00.000"; VStr "NPNT"]] !! i
         = Some row ->
       [[VStr "2017:001:02:46:40.000"; VStr "2017:001:05:33:20.000"; VStr "NMAN"];
        [VStr "2017:001:05:33:20.000"; VStr "2099:365:00:00:00.000"; VStr "NPNT"]] !! S i
         = Some row' ->
       row !! 1%nat = row' !! 0%nat) /\
    (forall row,
       row ∈ [[VStr "2017:001:02:46:40.000"; VStr "2017:001:05:33:20.000"; VStr "NMAN"];
              [VStr "2017:001:05:33:20.000"; VStr "2099:365:00:00:00.000"; VStr "NPNT"]] ->
       exists r row0 key col,
         (1 <= r)%nat /\ rows selected !! r = Some row0 /\
         row !! 0%nat = row0 !! 0%nat /\ drop 2 row = drop 2 row0 /\
         key ∈ ["pcad_mode"] /\ table_column table_modes key = Ok col /\
         differs col r = true).
Proof.
  split; [vm_compute; reflexivity|].
  apply (reduce_states_rows table_modes ["pcad_mode"]
           (mkTable ["datestart"; "datestop"; "pcad_mode"]
              [[VStr "2017:001:02:46:40.000"; VStr "2017:001:05:33:20.000"; VStr "NMAN"];
               [VStr "2017:001:05:33:20.000"; VStr "2099:365:00:00:00.000"; VStr "NPNT"]])).
  vm_compute; reflexivity.
Defined.

Lemma get_transition_classes_selects_witness :
  set_iter_spec sample_externals /\
  (NMM_Transition ∈ get_transition_classes sample_externals (Some ["pitch"]) <->
     exists k, k ∈ ["pitch"] /\ k ∈ state_keys_of NMM_Transition) /\
  NMM_Transition ∈ get_transition_classes sample_externals None /\
  NoDup (get_transition_classes sample_externals (Some ["pitch"])) /\
  NoDup (get_transition_classes sample_externals None).
Proof.
  split; [exact sample_set_iter_spec|].
  exact (get_transition_classes_selects sample_externals sample_set_iter_spec
           ["pitch"] NMM_Transition).
Defined.

Lemma all_state_keys_closure_witness :
  set_iter_spec sample_externals /\
  NoDup (all_state_keys sample_externals (Some ["pitch"; "letg"])) /\
  (forall key, key ∈ all_state_keys sample_externals (Some ["pitch"; "letg"]) <->
     exists cls k, k ∈ ["pitch"; "letg"] /\ k ∈ state_keys_of cls /\
                   key ∈ state_keys_of cls) /\
  (forall key, key ∈ all_state_keys sample_externals (Some ["pitch"; "letg"]) ->
     key ∈ STATE_KEYS) /\
  (forall key, key ∈ ["pitch"; "letg"] -> key ∈ STATE_KEYS ->
     key ∈ all_state_keys sample_externals (Some ["pitch"; "letg"])) /\
  (forall cls,
     cls ∈ get_transition_classes sample_externals
             (Some (all_state_keys sample_externals (Some ["pitch"; "letg"]))) <->
     exists k, k ∈ ["pitch"; "letg"] /\ k ∈ state_keys_of cls).
Proof.
  split; [exact sample_set_iter_spec|].
  exact (all_state_keys_closure sample_externals sample_set_iter_spec ["pitch"; "letg"]).
Defined.

Lemma add_manvr_transitions_samples_witness :
  let state := manvr_state VNone VNone VNone VNone (VStr "ENAB") in
  let state' := manvr_state (VFloat 0) (VFloat 0) (VFloat 0) (VFloat 1) (VStr "ENAB") in
  add_manvr_transitions sample_externals "2017:001:03:20:00.000" transitions_at_manvr
    state 0 manvr_cmd = Ok ("2017:001:03:36:40.000", transitions_after_manvr, state') /\
  exists curr_att targ_att atts last_att pitches cur,
    Maneuver_attitudes sample_externals curr_att targ_att
      (DateTime_secs sample_externals (cmd_date manvr_cmd)) = Ok atts /\
    last atts = Some last_att /\
    transitions_at_manvr !! 0%nat = Some cur /\
    length pitches = length atts /\
    (forall i att, atts !! i = Some att ->
       pitches !! i = Some (match atts !! S i with
                            | Some next => (att_pitch att + att_pitch next) / 2
                            | None => att_pitch att
                            end)%Q) /\
    transitions_after_manvr ≡ₚ
      zip_with (sample_transition sample_externals) atts pitches ++ transitions_at_manvr /\
    length transitions_after_manvr = (length transitions_at_manvr + length atts)%nat /\
    Forall (fun att => String.ltb (DateTime_date sample_externals (att_time att))
                                  (t_date cur) = false) atts /\
    "2017:001:03:36:40.000" = DateTime_date sample_externals (att_time last_att).
Proof.
  intros state state'. split; [vm_compute; reflexivity|].
  apply (add_manvr_transitions_samples sample_externals "2017:001:03:20:00.000"
           transitions_at_manvr state 0 manvr_cmd "2017:001:03:36:40.000"
           transitions_after_manvr state').
  vm_compute; reflexivity.
Defined.

Lemma normal_sun_stays_NSUN_witness :
  let state := manvr_state VNone VNone VNone VNone (VStr "ENAB") in
  NormalSunTransition_add_transitions sample_externals "2017:001:03:20:00.000"
    transitions_at_manvr state 0 manvr_cmd = Ok (transitions_after_manvr, nsun_state) /\
  nsun_state !! "pcad_mode" = Some (VStr "NSUN") /\
  (exists curr_att targ_att,
     Maneuver_NSM_attitude sample_externals curr_att (cmd_date manvr_cmd) = Ok targ_att /\
     forall i qc targ_q, QCS !! i = Some qc -> targ_att !! i = Some targ_q ->
       nsun_state !! ("targ_" +:+ qc) = Some (VFloat targ_q)) /\
  (forall key, key ∉ QCS ++ map (fun qc => "targ_" +:+ qc) QCS ->
     key <> "pcad_mode" -> nsun_state !! key = state !! key) /\
  (forall t, t ∈ transitions_after_manvr ->
     t ∈ transitions_at_manvr \/
     exists att pitch, t = sample_transition sample_externals att pitch).
Proof.
  intros state. split; [vm_compute; reflexivity|].
  apply (normal_sun_stays_NSUN sample_externals "2017:001:03:20:00.000"
           transitions_at_manvr state 0 manvr_cmd transitions_after_manvr nsun_state).
  vm_compute; reflexivity.
Defined.

Lemma no_manvr_key_KeyError_witness :
  set_iter_spec sample_externals /\
  Forall (fun k => k ∉ MANVR_STATE_KEYS) ["letg"] /\
  head cmds_quiet = Some (mkCmd "2017:001:00:00:00.000" "COMMAND_SW" "CTXBON" 0 []) /\
  last cmds_quiet = Some (mkCmd "2017:001:05:33:20.000" "COMMAND_SW" "CTXBON" 1 []) /\
  (DateTime_secs sample_externals "2017:001:00:00:00.000" <
   DateTime_secs sample_externals "2017:001:05:33:20.000")%Q /\
  get_transitions_list sample_externals cmds_quiet
    (Some (all_state_keys sample_externals (Some ["letg"]))) = Ok [] /\
  ("pcad_mode" ∉ all_state_keys sample_externals (Some ["letg"])) /\
  exists fuel, forall fuel', (fuel <= fuel')%nat ->
    get_states_for_cmds sample_externals fuel' cmds_quiet (Some ["letg"]) =
      Some (Raise (KeyError "pcad_mode")).
Proof.
  assert (Hkeys : Forall (fun k => k ∉ MANVR_STATE_KEYS) ["letg"]).
  { apply (bool_decide_unpack _). vm_compute. exact I. }
  split; [exact sample_set_iter_spec|]. split; [exact Hkeys|].
  split; [reflexivity|]. split; [reflexivity|]. split; [vm_compute; reflexivity|].
  split; [vm_compute; reflexivity|].
  apply (no_manvr_key_KeyError sample_externals sample_set_iter_spec cmds_quiet ["letg"]
           (mkCmd "2017:001:00:00:00.000" "COMMAND_SW" "CTXBON" 0 [])
           (mkCmd "2017:001:05:33:20.000" "COMMAND_SW" "CTXBON" 1 []) [] Hkeys).
  - reflexivity.
  - reflexivity.
  - vm_compute; reflexivity.
  - vm_compute; reflexivity.
Defined.

Lemma get_transitions_list_dates_witness :
  get_transitions_list sample_externals cmds_manvr None = Ok transitions_cmds_manvr /\
  (forall i j x y, (i < j)%nat -> transitions_cmds_manvr !! i = Some x ->
     transitions_cmds_manvr !! j = Some y -> String.ltb (t_date x) (t_date y) = true) /\
  (forall t, t ∈ transitions_cmds_manvr ->
     exists cmd, cmd ∈ cmds_manvr /\ cmd_date cmd = t_date t).
Proof.
  split; [vm_compute; reflexivity|].
  apply (get_transitions_list_dates sample_externals cmds_manvr None transitions_cmds_manvr).
  vm_compute; reflexivity.
Defined.

End StatesProps.

(** * Further properties of the telemetry events *)

Module EventsProps.
Import Events Scenario EventsSpec.

(** ** [get_si] *)

Lemma Qle_bool_inject_Z (a b : Z) : Qle_bool (inject_Z a) (inject_Z b) = (a <=? b)%Z.
Proof. unfold Qle_bool, inject_Z. simpl. by rewrite !Z.mul_1_r. Qed.

(** X15: on the integer positions that the SIM reports, [get_si] leaves no
    gap inside the ACIS and the HRC ranges: the detector is [NONE] exactly
    below -104362, between -20000 and 70736, and above 104839.  A position
    that is not an integer can fall between two ranges: between 82108 and
    82109 it is [NONE]. *)
Theorem get_si_integer (simpos : Z) :
  let si := get_si (inject_Z simpos) in
  (si = "ACIS-I" <-> 82109 <= simpos <= 104839)%Z /\
  (si = "ACIS-S" <-> 70736 <= simpos <= 82108)%Z /\
  (si = " HRC-I" <-> -86147 <= simpos <= -20000)%Z /\
  (si = " HRC-S" <-> -104362 <= simpos <= -86148)%Z /\
  (si = "  NONE" <->
     simpos < -104362 \/ -20000 < simpos < 70736 \/ 104839 < simpos)%Z /\
  get_si (164217 # 2) = "  NONE".
Proof.
  intros si. subst si.
  cut (get_si (164217 # 2) = "  NONE"); [|vm_compute; reflexivity].
  generalize (get_si (164217 # 2)). intros s0 Hs0.
  unfold get_si.
  change 82109%Q with (inject_Z 82109). change 104839%Q with (inject_Z 104839).
  change 70736%Q with (inject_Z 70736). change 82108%Q with (inject_Z 82108).
  change (-86147)%Q with (inject_Z (-86147)). change (-20000)%Q with (inject_Z (-20000)).
  change (-104362)%Q with (inject_Z (-104362)). change (-86148)%Q with (inject_Z (-86148)).
  rewrite !Qle_bool_inject_Z.
  repeat match goal with
         | |- context [(?a <=? ?b)%Z] => destruct (Z.leb_spec a b)
         end; simpl;
    repeat apply conj; try exact Hs0; intros; first [discriminate | reflexivity | lia].
Qed.

(** ** [TlmEvent.get_msids_states] *)

Lemma filter_removelast_last {A} (f : A -> bool) (l : list A) (x : A) :
  last l = Some x -> f x = false -> List.filter f l = List.filter f (removelast l).
Proof.
  intros Hlast Hf. apply last_Some in Hlast as [l' ->].
  rewrite removelast_last, List.filter_app. simpl. rewrite Hf. by rewrite app_nil_r.
Qed.

(** X16: [get_msids_states] reports an event state only when telemetry shows
    a state before it and a state after it: the states returned are the
    event states among the state intervals without the first and the last
    one, that lie within the interval asked for.  No state interval, or a
    single one that is an event state, raises [IndexError]; any other input
    returns. *)
Theorem get_msids_states_flanked (event_val : string) (tstart tstop : Q)
    (event_msid : Msid) :
  let states := msid_state_intervals event_msid in
  let ok s := String.eqb (state_val s) event_val && Qle_bool tstart (state_tstart s)
              && Qle_bool (state_tstop s) tstop in
  let r := get_msids_states event_val tstart tstop event_msid in
  (states = [] -> r = Raise IndexError) /\
  (forall s, states = [s] -> state_val s = event_val -> r = Raise IndexError) /\
  (forall s, states = [s] -> state_val s <> event_val -> r = Ok []) /\
  ((2 <= length states)%nat -> r = Ok (List.filter ok (removelast (tail states)))) /\
  (forall l, r = Ok l ->
     l = List.filter ok (removelast (tail states)) /\
     Forall (fun s => state_val s = event_val /\ (tstart <= state_tstart s)%Q /\
                      (state_tstop s <= tstop)%Q) l).
Proof.
  intros states ok r.
  assert (Hmain : match states with
                  | [] => r = Raise IndexError
                  | [s] => r = if String.eqb (state_val s) event_val
                               then Raise IndexError else Ok []
                  | _ => r = Ok (List.filter ok (removelast (tail states)))
                  end).
  { subst r. unfold get_msids_states. fold states. fold ok.
    destruct states as [|s0 [|s1 rest]]; [done| |].
    - simpl. destruct (String.eqb (state_val s0) event_val) eqn:H0; simpl; [done|].
      rewrite H0. cbn [List.filter]. unfold ok. by rewrite H0.
    - assert (Hlast : exists x, last (s1 :: rest) = Some x).
      { destruct (last (s1 :: rest)) eqn:Hl; [eauto|]. by apply last_None in Hl. }
      destruct Hlast as [x Hx].
      change (tail (s0 :: s1 :: rest)) with (s1 :: rest).
      change (list_get (s0 :: s1 :: rest) 0) with (Ok s0).
      change (drop 1 (s0 :: s1 :: rest)) with (s1 :: rest).
      assert (Hlast' : last (s0 :: s1 :: rest) = Some x) by (by rewrite last_cons, Hx).
      assert (Hrm : removelast (s0 :: s1 :: rest) = s0 :: removelast (s1 :: rest)) by done.
      revert Hx Hlast' Hrm. generalize (s1 :: rest). intros l Hx Hlast' Hrm.
      cbn [mbind result_bind].
      destruct (String.eqb (state_val s0) event_val) eqn:H0.
      + unfold list_last. rewrite Hx. cbn [mbind result_bind].
        destruct (String.eqb (state_val x) event_val) eqn:Hxe; [done|].
        f_equal. apply (filter_removelast_last _ _ x); [done|].
        unfold ok. by rewrite Hxe.
      + unfold list_last. rewrite Hlast'. cbn [mbind result_bind].
        assert (Hok0 : ok s0 = false) by (unfold ok; by rewrite H0).
        destruct (String.eqb (state_val x) event_val) eqn:Hxe.
        * f_equal. rewrite Hrm. cbn [List.filter]. by rewrite Hok0.
        * f_equal. cbn [List.filter]. rewrite Hok0.
          apply (filter_removelast_last _ _ x); [done|].
          unfold ok. by rewrite Hxe. }
  split; [intros Heq; by rewrite Heq in Hmain|].
  split.
  { intros s Heq Hs. rewrite Heq in Hmain. rewrite Hmain.
    apply String.eqb_eq in Hs. by rewrite Hs. }
  split.
  { intros s Heq Hs. rewrite Heq in Hmain. rewrite Hmain.
    apply String.eqb_neq in Hs. by rewrite Hs. }
  split.
  { intros Hlen. destruct states as [|s0 [|s1 rest]]; simpl in Hlen; [lia|lia|done]. }
  intros l Hl.
  assert (Heq : l = List.filter ok (removelast (tail states))).
  { destruct states as [|s0 [|s1 rest]]; rewrite Hmain in Hl.
    - discriminate.
    - destruct (String.eqb (state_val s0) event_val); [discriminate|]. by injection Hl as <-.
    - by injection Hl as <-. }
  split; [done|]. rewrite Heq. apply Forall_forall. intros s Hs.
  apply list_elem_of_In, List.filter_In in Hs as [_ Hs]. unfold ok in Hs.
  apply andb_prop in Hs as [Hs H3]. apply andb_prop in Hs as [H1 H2].
  apply String.eqb_eq in H1. apply Qle_bool_iff in H2, H3. done.
Qed.

(** ** Dwells *)

Lemma dwell_step_irrelevant (st : DwellLoop) (change : Change) :
  String.eqb (msid change) "aoacaseq" = false ->
  String.eqb (msid change) "aopcadmd" && String.eqb (val change) "NMAN" = false ->
  dwell_step st change = st.
Proof.
  intros H1 H2. unfold dwell_step, dwell_exit. rewrite H1, H2. simpl.
  by rewrite !andb_false_r.
Qed.

(** X17: [get_dwells] reads only the changes after the end of the maneuver
    that are changes of [aoacaseq], or changes of [aopcadmd] to [NMAN]: the
    dwells of a sequence are the dwells of these changes alone, whatever
    the other MSIDs do in between. *)
Theorem get_dwells_relevant_changes (changes : list Change) :
  get_dwells
    (List.filter (fun c => String.eqb (msid c) "aoacaseq"
                           || String.eqb (msid c) "aopcadmd" && String.eqb (val c) "NMAN")
                 changes) =
  get_dwells changes.
Proof.
  unfold get_dwells, dwell_loop. generalize get_dwells_start.
  induction changes as [|c changes IH]; intros st; [done|].
  cbn [List.filter].
  destruct (String.eqb (msid c) "aoacaseq") eqn:H1; cbn [orb].
  - cbn [List.filter]. destruct (post_manvr c); simpl; apply IH.
  - destruct (String.eqb (msid c) "aopcadmd" && String.eqb (val c) "NMAN") eqn:H2.
    + cbn [List.filter]. destruct (post_manvr c); simpl; apply IH.
    + destruct (post_manvr c); simpl; [|apply IH].
      rewrite dwell_step_irrelevant by done. apply IH.
Qed.

Lemma dwell_step_count (st : DwellLoop) (change : Change) :
  let pending st := if bool_decide (state st = None) then 0%nat else 1%nat in
  (length (dwells (dwell_step st change)) + pending (dwell_step st change) <=
   length (dwells st) + pending st +
   (if String.eqb (msid change) "aoacaseq" && String.eqb (val change) "KALM"
    then 1 else 0))%nat.
Proof.
  intros pending. unfold dwell_step.
  destruct (bool_decide (state st = None)) eqn:Hnone.
  - apply bool_decide_eq_true in Hnone as Hst.
    assert (Hd : is_dwell (state st) = false) by (by rewrite Hst).
    rewrite Hd. cbn [andb].
    destruct (String.eqb (msid change) "aoacaseq" && String.eqb (val change) "KALM") eqn:Hk.
    + unfold pending. simpl. rewrite Hst. simpl. lia.
    + unfold pending. rewrite Hnone. lia.
  - cbn [andb]. unfold pending at 2. rewrite Hnone.
    repeat case_match; unfold pending; simpl; rewrite ?length_app, ?Hnone; simpl; lia.
Qed.

(** X18: a maneuver has no more dwells than Kalman acquisitions after its
    end: the number of dwells that [get_dwells] returns is at most the
    number of changes of [aoacaseq] to [KALM] after the end of the maneuver,
    which [get_manvr_attrs] reports as [n_kalman]. *)
Theorem n_dwell_le_n_kalman (changes : list Change) :
  match_len (match_ changes "aoacaseq" "KALM" None (Some after)) =
    AInt (Z.of_nat (length (List.filter
      (fun c => String.eqb (msid c) "aoacaseq" && String.eqb (val c) "KALM" && post_manvr c)
      changes))) /\
  (length (get_dwells changes) <=
   length (List.filter
     (fun c => String.eqb (msid c) "aoacaseq" && String.eqb (val c) "KALM" && post_manvr c)
     changes))%nat.
Proof.
  split.
  - unfold match_, match_len. simpl. by rewrite length_map.
  - unfold get_dwells, dwell_loop.
    set (pending st := if bool_decide (state st = None) then 0%nat else 1%nat).
    enough (H : forall st,
      (length (dwells (foldl dwell_step st (List.filter post_manvr changes))) +
       pending (foldl dwell_step st (List.filter post_manvr changes)) <=
       length (dwells st) + pending st +
       length (List.filter
         (fun c => String.eqb (msid c) "aoacaseq" && String.eqb (val c) "KALM"
                   && post_manvr c) changes))%nat).
    { specialize (H get_dwells_start). change (pending get_dwells_start) with 0%nat in H.
      simpl in H. lia. }
    induction changes as [|c changes IH]; intros st; [simpl; lia|].
    cbn [List.filter]. destruct (post_manvr c) eqn:Hp.
    + cbn [foldl]. specialize (IH (dwell_step st c)).
      pose proof (dwell_step_count st c) as Hstep. cbv zeta in Hstep. fold pending in Hstep.
      rewrite andb_true_r.
      destruct (String.eqb (msid c) "aoacaseq" && String.eqb (val c) "KALM");
        simpl length; lia.
    + rewrite andb_false_r. apply IH.
Qed.

(** ** [get_manvr_attrs] *)

Lemma dwell_step_dt_inv (st : DwellLoop) (change : Change) :
  let dt_inv st :=
    Forall (fun d => is_Some (dwell_dt d)) (dwells st) /\
    (is_Some (dwell_tstart (dwell st)) -> is_Some (dwell_dt (dwell st))) in
  dwell_inv st -> dt_inv st -> dt_inv (dwell_step st change).
Proof.
  intros dt_inv [_ Hst] [Hall Hpending]. unfold dt_inv, dwell_step.
  repeat case_match; simpl; try (split; eauto; done).
  split; [|by intros [? ?]].
  rewrite Forall_app. split; [done|]. constructor; [|done]. simpl.
  apply Hpending. destruct (state st) as [s'|]; [|done]. by destruct Hst as (_ & ? & _).
Qed.

Lemma get_dwells_complete (changes : list Change) :
  Forall (fun d => is_Some (dwell_dt d) /\ is_Some (dwell_tstart d) /\
                   is_Some (dwell_datestart d) /\ is_Some (dwell_tstop d) /\
                   is_Some (dwell_datestop d))
         (get_dwells changes).
Proof.
  unfold get_dwells, dwell_loop.
  set (dt_inv st :=
    Forall (fun d => is_Some (dwell_dt d)) (dwells st) /\
    (is_Some (dwell_tstart (dwell st)) -> is_Some (dwell_dt (dwell st)))).
  assert (H : forall l st, dwell_inv st -> dt_inv st ->
            dwell_inv (foldl dwell_step st l) /\ dt_inv (foldl dwell_step st l)).
  { induction l as [|c l IH]; intros st H1 H2; [done|]. simpl.
    apply IH; [by apply dwell_step_inv|by apply dwell_step_dt_inv]. }
  destruct (H (List.filter post_manvr changes) get_dwells_start get_dwells_start_inv)
    as [[Hc _] [Hdt _]].
  { split; [constructor|]. simpl. by intros [? ?]. }
  rewrite Forall_forall in Hc, Hdt. apply Forall_forall. intros d Hd.
  specialize (Hc d Hd). specialize (Hdt d Hd). unfold complete_dwell in Hc.
  destruct (dwell_tstart d), (dwell_datestart d), (dwell_tstop d), (dwell_datestop d);
    simpl in Hc; try discriminate; eauto 10.
Qed.

Lemma dwell_attrs_Ok (i : nat) (d : Dwell) :
  is_Some (dwell_dt d) -> is_Some (dwell_tstart d) -> is_Some (dwell_datestart d) ->
  is_Some (dwell_tstop d) -> is_Some (dwell_datestop d) ->
  exists items, dwell_attrs i d = Ok items /\
    Forall (fun item => String.prefix "dwell" item.1 = true) items /\
    (i = 0%nat -> exists v, assoc_get "dwell_datestart" items = Some v).
Proof.
  intros [dt Hdt] [ts Hts] [ds Hds] [te Hte] [de Hde].
  unfold dwell_attrs. rewrite Hdt, Hts, Hds, Hte, Hde. cbn [mbind result_bind].
  eexists. split; [reflexivity|]. split.
  - destruct (Nat.eqb i 0); repeat constructor; simpl;
      match goal with |- String.prefix EmptyString ?s = true => by destruct s end.
  - intros ->. simpl. eauto.
Qed.

Lemma map_result_Ok {A B} (f : A -> result B) (P : B -> Prop) (l : list A) :
  Forall (fun x => exists y, f x = Ok y /\ P y) l ->
  exists l', map_result f l = Ok l' /\ Forall P l' /\ length l' = length l.
Proof.
  induction 1 as [|x l (y & Hy & HP) _ (l' & Hl' & HP' & Hlen)]; simpl.
  - exists []. done.
  - rewrite Hy. simpl. rewrite Hl'. simpl. exists (y :: l'). simpl. auto.
Qed.

Lemma assoc_get_assoc_set {V} (k k' : string) (v : V) (d : list (string * V)) :
  assoc_get k (assoc_set k' v d) = if String.eqb k k' then Some v else assoc_get k d.
Proof.
  induction d as [|[k0 v0] d IH]; simpl.
  - done.
  - destruct (String.eqb_spec k' k0) as [->|Hne]; simpl.
    + by destruct (String.eqb k k0).
    + destruct (String.eqb_spec k k0) as [->|Hne'].
      * apply String.eqb_neq in Hne. rewrite String.eqb_sym in Hne. by rewrite Hne.
      * done.
Qed.

Lemma assoc_get_foldl_other {V} (k : string) (items d : list (string * V)) :
  Forall (fun item => String.eqb k item.1 = false) items ->
  assoc_get k (foldl (fun attrs '(k, v) => assoc_set k v attrs) d items) = assoc_get k d.
Proof.
  intros H. revert d. induction H as [|[k' v] items Hk _ IH]; intros d; simpl; [done|].
  rewrite IH, assoc_get_assoc_set. simpl in Hk. by rewrite Hk.
Qed.

Lemma assoc_get_foldl_Some {V} (k : string) (items d : list (string * V)) :
  is_Some (assoc_get k d) ->
  is_Some (assoc_get k (foldl (fun attrs '(k, v) => assoc_set k v attrs) d items)).
Proof.
  revert d. induction items as [|[k' v] items IH]; intros d H; simpl; [done|].
  apply IH. rewrite assoc_get_assoc_set. by destruct (String.eqb k k').
Qed.

Lemma assoc_get_foldl_in {V} (k : string) (items d : list (string * V)) :
  is_Some (assoc_get k items) ->
  is_Some (assoc_get k (foldl (fun attrs '(k, v) => assoc_set k v attrs) d items)).
Proof.
  revert d. induction items as [|[k' v] items IH]; intros d H; simpl in *.
  - by destruct H.
  - destruct (String.eqb k k') eqn:Hk.
    + apply assoc_get_foldl_Some. rewrite assoc_get_assoc_set. by rewrite Hk.
    + by apply IH.
Qed.

Lemma prefix_dwell_neq (k k' : string) :
  String.prefix "dwell" k = false -> String.prefix "dwell" k' = true ->
  String.eqb k k' = false.
Proof.
  intros Hk Hk'. apply String.eqb_neq. intros ->. congruence.
Qed.

(** X19: the lookup of the nominal values is the only place where
    [get_manvr_attrs] can raise.  When the loop that sets [anomalous]
    raises, [get_manvr_attrs] raises the same exception; when it ends,
    [get_manvr_attrs] returns, with the flag under [anomalous], the number
    of dwells under [n_dwell], a [template], and the attributes of the first
    dwell exactly when there is a dwell. *)
Theorem get_manvr_attrs_returns (manvr_templates : list (string * list string))
    (changes : list Change) :
  (forall e, get_anomalous changes = Raise e ->
     get_manvr_attrs manvr_templates changes = Raise e) /\
  (forall anomalous, get_anomalous changes = Ok anomalous ->
     exists attrs,
       get_manvr_attrs manvr_templates changes = Ok attrs /\
       assoc_get "anomalous" attrs = Some (ABool anomalous) /\
       assoc_get "n_dwell" attrs = Some (AInt (Z.of_nat (length (get_dwells changes)))) /\
       (exists name, assoc_get "template" attrs = Some (AStr name)) /\
       (is_Some (assoc_get "dwell_datestart" attrs) <-> get_dwells changes <> [])).
Proof.
  split.
  - intros e He. unfold get_manvr_attrs. by rewrite He.
  - intros anomalous Hb. unfold get_manvr_attrs. rewrite Hb. cbn [mbind result_bind].
    pose proof (get_dwells_complete changes) as Hc.
    set (dwells := get_dwells changes) in *.
    assert (Hitems : exists items,
      map_result (fun '(i, d) => dwell_attrs i d) (imap (fun i d => (i, d)) dwells) = Ok items /\
      Forall (Forall (fun item => String.prefix "dwell" item.1 = true)) items /\
      (dwells = [] -> items = []) /\
      (dwells <> [] -> exists first rest v, items = first :: rest /\
         assoc_get "dwell_datestart" first = Some v)).
    { destruct dwells as [|d0 dwells'] eqn:Hdw.
      - exists []. done.
      - apply Forall_cons in Hc as [(H1 & H2 & H3 & H4 & H5) Hc].
        destruct (dwell_attrs_Ok 0 d0 H1 H2 H3 H4 H5) as (first & Hfirst & Hpre & Hds).
        destruct (Hds eq_refl) as [v Hv].
        destruct (map_result_Ok (fun '(i, d) => dwell_attrs i d)
                    (Forall (fun item => String.prefix "dwell" item.1 = true))
                    (imap (fun i d => (S i, d)) dwells')) as (rest & Hrest & Hall & _).
        { apply Forall_forall. intros [i d] Hin.
          apply elem_of_lookup_imap in Hin as (j & d' & Heq & Hj). injection Heq as -> ->.
          rewrite Forall_forall in Hc.
          destruct (Hc d' (list_elem_of_lookup_2 _ _ _ Hj)) as (G1 & G2 & G3 & G4 & G5).
          destruct (dwell_attrs_Ok (S j) d' G1 G2 G3 G4 G5) as (items & Hi & Hp & _). eauto. }
        exists (first :: rest). split.
        + cbn [imap map_result]. rewrite Hfirst. cbn [mbind result_bind].
          unfold compose. rewrite Hrest. done.
        + split; [by constructor|]. split; [done|]. intros _. eauto. }
    destruct Hitems as (items & -> & Hpre & Hnil & Hcons). cbn [mbind result_bind].
    eexists. split; [reflexivity|].
    assert (Hkeys : Forall (fun item : string * attr => String.prefix "dwell" item.1 = true)
                           (concat items)).
    { apply Forall_concat. done. }
    assert (Hother : forall k, String.prefix "dwell" k = false ->
              Forall (fun item : string * attr => String.eqb k item.1 = false) (concat items)).
    { intros k Hk. eapply Forall_impl; [exact Hkeys|]. intros item Hi.
      by apply prefix_dwell_neq. }
    split; [by rewrite assoc_get_foldl_other by (by apply Hother)|].
    split; [by rewrite assoc_get_foldl_other by (by apply Hother)|].
    split; [rewrite assoc_get_foldl_other by (by apply Hother); simpl; eauto|].
    split.
    + intros Hsome Hempty. rewrite (Hnil Hempty) in Hsome. simpl in Hsome.
      by destruct Hsome.
    + intros Hne. destruct (Hcons Hne) as (first & rest & v & -> & Hv).
      rewrite concat_cons, foldl_app. apply assoc_get_foldl_Some.
      apply assoc_get_foldl_in. by rewrite Hv.
Qed.

(** ** [get_msid_changes] *)

Lemma change_leb_key_le (a b : Change) : change_leb a b = true -> change_key_le a b.
Proof.
  unfold change_leb, change_compare, change_key_le, lex.
  destruct (time0 a ?= time0 b)%Q eqn:Ht.
  - apply Qeq_alt in Ht. intros H. right. split; [done|].
    destruct (sortmsid a ?= sortmsid b)%Z eqn:Hs.
    + apply Z.compare_eq in Hs. lia.
    + pose proof (proj1 (Z.compare_lt_iff _ _) Hs). lia.
    + discriminate.
  - apply Qlt_alt in Ht. by left.
  - discriminate.
Qed.

Lemma change_leb_false_key_le (a b : Change) : change_leb a b = false -> change_key_le b a.
Proof.
  unfold change_leb, change_compare, change_key_le, lex.
  destruct (time0 a ?= time0 b)%Q eqn:Ht.
  - apply Qeq_alt in Ht. intros H. right. split; [by symmetry|].
    destruct (sortmsid a ?= sortmsid b)%Z eqn:Hs.
    + apply Z.compare_eq in Hs. lia.
    + discriminate.
    + pose proof (proj1 (Z.compare_gt_iff _ _) Hs). lia.
  - discriminate.
  - apply Qgt_alt in Ht. by left.
Qed.

Lemma change_key_le_trans (a b c : Change) :
  change_key_le a b -> change_key_le b c -> change_key_le a c.
Proof.
  unfold change_key_le. intros [H1|[H1 H1']] [H2|[H2 H2']].
  - left. lra.
  - left. lra.
  - left. lra.
  - right. split; [lra|lia].
Qed.

Lemma insert_change_Permutation (x : Change) (l : list Change) :
  insert_change x l ≡ₚ x :: l.
Proof.
  induction l as [|y l IH]; simpl; [done|].
  destruct (change_leb x y); [done|]. rewrite IH. apply Permutation_swap.
Qed.

Lemma sort_changes_Permutation (l : list Change) : sort_changes l ≡ₚ l.
Proof.
  induction l as [|x l IH]; simpl; [done|].
  rewrite insert_change_Permutation. by rewrite IH.
Qed.

Lemma insert_change_sorted (x : Change) (l : list Change) :
  StronglySorted change_key_le l -> StronglySorted change_key_le (insert_change x l).
Proof.
  induction 1 as [|y l Hl IH Hy]; simpl.
  - repeat constructor.
  - destruct (change_leb x y) eqn:Hxy.
    + apply change_leb_key_le in Hxy. constructor; [by constructor|].
      constructor; [done|]. eapply Forall_impl; [exact Hy|].
      intros z Hz. by eapply change_key_le_trans.
    + apply change_leb_false_key_le in Hxy. constructor; [done|].
      apply Forall_forall. intros z Hz.
      rewrite insert_change_Permutation in Hz. apply elem_of_cons in Hz as [->|Hz]; [done|].
      rewrite Forall_forall in Hy. by apply Hy.
Qed.

Lemma sort_changes_sorted (l : list Change) : StronglySorted change_key_le (sort_changes l).
Proof.
  induction l as [|x l IH]; simpl; [constructor|]. by apply insert_change_sorted.
Qed.

Lemma StronglySorted_lookup {A} (R : A -> A -> Prop) (l : list A) (i j : nat) (a b : A) :
  StronglySorted R l -> (i < j)%nat -> l !! i = Some a -> l !! j = Some b -> R a b.
Proof.
  intros H. revert i j. induction H as [|x l Hl IH Hx]; intros i j Hij Hi Hj; [done|].
  destruct j as [|j]; [lia|]. destruct i as [|i]; simpl in *.
  - injection Hi as <-. rewrite Forall_forall in Hx. apply Hx.
    by eapply list_elem_of_lookup_2.
  - apply (IH i j); [lia|done|done].
Qed.

Lemma elem_of_i_changes (vals : list string) (i : nat) :
  i ∈ i_changes vals ->
  exists a b, vals !! i = Some a /\ vals !! (i + 1)%nat = Some b /\ a <> b.
Proof.
  unfold i_changes. intros H. apply list_elem_of_In, List.filter_In in H as [_ H].
  replace (i + 1)%nat with (S i) by lia.
  destruct (vals !! i) as [a|]; [|done]. destruct (vals !! S i) as [b|]; [|done].
  exists a, b. repeat split. intros ->. by rewrite String.eqb_refl in H.
Qed.

Section TelemetryFacts.

Variable DateTime_date : Q -> string.
Variable searchsorted : list Q -> Q -> nat.
Variable manvr_templates : list (string * list string).

Lemma map_result_elem {A B} (f : A -> result B) (l : list A) (l' : list B) (y : B) :
  map_result f l = Ok l' -> y ∈ l' -> exists x, x ∈ l /\ f x = Ok y.
Proof.
  revert l'. induction l as [|x l IH]; intros l' H Hy; simpl in H.
  - injection H as <-. by apply elem_of_nil in Hy.
  - destruct (f x) as [y0|] eqn:Hx; simpl in H; [|discriminate].
    destruct (map_result f l) as [ys|] eqn:Hl; simpl in H; [|discriminate].
    injection H as <-. apply elem_of_cons in Hy as [->|Hy].
    + exists x. split; [left|done].
    + destruct (IH _ eq_refl Hy) as (x' & Hx' & Hfx'). exists x'. split; [by right|done].
Qed.

(** X20: the changes that [get_msid_changes] returns are in the order of
    their [time0] and, where two changes have the same [time0], of their
    [sortmsid]: [aofattmd] before [aopcadmd] before [aoacaseq] before
    [aopsacpr] before any other MSID.  Each row is a change between two
    consecutive samples of one of the MSIDs, with different values and a
    [dt] of zero; and there is at least one row. *)
Theorem get_msid_changes_sorted (msids : list Msid) (changes : list Change) :
  get_msid_changes DateTime_date msids = Ok changes ->
  changes <> [] /\
  (forall i j a b, (i < j)%nat -> changes !! i = Some a -> changes !! j = Some b ->
     change_key_le a b) /\
  Forall (fun c =>
            val0 c <> val c /\ dt c = 0%Q /\
            exists m i, m ∈ msids /\ msid c = msid_name m /\
              sortmsid c = default 10%Z (assoc_get (msid_name m) sortmsids) /\
              msid_vals m !! i = Some (val0 c) /\
              msid_vals m !! (i + 1)%nat = Some (val c) /\
              msid_times m !! i = Some (time0 c) /\
              msid_times m !! (i + 1)%nat = Some (time c) /\
              date0 c = DateTime_date (time0 c) /\ date c = DateTime_date (time c))
         changes.
Proof.
  unfold get_msid_changes. intros H.
  destruct (map_result (msid_changes DateTime_date) msids) as [rows|] eqn:Hrows;
    simpl in H; [|discriminate].
  destruct (list_get (concat rows) 0) as [c0|] eqn:H0; simpl in H; [|discriminate].
  injection H as <-.
  pose proof (sort_changes_Permutation (concat rows)) as Hperm.
  split.
  { intros Heq. rewrite Heq in Hperm. apply Permutation_nil_l in Hperm.
    rewrite <- Hperm in H0. done. }
  split.
  { intros i j a b. apply StronglySorted_lookup, sort_changes_sorted. }
  rewrite Hperm. apply Forall_forall. intros c Hc.
  apply list_elem_of_In, in_concat in Hc as (row & Hrow & Hc).
  apply list_elem_of_In in Hrow, Hc.
  destruct (map_result_elem _ _ _ _ Hrows Hrow) as (m & Hm & Hmc).
  unfold msid_changes in Hmc.
  destruct (map_result_elem _ _ _ _ Hmc Hc) as (i & Hi & Hci).
  destruct (elem_of_i_changes _ _ Hi) as (a & b & Ha & Hb & Hab).
  unfold list_get in Hci. rewrite Ha, Hb in Hci. cbn [mbind result_bind] in Hci.
  destruct (msid_times m !! i) as [t0|] eqn:Ht0; cbn [mbind result_bind] in Hci;
    [|discriminate].
  destruct (msid_times m !! (i + 1)%nat) as [t1|] eqn:Ht1; cbn [mbind result_bind] in Hci;
    [|discriminate].
  injection Hci as <-. simpl. split; [done|]. split; [done|].
  exists m, i. by rewrite Ht0, Ht1.
Qed.

(** ** [Maneuver.get_events] *)

Lemma lookup_izip3 {A} (l : list A) (k : nat) (a b c : A) :
  izip3 l !! k = Some (a, b, c) <->
  l !! k = Some a /\ l !! S k = Some b /\ l !! S (S k) = Some c.
Proof.
  unfold izip3. rewrite lookup_zip_with_Some. split.
  - intros ([a' b'] & c' & Heq & Hab & Hc). injection Heq as -> -> ->.
    apply lookup_zip_with_Some in Hab as (a'' & b'' & Heq & Ha & Hb).
    injection Heq as -> ->. rewrite lookup_drop in Hb, Hc. done.
  - intros (Ha & Hb & Hc). exists (a, b), c. split; [done|]. split.
    + apply lookup_zip_with_Some. exists a, b. rewrite lookup_drop. done.
    + by rewrite lookup_drop.
Qed.

Lemma length_izip3 {A} (l : list A) : length (izip3 l) = (length l - 2)%nat.
Proof. unfold izip3. rewrite !length_zip_with, !length_drop. lia. Qed.

Lemma manvr_sequence_rows (changes : list Change) (i0 i1 : nat) (tstop : Q) (c : Change) :
  c ∈ manvr_sequence changes i0 i1 tstop ->
  (post_manvr c = true \/ msid c = "aofattmd" \/ msid c = "aopcadmd") /\
  dt c = ((time c + time0 c) / 2 - tstop)%Q /\
  exists c' i, changes !! i = Some c' /\ (i0 <= i <= i1)%nat /\
    msid c = msid c' /\ val0 c = val0 c' /\ val c = val c' /\
    time0 c = time0 c' /\ time c = time c'.
Proof.
  unfold manvr_sequence. intros H.
  apply list_elem_of_In, List.filter_In in H as [H Hok].
  apply list_elem_of_In, list_elem_of_fmap in H as (c' & -> & Hc'). simpl in *.
  split.
  { apply orb_prop in Hok as [Hok|Hok]; [apply orb_prop in Hok as [Hok|Hok]|].
    - by left.
    - right. left. by apply String.eqb_eq.
    - right. right. by apply String.eqb_eq. }
  split; [done|].
  apply list_elem_of_lookup in Hc' as [k Hk].
  apply lookup_take_Some in Hk as [Hk Hlt]. rewrite lookup_drop in Hk.
  exists c', (i0 + k)%nat. repeat split; try done; lia.
Qed.

(** X21: [Maneuver.get_events] makes one event for each maneuver state that
    has a maneuver state before it and one after it: with [n] states there
    are [n - 2] events, and event [k] is for state [k + 1].  The sequence of
    an event holds rows of [changes], between the two indices that
    [searchsorted] gives, with [dt] counted from the end of that maneuver;
    a row before the end of the maneuver is kept only for [aofattmd] and
    [aopcadmd]. *)
Theorem Maneuver_get_events_interior (states : list Interval) (changes : list Change)
    (events : list ManvrEvent) :
  Maneuver_get_events DateTime_date searchsorted manvr_templates states changes = Ok events ->
  length events = (length states - 2)%nat /\
  forall k ev, events !! k = Some ev ->
    exists manvr_prev manvr manvr_next,
      states !! k = Some manvr_prev /\ states !! S k = Some manvr /\
      states !! S (S k) = Some manvr_next /\
      ev_tstart ev = state_tstart manvr /\ ev_tstop ev = state_tstop manvr /\
      ev_datestart ev = DateTime_date (state_tstart manvr) /\
      ev_datestop ev = DateTime_date (state_tstop manvr) /\
      get_manvr_attrs manvr_templates (ev_sequence ev) = Ok (ev_manvr_attrs ev) /\
      Forall (fun c =>
                (post_manvr c = true \/ msid c = "aofattmd" \/ msid c = "aopcadmd") /\
                dt c = ((time c + time0 c) / 2 - state_tstop manvr)%Q /\
                exists c' i, changes !! i = Some c' /\
                  (searchsorted (map time changes) (state_tstop manvr_prev) <= i
                   <= searchsorted (map time changes) (state_tstart manvr_next))%nat /\
                  msid c = msid c' /\ val0 c = val0 c' /\ val c = val c' /\
                  time0 c = time0 c' /\ time c = time c')
             (ev_sequence ev).
Proof.
  unfold Maneuver_get_events. intros H.
  pose proof (StatesSpec.length_map_result _ _ _ H) as Hlen.
  rewrite length_izip3 in Hlen. split; [done|].
  intros k ev Hev.
  destruct (StatesProps.map_result_lookup _ _ _ _ _ H Hev) as ([[p m] n] & Hk & Hf).
  apply lookup_izip3 in Hk as (Hp & Hm & Hn).
  destruct (get_manvr_attrs manvr_templates _) as [attrs|] eqn:Hattrs; simpl in Hf;
    [|discriminate].
  injection Hf as <-. simpl. exists p, m, n. repeat split; try done.
  apply Forall_forall. intros c Hc. by apply manvr_sequence_rows.
Qed.

End TelemetryFacts.

(** ** Where a dwell starts and stops *)

(** What the loop of [get_dwells] maintains over the changes [seen] so far:
    each dwell in [dwells] was started by a change to [KALM] and ended by an
    exit change, and a pending dwell was started by the change to [KALM]
    whose time is [t0]. *)
Lemma dwell_step_from (seen : list Change) (st : DwellLoop) (change : Change) :
  dwell_from seen st -> dwell_from (seen ++ [change]) (dwell_step st change).
Proof.
  intros (Hall & Hst).
  assert (Hall' : Forall (dwell_between (seen ++ [change])) (dwells st)).
  { eapply Forall_impl; [exact Hall|]. intros d (c1 & c2 & H1 & H2 & Hd).
    exists c1, c2. rewrite !elem_of_app. tauto. }
  assert (Hchange : change ∈ seen ++ [change])
    by (rewrite elem_of_app, list_elem_of_singleton; tauto).
  unfold dwell_step.
  destruct (state st) as [s|] eqn:Hs.
  - destruct Hst as (-> & c1 & Hc1 & Hk1 & Hv1 & Ht0 & Hd).
    rewrite bool_decide_eq_false_2 by done. cbn [andb is_dwell].
    change (String.eqb "dwell" "dwell") with true. cbn [andb].
    destruct (String.eqb (msid change) "aoacaseq" && String.eqb (val change) "KALM"
              && Qltb (time change - t0 st) 400) eqn:Hre.
    + apply andb_prop in Hre as [Hre _]. apply andb_prop in Hre as [Hm Hv].
      apply String.eqb_eq in Hm, Hv.
      split; [done|]. simpl. split; [done|].
      exists change. rewrite Hd. simpl. done.
    + destruct (dwell_exit (t0 st) change) eqn:Hexit.
      * split; simpl; [|done].
        rewrite Forall_app. split; [done|]. constructor; [|done].
        exists c1, change. rewrite elem_of_app. rewrite Hd. simpl.
        rewrite <- Ht0. tauto.
      * split; [done|]. rewrite Hs. split; [done|].
        exists c1. rewrite elem_of_app. tauto.
  - rewrite bool_decide_eq_true_2 by done. cbn [andb is_dwell].
    destruct (String.eqb (msid change) "aoacaseq" && String.eqb (val change) "KALM") eqn:Hk.
    + apply andb_prop in Hk as [Hm Hv]. apply String.eqb_eq in Hm, Hv.
      split; [done|]. simpl. split; [done|]. exists change. rewrite Hst. simpl. done.
    + split; [done|]. by rewrite Hs.
Qed.

Lemma dwell_loop_from (seen changes : list Change) (st : DwellLoop) :
  dwell_from seen st -> dwell_from (seen ++ changes) (dwell_loop st changes).
Proof.
  revert seen st. induction changes as [|c changes IH]; intros seen st H.
  - by rewrite app_nil_r.
  - simpl. replace (seen ++ c :: changes) with ((seen ++ [c]) ++ changes)
      by (by rewrite <- app_assoc).
    apply IH. by apply dwell_step_from.
Qed.

(** X22: every dwell that [get_dwells] returns starts at a change of
    [aoacaseq] to [KALM] after the end of the maneuver, of which it has the
    time, the date and the [dt], and stops at the [time0] and [date0] of a
    change after the end of the maneuver that is a change of [aopcadmd] to
    [NMAN], or a change of [aoacaseq] more than 400 seconds after that
    start. *)
Theorem get_dwells_start_stop (changes : list Change) :
  Forall (fun d =>
            exists c1 c2,
              c1 ∈ changes /\ c2 ∈ changes /\
              post_manvr c1 = true /\ post_manvr c2 = true /\
              msid c1 = "aoacaseq" /\ val c1 = "KALM" /\
              (msid c2 = "aopcadmd" /\ val c2 = "NMAN" \/
               msid c2 = "aoacaseq" /\ (400 < time c2 - time c1)%Q) /\
              d = mkDwell (Some (dt c1)) (Some (time c1)) (Some (date c1))
                          (Some (time0 c2)) (Some (date0 c2)))
         (get_dwells changes).
Proof.
  unfold get_dwells.
  destruct (dwell_loop_from [] (List.filter post_manvr changes) get_dwells_start)
    as [Hall _].
  { split; [constructor|done]. }
  eapply Forall_impl; [exact Hall|]. intros d (c1 & c2 & H1 & H2 & Hm & Hv & Hexit & ->).
  simpl in H1, H2. apply list_elem_of_In, List.filter_In in H1 as [H1 Hp1].
  apply list_elem_of_In, List.filter_In in H2 as [H2 Hp2].
  apply list_elem_of_In in H1, H2.
  exists c1, c2. repeat split; try done.
  unfold dwell_exit in Hexit. apply orb_prop in Hexit as [He|He];
    apply andb_prop in He as [He1 He2]; apply String.eqb_eq in He1.
  - left. apply String.eqb_eq in He2. done.
  - right. split; [done|]. unfold Qltb in He2. apply negb_true_iff in He2.
    destruct (Qlt_le_dec 400 (time c2 - time c1)) as [Hlt|Hle]; [done|].
    apply Qle_bool_iff in Hle. congruence.
Qed.

(** ** The theorems above on the sample inputs *)

Lemma get_msid_changes_sorted_witness :
  get_msid_changes sample_date sample_msids = Ok sample_changes /\
  sample_changes <> [] /\
  (forall i j a b, (i < j)%nat -> sample_changes !! i = Some a ->
     sample_changes !! j = Some b -> change_key_le a b) /\
  Forall (fun c =>
            val0 c <> val c /\ dt c = 0%Q /\
            exists m i, m ∈ sample_msids /\ msid c = msid_name m /\
              sortmsid c = default 10%Z (assoc_get (msid_name m) sortmsids) /\
              msid_vals m !! i = Some (val0 c) /\
              msid_vals m !! (i + 1)%nat = Some (val c) /\
              msid_times m !! i = Some (time0 c) /\
              msid_times m !! (i + 1)%nat = Some (time c) /\
              date0 c = sample_date (time0 c) /\ date c = sample_date (time c))
         sample_changes.
Proof.
  split; [vm_compute; reflexivity|].
  apply (get_msid_changes_sorted sample_date sample_msids sample_changes).
  vm_compute; reflexivity.
Defined.

Lemma Maneuver_get_events_interior_witness :
  Maneuver_get_events sample_date searchsorted_left [] sample_states
    [change_stdy; change_kalm; change_nman] = Ok sample_events /\
  length sample_events = (length sample_states - 2)%nat.
Proof.
  split; [vm_compute; reflexivity|].
  apply (Maneuver_get_events_interior sample_date searchsorted_left [] sample_states
           [change_stdy; change_kalm; change_nman] sample_events).
  vm_compute; reflexivity.
Defined.

End EventsProps.
